(** * Price-protection bot: a shallow embedding of the claim pipeline

    The development follows the JavaScript sources of the repository.  Each
    module embeds one source file (paths as in the source tree at hand):

    - [CardUtils]        utils/cardUtils.js, kept in backend/src/workers/cron.js
                         after the cron worker: maskCardNumber
    - [Store]            the Prisma tables the services read and write
    - [PriceMonitor]     services/priceMonitor.js (unnamed/part_014):
                         parsePrice, scrapePrice, checkPriceForPurchase
    - [EmailParser]      services/emailParser.js, rule-based revision
                         (unnamed/part_012): extractPurchaseFromEmail,
                         matchCardToUser; AI revision (unnamed/part_013):
                         extractPurchaseWithAI; services/aiParser.js
    - [ClaimsRoute]      routes/claims.js (unnamed/part_006): POST /
    - [AutoClaimService] backend/src/services/autoClaimService.js:
                         fileClaimViaEmail, createAndFileClaim
    - [ClaimService]     services/claimService.js (third document of
                         unnamed/part_015): autoFileClaim
    - [PortalFiler]      services/autoClaimFiler.js, portal revision (first
                         document of unnamed/part_015)
    - [MailFiler]        services/autoClaimFiler.js, e-mail revision (second
                         document of unnamed/part_015)
    - [CardIssuer]       utils/cardUtils.js, kept in backend/src/workers/cron.js
                         after the cron worker: luhnCheck, detectCardIssuer,
                         getPriceProtectionInfo
    - [CardsRoute]       backend/src/routes/cards.js: POST /quick-add, POST /,
                         DELETE /:id
    - [PriceSweep]       services/priceMonitor.js (unnamed/part_014):
                         checkAllEligiblePurchases
    - [CronJobs]         backend/src/workers/cron.js: the purchase expiry job
    - [ClaimActions]     routes/claims.js (unnamed/part_006): generate-docs,
                         file, status, delete, auto-file
    - [ClaimJobs]        workers/cron.js, newer revision (kept after README.md):
                         the claim catch-up job; autoClaimService.js:
                         processAutoClaimsForUser

    Conventions.  Money amounts are JavaScript numbers in the source; they are
    modelled as rationals [Q], so that the literals of the source (5, 10000,
    50000) keep their value and comparisons and [Math.min] are exact.  The
    price check sets a status and writes a notification on the difference of
    two prices, and there the rounding of IEEE doubles is modelled:
    [Js.double] gives the double nearest to a rational and [Js.sub] the
    subtraction of the source on doubles; elsewhere amounts are exact.
    Instants ([Date]) are
    integers (milliseconds).  Row identifiers (UUIDs in the source) are
    natural numbers drawn from a counter kept in the store.  Every call to the
    outside world (page scraping, the AI parser, regular expressions run over
    a message, PDF generation, mail transports, the browser) is an explicit
    argument giving the outcome the call had.  The store itself does not
    fail: the [catch] blocks that only guard against a database error are
    not entered. *)

From Stdlib Require Import List String Ascii Bool Arith ZArith QArith Qminmax Qround
  Qpower Qabs Lia Lqa.
Import ListNotations.

Set Implicit Arguments.
Close Scope Q_scope.

(* ========================================================================= *)
(** * Part I: the embedding *)

(* ------------------------------------------------------------------------- *)
(** ** JavaScript value conventions *)

Module Js.
Local Open Scope Q_scope.

(** A nullable number ([null]/[undefined] is [None]). *)
Definition num := option Q.

(** Truthiness of a nullable number: [null], [undefined] and [0] are falsy. *)
Definition truthy (x : num) : bool :=
  match x with
  | Some q => negb (Qeq_bool q 0)
  | None => false
  end.

(** [a || b] on nullable numbers. *)
Definition or (a b : num) : num := if truthy a then a else b.

(** Numeric coercion in arithmetic: [null] counts as [0]. *)
Definition toNumber (x : num) : Q :=
  match x with
  | Some q => q
  | None => 0
  end.

(** [a < b], [a <= b], [a > b] and [a >= b] on numbers, as booleans. *)
Definition ltb (a b : Q) : bool := negb (Qle_bool b a).
Definition leb (a b : Q) : bool := Qle_bool a b.
Definition gtb (a b : Q) : bool := ltb b a.
Definition geb (a b : Q) : bool := Qle_bool b a.

(** [Math.min(a, b)] *)
Definition min (a b : Q) : Q := if ltb b a then b else a.

(** *** IEEE 754 doubles

    A finite double is [m * 2^e] for integers [m] and [e] with
    [|m| <= 2^53] and [e >= -1074]; of a rational that is not of this
    form the source has the nearest double (ties to the even mantissa,
    gradual underflow), whether it reads a decimal text or column as a
    number or rounds the result of an operation.  Magnitudes of [2^1024]
    and above, where the source has [Infinity], are not told apart from the
    finite ones. *)

Definition pow2 (e : Z) : Q := 2 ^ e.

(** The integer [k] with [2^k <= q < 2^(k+1)], for [q > 0]. *)
Definition ilog2 (q : Q) : Z :=
  let k := (Z.log2 (Qnum q) - Z.log2 (Zpos (Qden q)))%Z in
  if Qle_bool (pow2 k) q then k else (k - 1)%Z.

(** The integer nearest to [x]; of two equally near, the even one. *)
Definition roundHalfEven (x : Q) : Z :=
  let f := Qfloor x in
  match Qcompare (x - inject_Z f) (1 # 2) with
  | Lt => f
  | Gt => (f + 1)%Z
  | Eq => if Z.even f then f else (f + 1)%Z
  end.

(** The exponent of the last mantissa bit of the doubles around [q > 0]:
    53 bits of mantissa, and no exponent below that of the subnormals. *)
Definition exponent (q : Q) : Z := Z.max (ilog2 q - 52) (-1074).

(** The double nearest to [q > 0]. *)
Definition nearest (q : Q) : Q :=
  inject_Z (roundHalfEven (q / pow2 (exponent q))) * pow2 (exponent q).

(** The double nearest to [q]: the value the source has for the number
    [q]; a double is left as it is. *)
Definition double (q : Q) : Q :=
  match Qnum q with
  | Z0 => 0
  | Zpos _ => nearest q
  | Zneg _ => - nearest (- q)
  end.

(** [a - b] on numbers. *)
Definition sub (a b : Q) : Q := double (double a - double b).

(** A string is truthy when it is not empty. *)
Definition nonEmpty (s : string) : bool := negb (String.eqb s EmptyString).

(** A nullable string under a truthiness test: [null] and the empty string
    are falsy. *)
Definition truthyString (s : option string) : option string :=
  match s with
  | Some x => if nonEmpty x then Some x else None
  | None => None
  end.

(** [a || d] for a nullable string [a] and a string [d]. *)
Definition orString (a : option string) (d : string) : string :=
  match truthyString a with
  | Some x => x
  | None => d
  end.

End Js.

(* ------------------------------------------------------------------------- *)
(** ** utils/cardUtils.js *)

Module CardUtils.

(** A JavaScript string, as the sequence of its code units. *)
Definition jsstring := list ascii.

(** The class [\d]: the code units '0' .. '9'. *)
Definition isDigit (c : ascii) : bool :=
  (48 <=? nat_of_ascii c)%nat && (nat_of_ascii c <=? 57)%nat.

(** [s.replace(/\D/g, '')] *)
Definition stripNonDigits (s : jsstring) : jsstring := filter isDigit s.

Definition star : ascii := "*"%char.

(** [s.slice(0, n)] and [s.slice(-n)] for a non-negative literal [n]. *)
Definition sliceHead (n : nat) (s : jsstring) : jsstring := firstn n s.
Definition sliceTail (n : nat) (s : jsstring) : jsstring :=
  skipn (List.length s - n) s.

(** [maskCardNumber(cardNumber)] *)
Definition maskCardNumber (cardNumber : jsstring) : jsstring :=
  let clean := stripNonDigits cardNumber in
  if (List.length clean <? 10)%nat then clean
  else
    let firstSix := sliceHead 6 clean in
    let lastFour := sliceTail 4 clean in
    let middleLength := (List.length clean - 10)%nat in
    firstSix ++ repeat star middleLength ++ lastFour.

End CardUtils.

(* ------------------------------------------------------------------------- *)
(** ** The store: the Prisma tables and the queries the services issue

    The Prisma schema file is not part of the sources at hand; the columns
    are those the services read and write.  Free-text columns that play no
    part in any decision (notification message bodies, e-mail subject and
    body) are left out. *)

Module Store.

Definition id := nat.
Definition instant := Z.

(** Outcome of a call that may throw: the JavaScript [Error] (or the route's
    [AppError]) is carried as a value. *)
Inductive result (E A : Type) : Type :=
| Ok (a : A)
| Err (e : E).
Arguments Ok {E A} a.
Arguments Err {E A} e.

Module PurchaseStatus.
Inductive t :=
| MONITORING | PRICE_DROP_DETECTED | CLAIM_ELIGIBLE | CLAIM_FILED
| CLAIM_APPROVED | CLAIM_DENIED | EXPIRED.
Definition eqb (a b : t) : bool :=
  match a, b with
  | MONITORING, MONITORING | PRICE_DROP_DETECTED, PRICE_DROP_DETECTED
  | CLAIM_ELIGIBLE, CLAIM_ELIGIBLE | CLAIM_FILED, CLAIM_FILED
  | CLAIM_APPROVED, CLAIM_APPROVED | CLAIM_DENIED, CLAIM_DENIED
  | EXPIRED, EXPIRED => true
  | _, _ => false
  end.
End PurchaseStatus.

Module ClaimStatus.
Inductive t :=
| DRAFT | READY_TO_FILE | EMAIL_SENT | FILED | PENDING_REVIEW
| APPROVED | DENIED | ADDITIONAL_INFO_NEEDED | MONEY_RECEIVED | EXPIRED.
Definition eqb (a b : t) : bool :=
  match a, b with
  | DRAFT, DRAFT | READY_TO_FILE, READY_TO_FILE | EMAIL_SENT, EMAIL_SENT
  | FILED, FILED | PENDING_REVIEW, PENDING_REVIEW | APPROVED, APPROVED
  | DENIED, DENIED | ADDITIONAL_INFO_NEEDED, ADDITIONAL_INFO_NEEDED
  | MONEY_RECEIVED, MONEY_RECEIVED | EXPIRED, EXPIRED => true
  | _, _ => false
  end.
End ClaimStatus.

Inductive CardType := VISA | MASTERCARD | AMEX | DISCOVER | OTHER.
Inductive ClaimMethod := ONLINE_PORTAL | PHONE | EMAIL | MAIL.
Inductive SourceType := SRC_EMAIL | SRC_MANUAL.
Inductive NotificationType :=
| PRICE_DROP | SYSTEM | CLAIM_FILED_NOTICE | CLAIM_STATUS_UPDATE.

Record User := {
  u_id : id;
  u_email : string;
  u_name : option string;
  u_priceDropThreshold : Js.num;
  u_autoFileClaimsEnabled : bool;
  u_gmailAccessToken : option string
}.

Record CreditCard := {
  cc_id : id;
  cc_userId : id;
  cc_lastFour : string;
  cc_network : option string;
  cc_issuer : string;
  cc_nickname : string;
  cc_cardType : CardType;
  cc_protectionDays : Z;
  cc_maxClaimAmount : Q;
  cc_claimMethod : ClaimMethod;
  cc_claimEmail : option string;
  cc_autoClaimEnabled : bool
}.

(** The [data] object handed to [prisma.creditCard.create]: a column the
    caller leaves out is [None] and takes the schema's default. *)
Record CreditCardData := {
  cd_userId : id;
  cd_lastFour : string;
  cd_network : option string;
  cd_issuer : string;
  cd_nickname : string;
  cd_cardType : CardType;
  cd_protectionDays : option Z;
  cd_maxClaimAmount : option Q;
  cd_claimMethod : ClaimMethod;
  cd_claimEmail : option string;
  cd_autoClaimEnabled : option bool
}.

(** Column defaults of the (absent) schema, taken as a parameter. *)
Record SchemaDefaults := {
  default_protectionDays : Z;
  default_maxClaimAmount : Q;
  default_autoClaimEnabled : bool
}.

Record Purchase := {
  p_id : id;
  p_userId : id;
  p_productName : string;
  p_retailer : string;
  p_purchasePrice : Q;
  p_currentPrice : Js.num;
  p_lowestPrice : Js.num;
  p_lowestPriceDate : option instant;
  p_purchaseDate : instant;
  p_retailerOrderId : option string;
  p_productUrl : option string;
  p_category : option string;
  p_sourceType : SourceType;
  p_sourceEmailId : option string;
  p_status : PurchaseStatus.t;
  p_creditCardId : option id;
  p_protectionEnds : option instant
}.

(** One entry of a claim's [statusHistory] array; the entry's [status] is
    free text in the source (it also takes the value ['ERROR']). *)
Record HistoryEntry := {
  h_status : string;
  h_timestamp : instant;
  h_notes : string
}.

Record Claim := {
  c_id : id;
  c_userId : id;
  c_purchaseId : id;
  c_creditCardId : option id;
  c_originalPrice : Q;
  c_newPrice : Js.num;
  c_priceDifference : Q;
  c_status : ClaimStatus.t;
  c_statusHistory : list HistoryEntry;
  c_autoFiled : bool;
  c_filedAt : option instant;
  c_claimNumber : option string;
  c_responseNotes : option string;
  c_proofDocumentUrl : option string;
  c_priceScreenshotUrl : option string;
  c_claimEmailSentAt : option instant;
  c_claimEmailMessageId : option string;
  c_claimEmailTo : option string;
  c_claimEmailScreenshot : option string
}.

Record PriceHistory := {
  ph_purchaseId : id;
  ph_price : Q;
  ph_source : string;
  ph_checkedAt : instant
}.

Record Notification := {
  n_userId : id;
  n_type : NotificationType;
  n_title : string;
  n_purchaseId : option id;
  n_claimId : option id
}.

Record DB := {
  users : list User;
  creditCards : list CreditCard;
  purchases : list Purchase;
  claims : list Claim;
  priceHistory : list PriceHistory;
  notifications : list Notification;
  nextId : id
}.

Definition emptyDB : DB :=
  {| users := []; creditCards := []; purchases := []; claims := [];
     priceHistory := []; notifications := []; nextId := 0 |}.

(** *** Column setters: the entries of an [update]'s [data] object *)

Module Set_.
Definition currentPrice (v : Js.num) (p : Purchase) : Purchase :=
  {| p_id := p_id p; p_userId := p_userId p;
     p_productName := p_productName p; p_retailer := p_retailer p;
     p_purchasePrice := p_purchasePrice p; p_currentPrice := v;
     p_lowestPrice := p_lowestPrice p;
     p_lowestPriceDate := p_lowestPriceDate p;
     p_purchaseDate := p_purchaseDate p;
     p_retailerOrderId := p_retailerOrderId p;
     p_productUrl := p_productUrl p; p_category := p_category p;
     p_sourceType := p_sourceType p; p_sourceEmailId := p_sourceEmailId p;
     p_status := p_status p; p_creditCardId := p_creditCardId p;
     p_protectionEnds := p_protectionEnds p |}.
Definition lowestPrice (v : Js.num) (p : Purchase) : Purchase :=
  {| p_id := p_id p; p_userId := p_userId p;
     p_productName := p_productName p; p_retailer := p_retailer p;
     p_purchasePrice := p_purchasePrice p;
     p_currentPrice := p_currentPrice p; p_lowestPrice := v;
     p_lowestPriceDate := p_lowestPriceDate p;
     p_purchaseDate := p_purchaseDate p;
     p_retailerOrderId := p_retailerOrderId p;
     p_productUrl := p_productUrl p; p_category := p_category p;
     p_sourceType := p_sourceType p; p_sourceEmailId := p_sourceEmailId p;
     p_status := p_status p; p_creditCardId := p_creditCardId p;
     p_protectionEnds := p_protectionEnds p |}.
Definition lowestPriceDate (v : option instant) (p : Purchase) : Purchase :=
  {| p_id := p_id p; p_userId := p_userId p;
     p_productName := p_productName p; p_retailer := p_retailer p;
     p_purchasePrice := p_purchasePrice p;
     p_currentPrice := p_currentPrice p; p_lowestPrice := p_lowestPrice p;
     p_lowestPriceDate := v; p_purchaseDate := p_purchaseDate p;
     p_retailerOrderId := p_retailerOrderId p;
     p_productUrl := p_productUrl p; p_category := p_category p;
     p_sourceType := p_sourceType p; p_sourceEmailId := p_sourceEmailId p;
     p_status := p_status p; p_creditCardId := p_creditCardId p;
     p_protectionEnds := p_protectionEnds p |}.
Definition purchaseStatus (v : PurchaseStatus.t) (p : Purchase) : Purchase :=
  {| p_id := p_id p; p_userId := p_userId p;
     p_productName := p_productName p; p_retailer := p_retailer p;
     p_purchasePrice := p_purchasePrice p;
     p_currentPrice := p_currentPrice p; p_lowestPrice := p_lowestPrice p;
     p_lowestPriceDate := p_lowestPriceDate p;
     p_purchaseDate := p_purchaseDate p;
     p_retailerOrderId := p_retailerOrderId p;
     p_productUrl := p_productUrl p; p_category := p_category p;
     p_sourceType := p_sourceType p; p_sourceEmailId := p_sourceEmailId p;
     p_status := v; p_creditCardId := p_creditCardId p;
     p_protectionEnds := p_protectionEnds p |}.
Definition purchaseCreditCardId (v : option id) (p : Purchase) : Purchase :=
  {| p_id := p_id p; p_userId := p_userId p;
     p_productName := p_productName p; p_retailer := p_retailer p;
     p_purchasePrice := p_purchasePrice p;
     p_currentPrice := p_currentPrice p; p_lowestPrice := p_lowestPrice p;
     p_lowestPriceDate := p_lowestPriceDate p;
     p_purchaseDate := p_purchaseDate p;
     p_retailerOrderId := p_retailerOrderId p;
     p_productUrl := p_productUrl p; p_category := p_category p;
     p_sourceType := p_sourceType p; p_sourceEmailId := p_sourceEmailId p;
     p_status := p_status p; p_creditCardId := v;
     p_protectionEnds := p_protectionEnds p |}.
Definition protectionEnds (v : option instant) (p : Purchase) : Purchase :=
  {| p_id := p_id p; p_userId := p_userId p;
     p_productName := p_productName p; p_retailer := p_retailer p;
     p_purchasePrice := p_purchasePrice p;
     p_currentPrice := p_currentPrice p; p_lowestPrice := p_lowestPrice p;
     p_lowestPriceDate := p_lowestPriceDate p;
     p_purchaseDate := p_purchaseDate p;
     p_retailerOrderId := p_retailerOrderId p;
     p_productUrl := p_productUrl p; p_category := p_category p;
     p_sourceType := p_sourceType p; p_sourceEmailId := p_sourceEmailId p;
     p_status := p_status p; p_creditCardId := p_creditCardId p;
     p_protectionEnds := v |}.
Definition status (v : ClaimStatus.t) (c : Claim) : Claim :=
  {| c_id := c_id c; c_userId := c_userId c; c_purchaseId := c_purchaseId c;
     c_creditCardId := c_creditCardId c;
     c_originalPrice := c_originalPrice c; c_newPrice := c_newPrice c;
     c_priceDifference := c_priceDifference c; c_status := v;
     c_statusHistory := c_statusHistory c; c_autoFiled := c_autoFiled c;
     c_filedAt := c_filedAt c; c_claimNumber := c_claimNumber c;
     c_responseNotes := c_responseNotes c;
     c_proofDocumentUrl := c_proofDocumentUrl c;
     c_priceScreenshotUrl := c_priceScreenshotUrl c;
     c_claimEmailSentAt := c_claimEmailSentAt c;
     c_claimEmailMessageId := c_claimEmailMessageId c;
     c_claimEmailTo := c_claimEmailTo c;
     c_claimEmailScreenshot := c_claimEmailScreenshot c |}.
Definition statusHistory (v : list HistoryEntry) (c : Claim) : Claim :=
  {| c_id := c_id c; c_userId := c_userId c; c_purchaseId := c_purchaseId c;
     c_creditCardId := c_creditCardId c;
     c_originalPrice := c_originalPrice c; c_newPrice := c_newPrice c;
     c_priceDifference := c_priceDifference c; c_status := c_status c;
     c_statusHistory := v; c_autoFiled := c_autoFiled c;
     c_filedAt := c_filedAt c; c_claimNumber := c_claimNumber c;
     c_responseNotes := c_responseNotes c;
     c_proofDocumentUrl := c_proofDocumentUrl c;
     c_priceScreenshotUrl := c_priceScreenshotUrl c;
     c_claimEmailSentAt := c_claimEmailSentAt c;
     c_claimEmailMessageId := c_claimEmailMessageId c;
     c_claimEmailTo := c_claimEmailTo c;
     c_claimEmailScreenshot := c_claimEmailScreenshot c |}.
Definition autoFiled (v : bool) (c : Claim) : Claim :=
  {| c_id := c_id c; c_userId := c_userId c; c_purchaseId := c_purchaseId c;
     c_creditCardId := c_creditCardId c;
     c_originalPrice := c_originalPrice c; c_newPrice := c_newPrice c;
     c_priceDifference := c_priceDifference c; c_status := c_status c;
     c_statusHistory := c_statusHistory c; c_autoFiled := v;
     c_filedAt := c_filedAt c; c_claimNumber := c_claimNumber c;
     c_responseNotes := c_responseNotes c;
     c_proofDocumentUrl := c_proofDocumentUrl c;
     c_priceScreenshotUrl := c_priceScreenshotUrl c;
     c_claimEmailSentAt := c_claimEmailSentAt c;
     c_claimEmailMessageId := c_claimEmailMessageId c;
     c_claimEmailTo := c_claimEmailTo c;
     c_claimEmailScreenshot := c_claimEmailScreenshot c |}.
Definition filedAt (v : option instant) (c : Claim) : Claim :=
  {| c_id := c_id c; c_userId := c_userId c; c_purchaseId := c_purchaseId c;
     c_creditCardId := c_creditCardId c;
     c_originalPrice := c_originalPrice c; c_newPrice := c_newPrice c;
     c_priceDifference := c_priceDifference c; c_status := c_status c;
     c_statusHistory := c_statusHistory c; c_autoFiled := c_autoFiled c;
     c_filedAt := v; c_claimNumber := c_claimNumber c;
     c_responseNotes := c_responseNotes c;
     c_proofDocumentUrl := c_proofDocumentUrl c;
     c_priceScreenshotUrl := c_priceScreenshotUrl c;
     c_claimEmailSentAt := c_claimEmailSentAt c;
     c_claimEmailMessageId := c_claimEmailMessageId c;
     c_claimEmailTo := c_claimEmailTo c;
     c_claimEmailScreenshot := c_claimEmailScreenshot c |}.
Definition claimNumber (v : option string) (c : Claim) : Claim :=
  {| c_id := c_id c; c_userId := c_userId c; c_purchaseId := c_purchaseId c;
     c_creditCardId := c_creditCardId c;
     c_originalPrice := c_originalPrice c; c_newPrice := c_newPrice c;
     c_priceDifference := c_priceDifference c; c_status := c_status c;
     c_statusHistory := c_statusHistory c; c_autoFiled := c_autoFiled c;
     c_filedAt := c_filedAt c; c_claimNumber := v;
     c_responseNotes := c_responseNotes c;
     c_proofDocumentUrl := c_proofDocumentUrl c;
     c_priceScreenshotUrl := c_priceScreenshotUrl c;
     c_claimEmailSentAt := c_claimEmailSentAt c;
     c_claimEmailMessageId := c_claimEmailMessageId c;
     c_claimEmailTo := c_claimEmailTo c;
     c_claimEmailScreenshot := c_claimEmailScreenshot c |}.
Definition responseNotes (v : option string) (c : Claim) : Claim :=
  {| c_id := c_id c; c_userId := c_userId c; c_purchaseId := c_purchaseId c;
     c_creditCardId := c_creditCardId c;
     c_originalPrice := c_originalPrice c; c_newPrice := c_newPrice c;
     c_priceDifference := c_priceDifference c; c_status := c_status c;
     c_statusHistory := c_statusHistory c; c_autoFiled := c_autoFiled c;
     c_filedAt := c_filedAt c; c_claimNumber := c_claimNumber c;
     c_responseNotes := v; c_proofDocumentUrl := c_proofDocumentUrl c;
     c_priceScreenshotUrl := c_priceScreenshotUrl c;
     c_claimEmailSentAt := c_claimEmailSentAt c;
     c_claimEmailMessageId := c_claimEmailMessageId c;
     c_claimEmailTo := c_claimEmailTo c;
     c_claimEmailScreenshot := c_claimEmailScreenshot c |}.
Definition proofDocumentUrl (v : option string) (c : Claim) : Claim :=
  {| c_id := c_id c; c_userId := c_userId c; c_purchaseId := c_purchaseId c;
     c_creditCardId := c_creditCardId c;
     c_originalPrice := c_originalPrice c; c_newPrice := c_newPrice c;
     c_priceDifference := c_priceDifference c; c_status := c_status c;
     c_statusHistory := c_statusHistory c; c_autoFiled := c_autoFiled c;
     c_filedAt := c_filedAt c; c_claimNumber := c_claimNumber c;
     c_responseNotes := c_responseNotes c; c_proofDocumentUrl := v;
     c_priceScreenshotUrl := c_priceScreenshotUrl c;
     c_claimEmailSentAt := c_claimEmailSentAt c;
     c_claimEmailMessageId := c_claimEmailMessageId c;
     c_claimEmailTo := c_claimEmailTo c;
     c_claimEmailScreenshot := c_claimEmailScreenshot c |}.
Definition priceScreenshotUrl (v : option string) (c : Claim) : Claim :=
  {| c_id := c_id c; c_userId := c_userId c; c_purchaseId := c_purchaseId c;
     c_creditCardId := c_creditCardId c;
     c_originalPrice := c_originalPrice c; c_newPrice := c_newPrice c;
     c_priceDifference := c_priceDifference c; c_status := c_status c;
     c_statusHistory := c_statusHistory c; c_autoFiled := c_autoFiled c;
     c_filedAt := c_filedAt c; c_claimNumber := c_claimNumber c;
     c_responseNotes := c_responseNotes c;
     c_proofDocumentUrl := c_proofDocumentUrl c; c_priceScreenshotUrl := v;
     c_claimEmailSentAt := c_claimEmailSentAt c;
     c_claimEmailMessageId := c_claimEmailMessageId c;
     c_claimEmailTo := c_claimEmailTo c;
     c_claimEmailScreenshot := c_claimEmailScreenshot c |}.
Definition claimEmailSentAt (v : option instant) (c : Claim) : Claim :=
  {| c_id := c_id c; c_userId := c_userId c; c_purchaseId := c_purchaseId c;
     c_creditCardId := c_creditCardId c;
     c_originalPrice := c_originalPrice c; c_newPrice := c_newPrice c;
     c_priceDifference := c_priceDifference c; c_status := c_status c;
     c_statusHistory := c_statusHistory c; c_autoFiled := c_autoFiled c;
     c_filedAt := c_filedAt c; c_claimNumber := c_claimNumber c;
     c_responseNotes := c_responseNotes c;
     c_proofDocumentUrl := c_proofDocumentUrl c;
     c_priceScreenshotUrl := c_priceScreenshotUrl c;
     c_claimEmailSentAt := v;
     c_claimEmailMessageId := c_claimEmailMessageId c;
     c_claimEmailTo := c_claimEmailTo c;
     c_claimEmailScreenshot := c_claimEmailScreenshot c |}.
Definition claimEmailMessageId (v : option string) (c : Claim) : Claim :=
  {| c_id := c_id c; c_userId := c_userId c; c_purchaseId := c_purchaseId c;
     c_creditCardId := c_creditCardId c;
     c_originalPrice := c_originalPrice c; c_newPrice := c_newPrice c;
     c_priceDifference := c_priceDifference c; c_status := c_status c;
     c_statusHistory := c_statusHistory c; c_autoFiled := c_autoFiled c;
     c_filedAt := c_filedAt c; c_claimNumber := c_claimNumber c;
     c_responseNotes := c_responseNotes c;
     c_proofDocumentUrl := c_proofDocumentUrl c;
     c_priceScreenshotUrl := c_priceScreenshotUrl c;
     c_claimEmailSentAt := c_claimEmailSentAt c; c_claimEmailMessageId := v;
     c_claimEmailTo := c_claimEmailTo c;
     c_claimEmailScreenshot := c_claimEmailScreenshot c |}.
Definition claimEmailTo (v : option string) (c : Claim) : Claim :=
  {| c_id := c_id c; c_userId := c_userId c; c_purchaseId := c_purchaseId c;
     c_creditCardId := c_creditCardId c;
     c_originalPrice := c_originalPrice c; c_newPrice := c_newPrice c;
     c_priceDifference := c_priceDifference c; c_status := c_status c;
     c_statusHistory := c_statusHistory c; c_autoFiled := c_autoFiled c;
     c_filedAt := c_filedAt c; c_claimNumber := c_claimNumber c;
     c_responseNotes := c_responseNotes c;
     c_proofDocumentUrl := c_proofDocumentUrl c;
     c_priceScreenshotUrl := c_priceScreenshotUrl c;
     c_claimEmailSentAt := c_claimEmailSentAt c;
     c_claimEmailMessageId := c_claimEmailMessageId c; c_claimEmailTo := v;
     c_claimEmailScreenshot := c_claimEmailScreenshot c |}.
Definition claimEmailScreenshot (v : option string) (c : Claim) : Claim :=
  {| c_id := c_id c; c_userId := c_userId c; c_purchaseId := c_purchaseId c;
     c_creditCardId := c_creditCardId c;
     c_originalPrice := c_originalPrice c; c_newPrice := c_newPrice c;
     c_priceDifference := c_priceDifference c; c_status := c_status c;
     c_statusHistory := c_statusHistory c; c_autoFiled := c_autoFiled c;
     c_filedAt := c_filedAt c; c_claimNumber := c_claimNumber c;
     c_responseNotes := c_responseNotes c;
     c_proofDocumentUrl := c_proofDocumentUrl c;
     c_priceScreenshotUrl := c_priceScreenshotUrl c;
     c_claimEmailSentAt := c_claimEmailSentAt c;
     c_claimEmailMessageId := c_claimEmailMessageId c;
     c_claimEmailTo := c_claimEmailTo c; c_claimEmailScreenshot := v |}.
End Set_.

(** *** Table replacement *)

Definition withUsers (v : list User) (db : DB) : DB :=
  {| users := v; creditCards := creditCards db; purchases := purchases db;
     claims := claims db; priceHistory := priceHistory db;
     notifications := notifications db; nextId := nextId db |}.
Definition withCreditCards (v : list CreditCard) (db : DB) : DB :=
  {| users := users db; creditCards := v; purchases := purchases db;
     claims := claims db; priceHistory := priceHistory db;
     notifications := notifications db; nextId := nextId db |}.
Definition withPurchases (v : list Purchase) (db : DB) : DB :=
  {| users := users db; creditCards := creditCards db; purchases := v;
     claims := claims db; priceHistory := priceHistory db;
     notifications := notifications db; nextId := nextId db |}.
Definition withClaims (v : list Claim) (db : DB) : DB :=
  {| users := users db; creditCards := creditCards db;
     purchases := purchases db; claims := v;
     priceHistory := priceHistory db; notifications := notifications db;
     nextId := nextId db |}.
Definition withPriceHistory (v : list PriceHistory) (db : DB) : DB :=
  {| users := users db; creditCards := creditCards db;
     purchases := purchases db; claims := claims db; priceHistory := v;
     notifications := notifications db; nextId := nextId db |}.
Definition withNotifications (v : list Notification) (db : DB) : DB :=
  {| users := users db; creditCards := creditCards db;
     purchases := purchases db; claims := claims db;
     priceHistory := priceHistory db; notifications := v;
     nextId := nextId db |}.
Definition withNextId (v : id) (db : DB) : DB :=
  {| users := users db; creditCards := creditCards db;
     purchases := purchases db; claims := claims db;
     priceHistory := priceHistory db; notifications := notifications db;
     nextId := v |}.

(** *** Queries *)

(** [findUnique({ where: { id } })] on each table. *)
Definition findUser (db : DB) (uid : id) : option User :=
  find (fun u => u_id u =? uid)%nat (users db).
Definition findCard (db : DB) (cid : id) : option CreditCard :=
  find (fun c => cc_id c =? cid)%nat (creditCards db).
Definition findPurchase (db : DB) (pid : id) : option Purchase :=
  find (fun p => p_id p =? pid)%nat (purchases db).
Definition findClaim (db : DB) (cid : id) : option Claim :=
  find (fun c => c_id c =? cid)%nat (claims db).

(** The relation [include: { creditCard: true }] of a purchase or claim. *)
Definition cardOf (db : DB) (ref : option id) : option CreditCard :=
  match ref with
  | Some cid => findCard db cid
  | None => None
  end.

(** [purchase.findFirst({ where: { id, userId } })] *)
Definition findPurchaseOfUser (db : DB) (pid uid : id) : option Purchase :=
  find (fun p => (p_id p =? pid)%nat && (p_userId p =? uid)%nat) (purchases db).

Definition optStringEqb (a : option string) (b : string) : bool :=
  match a with
  | Some x => String.eqb x b
  | None => false
  end.

(** [purchase.findFirst({ where: { userId, sourceEmailId } })] *)
Definition findPurchaseBySourceEmail (db : DB) (uid : id) (emailId : string)
  : option Purchase :=
  find (fun p => (p_userId p =? uid)%nat && optStringEqb (p_sourceEmailId p) emailId)
       (purchases db).

(** The filter [status: { notIn: ['DENIED', 'EXPIRED'] }]. *)
Definition activeStatus (s : ClaimStatus.t) : bool :=
  negb (ClaimStatus.eqb s ClaimStatus.DENIED || ClaimStatus.eqb s ClaimStatus.EXPIRED).

(** [claim.findFirst({ where: { purchaseId, status: { notIn: [...] } } })] *)
Definition findActiveClaim (db : DB) (pid : id) : option Claim :=
  find (fun c => (c_purchaseId c =? pid)%nat && activeStatus (c_status c)) (claims db).

(** The claims of a purchase whose status is outside {DENIED, EXPIRED}. *)
Definition activeClaims (db : DB) (pid : id) : list Claim :=
  filter (fun c => (c_purchaseId c =? pid)%nat && activeStatus (c_status c)) (claims db).

(** [creditCard.findMany({ where: { userId } })] *)
Definition cardsOfUser (db : DB) (uid : id) : list CreditCard :=
  filter (fun c => cc_userId c =? uid)%nat (creditCards db).

(** The price observations recorded for a purchase, oldest first. *)
Definition observations (db : DB) (pid : id) : list PriceHistory :=
  filter (fun h => ph_purchaseId h =? pid)%nat (priceHistory db).

(** *** Writes.  [create] draws the new row's id from the counter; [update]
    rewrites the row with the given id (every call site has just read that
    row, so the row exists). *)

Definition createPurchase (db : DB) (mk : id -> Purchase) : DB * Purchase :=
  let p := mk (nextId db) in
  (withNextId (S (nextId db)) (withPurchases (purchases db ++ [p]) db), p).

Definition createClaim (db : DB) (mk : id -> Claim) : DB * Claim :=
  let c := mk (nextId db) in
  (withNextId (S (nextId db)) (withClaims (claims db ++ [c]) db), c).

Definition orDefault {A} (x : option A) (d : A) : A :=
  match x with
  | Some a => a
  | None => d
  end.

Definition createCreditCard (defaults : SchemaDefaults) (db : DB) (d : CreditCardData)
  : DB * CreditCard :=
  let c := {| cc_id := nextId db; cc_userId := cd_userId d;
              cc_lastFour := cd_lastFour d; cc_network := cd_network d;
              cc_issuer := cd_issuer d; cc_nickname := cd_nickname d;
              cc_cardType := cd_cardType d;
              cc_protectionDays :=
                orDefault (cd_protectionDays d) (default_protectionDays defaults);
              cc_maxClaimAmount :=
                orDefault (cd_maxClaimAmount d) (default_maxClaimAmount defaults);
              cc_claimMethod := cd_claimMethod d;
              cc_claimEmail := cd_claimEmail d;
              cc_autoClaimEnabled :=
                orDefault (cd_autoClaimEnabled d) (default_autoClaimEnabled defaults) |} in
  (withNextId (S (nextId db)) (withCreditCards (creditCards db ++ [c]) db), c).

Definition createPriceHistory (db : DB) (h : PriceHistory) : DB :=
  withPriceHistory (priceHistory db ++ [h]) db.

Definition createNotification (db : DB) (n : Notification) : DB :=
  withNotifications (notifications db ++ [n]) db.

Definition updatePurchase (db : DB) (pid : id) (f : Purchase -> Purchase) : DB :=
  withPurchases (map (fun p => if (p_id p =? pid)%nat then f p else p) (purchases db)) db.

Definition updateClaim (db : DB) (cid : id) (f : Claim -> Claim) : DB :=
  withClaims (map (fun c => if (c_id c =? cid)%nat then f c else c) (claims db)) db.

End Store.

(* ------------------------------------------------------------------------- *)
(** ** services/priceMonitor.js *)

Module PriceMonitor.
Import Store.
Local Open Scope string_scope.
Local Open Scope Q_scope.

(** [PRICE_APIS.amazon(asin)]: [latest] is the last entry of the Keepa price
    series, in cents ([None] when there is no API key, no product, or the
    request failed). *)
Definition keepaPrice (latest : Js.num) : Js.num :=
  match latest with
  | Some l => if Js.gtb l 0 then Some (l / 100) else None
  | None => None
  end.

(** [parsePrice(text)].  The argument is what [parseFloat] made of the first
    run of digits and dots of the cleaned text: [None] when the text is
    empty, has no such run, or the run is not a number. *)
Definition parsePrice (parsed : Js.num) : Js.num :=
  match parsed with
  | Some price => if Js.gtb price 0 then Some price else None
  | None => None
  end.

(** What looking a selector up in the rendered page gave. *)
Inductive Lookup :=
| NoElement                 (* the selector matched nothing *)
| LookupThrows              (* the lookup raised; the loop continues *)
| ElementText (parsed : Js.num).

(** The selector loop of [scrapePrice]: [price] is the loop's variable. *)
Fixpoint trySelectors (ls : list Lookup) (price : Js.num) : Js.num :=
  match ls with
  | [] => price
  | NoElement :: rest => trySelectors rest price
  | LookupThrows :: rest => trySelectors rest price
  | ElementText t :: rest =>
      let price' := parsePrice t in
      if Js.truthy price' then price' else trySelectors rest price'
  end.

(** The selector loop of [scrapeWithGenericSelectors]. *)
Fixpoint tryGenericSelectors (ls : list Lookup) (price : Js.num) : Js.num :=
  match ls with
  | [] => price
  | NoElement :: rest => tryGenericSelectors rest price
  | LookupThrows :: rest => None      (* no try inside this loop: the outer catch *)
  | ElementText t :: rest =>
      let price' := parsePrice t in
      if Js.truthy price' && Js.gtb (Js.toNumber price') 0
         && Js.ltb (Js.toNumber price') 50000
      then price' else tryGenericSelectors rest price'
  end.

(** What the outside world answers to one [scrapePrice(url)]. *)
Record ScrapeEnv := {
  se_domain : option string;    (* getDomainFromUrl(url) *)
  se_amazonAsin : bool;         (* amazon.com URL with a /dp/ or /gp/product/ ASIN *)
  se_keepaLatest : Js.num;      (* see [keepaPrice] *)
  se_hasSelectors : bool;       (* PRICE_SELECTORS has the domain *)
  se_pageFails : bool;          (* launching the browser or loading the page raised *)
  se_lookups : list Lookup      (* one per selector tried, in order *)
}.

Definition scrapePrice (env : ScrapeEnv) : Js.num :=
  let apiPrice := if se_amazonAsin env then keepaPrice (se_keepaLatest env) else None in
  if Js.truthy apiPrice then apiPrice
  else if se_pageFails env then None
  else if se_hasSelectors env then trySelectors (se_lookups env) None
  else tryGenericSelectors (se_lookups env) None.

(** The value [checkPriceForPurchase] resolves to ([priceDropPercent], used
    only for display, is left out). *)
Inductive CheckResult :=
| CheckFailed (error : string)
| Checked (previousPrice currentPrice : Js.num) (priceDrop : Q) (isEligible : bool).

(** [purchase.protectionEnds && purchase.protectionEnds > new Date()] *)
Definition isWithinProtection (p : Purchase) (now : instant) : bool :=
  match p_protectionEnds p with
  | Some ends => (now <? ends)%Z
  | None => false
  end.

(** [purchase.user?.priceDropThreshold || 5] *)
Definition threshold (user : option User) : Q :=
  Js.toNumber
    (Js.or (match user with Some u => u_priceDropThreshold u | None => None end)
           (Some 5)).

(** [!purchase.lowestPrice || currentPrice < purchase.lowestPrice] *)
Definition isNewLowest (p : Purchase) (currentPrice : Q) : bool :=
  negb (Js.truthy (p_lowestPrice p))
  || Js.ltb currentPrice (Js.toNumber (p_lowestPrice p)).

(** [checkPriceForPurchase(purchaseId)], run at instant [now] against the
    outside world [env]. *)
Definition checkPriceForPurchase (db : DB) (now : instant) (env : ScrapeEnv)
           (purchaseId : id) : DB * CheckResult :=
  match findPurchase db purchaseId with
  | None => (db, CheckFailed "No product URL")
  | Some purchase =>
    match Js.truthyString (p_productUrl purchase) with
    | None => (db, CheckFailed "No product URL")
    | Some _ =>
      match scrapePrice env with
      | None => (db, CheckFailed "Could not fetch price")
      | Some currentPrice =>
        (* Record price history *)
        let db1 := createPriceHistory db
                     {| ph_purchaseId := purchaseId; ph_price := currentPrice;
                        ph_source := orDefault (se_domain env) "web";
                        ph_checkedAt := now |} in
        (* Calculate price drop: a subtraction of numbers *)
        let priceDrop := Js.sub (p_purchasePrice purchase) currentPrice in
        (* Update purchase with new price info *)
        let upd1 := Set_.currentPrice (Some currentPrice) in
        (* Check if this is the new lowest price *)
        let upd2 := fun p =>
          if isNewLowest purchase currentPrice
          then Set_.lowestPriceDate (Some now) (Set_.lowestPrice (Some currentPrice) (upd1 p))
          else upd1 p in
        (* Determine if claim-eligible: the threshold is compared as a number *)
        let within := isWithinProtection purchase now in
        let meetsThreshold :=
          Js.geb priceDrop (Js.double (threshold (findUser db (p_userId purchase)))) in
        let notify := Js.gtb priceDrop 0 && meetsThreshold in
        let upd3 := fun p =>
          if notify
          then Set_.purchaseStatus
                 (if within then PurchaseStatus.CLAIM_ELIGIBLE
                  else PurchaseStatus.PRICE_DROP_DETECTED) (upd2 p)
          else upd2 p in
        let db2 :=
          if notify
          then createNotification db1
                 {| n_userId := p_userId purchase; n_type := PRICE_DROP;
                    n_title := "Price Drop Detected!";
                    n_purchaseId := Some purchaseId; n_claimId := None |}
          else db1 in
        let db3 := updatePurchase db2 purchaseId upd3 in
        (db3, Checked (p_currentPrice purchase) (Some currentPrice) priceDrop
                      (within && meetsThreshold))
      end
    end
  end.

(** What a check gets to work with: the purchase row and the price fetched
    for it, or nothing when the purchase is missing, has no product URL, or
    no price could be fetched. *)
Definition fetched (db : DB) (env : ScrapeEnv) (purchaseId : id)
  : option (Purchase * Q) :=
  match findPurchase db purchaseId with
  | Some purchase =>
      match Js.truthyString (p_productUrl purchase), scrapePrice env with
      | Some _, Some c => Some (purchase, c)
      | _, _ => None
      end
  | None => None
  end.

(** The row a successful check writes back. *)
Definition rowAfterCheck (db : DB) (now : instant) (purchase : Purchase) (c : Q)
  : Purchase :=
  let drop := Js.sub (p_purchasePrice purchase) c in
  let notify := Js.gtb drop 0
                && Js.geb drop (Js.double (threshold (findUser db (p_userId purchase)))) in
  let p1 := Set_.currentPrice (Some c) purchase in
  let p2 := if isNewLowest purchase c
            then Set_.lowestPriceDate (Some now) (Set_.lowestPrice (Some c) p1)
            else p1 in
  if notify
  then Set_.purchaseStatus
         (if isWithinProtection purchase now then PurchaseStatus.CLAIM_ELIGIBLE
          else PurchaseStatus.PRICE_DROP_DETECTED) p2
  else p2.

(** A series of price checks, each of some purchase, at its own instant and
    against its own state of the outside world. *)
Fixpoint checkMany (db : DB) (runs : list (id * instant * ScrapeEnv)) : DB :=
  match runs with
  | [] => db
  | (purchaseId, now, env) :: rest =>
      checkMany (fst (checkPriceForPurchase db now env purchaseId)) rest
  end.

End PriceMonitor.

(* ------------------------------------------------------------------------- *)
(** ** services/emailParser.js (both revisions) and services/aiParser.js *)

Module EmailParser.
Import Store.
Local Open Scope string_scope.
Local Open Scope Q_scope.

(** *** The delegated (AI) strategy *)

(** [item.price] as [JSON.parse] hands it on: nothing checks that it is a
    number.  Of a value that is not a number the source reads two things:
    how it compares with 0 ([asNumber]: the number it converts to, [None]
    for [NaN], as for a missing price or a text that is no number; [null]
    converts to 0), and what the store makes of it in a price column
    ([asColumn]: [None] when [create] refuses the value; the schema is not
    at hand, so whether a numeric text is taken is left open). *)
Inductive JsonPrice :=
| PriceNumber (price : Q)
| PriceOther (asNumber : Js.num) (asColumn : option Q).

(** One entry of [aiResult.items]. *)
Record AiItem := {
  ai_productName : string;          (* the empty string is falsy *)
  ai_price : JsonPrice;
  ai_productUrl : option string
}.

(** The object [parseEmailWithAI] resolves to. *)
Record AiResult := {
  ai_isPurchase : bool;
  ai_items : list AiItem;
  ai_retailer : option string;
  ai_orderId : option string;
  ai_purchaseDate : option instant;
  ai_category : option string
}.

(** [generatePriceCheckUrl(productName, retailer)], without the percent
    encoding of the query. *)
Definition generatePriceCheckUrl (productName : string) (retailer : option string)
  : string :=
  "https://www.google.com/search?q=" ++ productName ++ " price "
    ++ Js.orString retailer "" ++ "&tbm=shop".

(** [item.price <= 0]: a comparison with [NaN] is false. *)
Definition priceLeqZero (price : JsonPrice) : bool :=
  match price with
  | PriceNumber q => Js.leb q 0
  | PriceOther (Some n) _ => Js.leb n 0
  | PriceOther None _ => false
  end.

(** What a price column keeps of [item.price]. *)
Definition priceColumn (price : JsonPrice) : option Q :=
  match price with
  | PriceNumber q => Some q
  | PriceOther _ asColumn => asColumn
  end.

(** [item.price.toFixed] is a function: the price is a number. *)
Definition hasToFixed (price : JsonPrice) : bool :=
  match price with
  | PriceNumber _ => true
  | PriceOther _ _ => false
  end.

(** What ends a run of the loop early. *)
Inductive AiError :=
| PriceRefused           (* [prisma.purchase.create] raised on the price *)
| PriceHasNoToFixed.     (* TypeError at [item.price.toFixed(2)] *)

(** The body of the [for (const item of aiResult.items || [])] loop: the
    store and [purchases] after the turn, or the store as the turn left it
    and the error it raised. *)
Definition processAiItem (now : instant) (userId : id) (emailId : string)
           (emailDate : instant) (aiResult : AiResult)
           (acc : DB * list Purchase) (item : AiItem)
  : DB * result AiError (list Purchase) :=
  let (db, created) := acc in
  (* Skip items without valid data *)
  if negb (Js.nonEmpty (ai_productName item)) || priceLeqZero (ai_price item)
  then (db, Ok created)
  else
    match priceColumn (ai_price item) with
    | None => (db, Err PriceRefused)
    | Some price =>
      let purchaseDate := orDefault (ai_purchaseDate aiResult) emailDate in
      let productUrl :=
        Js.orString (ai_productUrl item)
                    (generatePriceCheckUrl (ai_productName item) (ai_retailer aiResult)) in
      let (db1, purchase) :=
        createPurchase db (fun i =>
          {| p_id := i; p_userId := userId;
             p_productName := ai_productName item;
             p_retailer := Js.orString (ai_retailer aiResult) "Unknown";
             p_purchasePrice := price;
             p_currentPrice := Some price;
             p_lowestPrice := Some price;
             p_lowestPriceDate := Some purchaseDate;
             p_purchaseDate := purchaseDate;
             p_retailerOrderId := ai_orderId aiResult;
             p_productUrl := Some productUrl;
             p_category := Some (Js.orString (ai_category aiResult) "other");
             p_sourceType := SRC_EMAIL;
             p_sourceEmailId := Some emailId;
             p_status := PurchaseStatus.MONITORING;
             p_creditCardId := None;
             p_protectionEnds := None |}) in
      (* Create initial price history *)
      let db2 := createPriceHistory db1
                   {| ph_purchaseId := p_id purchase; ph_price := price;
                      ph_source := Js.orString (ai_retailer aiResult) "unknown";
                      ph_checkedAt := now |} in
      (* Create notification: its message calls [item.price.toFixed(2)] *)
      if hasToFixed (ai_price item)
      then
        let db3 := createNotification db2
                     {| n_userId := userId; n_type := SYSTEM;
                        n_title := "New Purchase Detected";
                        n_purchaseId := Some (p_id purchase); n_claimId := None |} in
        (db3, Ok (created ++ [purchase])%list)
      else (db2, Err PriceHasNoToFixed)
    end.

(** The loop over the items: an error raised at one item ends it. *)
Fixpoint processAiItems (now : instant) (userId : id) (emailId : string)
         (emailDate : instant) (aiResult : AiResult)
         (items : list AiItem) (acc : DB * list Purchase)
  : DB * result AiError (list Purchase) :=
  match items with
  | [] => (fst acc, Ok (snd acc))
  | item :: rest =>
      match processAiItem now userId emailId emailDate aiResult acc item with
      | (db, Ok created) =>
          processAiItems now userId emailId emailDate aiResult rest (db, created)
      | (db, Err e) => (db, Err e)
      end
  end.

(** [extractPurchaseWithAI(emailData, userId, emailId)] run at instant [now];
    [emailDate] is [emailData.date] and [aiResult] is what
    [parseEmailWithAI(emailData)] answers when it is asked.  An [Err] is a
    rejected promise: nothing in the function catches the error. *)
Definition extractPurchaseWithAI (db : DB) (now emailDate : instant)
           (aiResult : AiResult) (userId : id) (emailId : string)
  : DB * result AiError (option (list Purchase)) :=
  (* Check if already processed *)
  match findPurchaseBySourceEmail db userId emailId with
  | Some _ => (db, Ok None)
  | None =>
    if negb (ai_isPurchase aiResult) then (db, Ok None)
    else
      match processAiItems now userId emailId emailDate aiResult
                           (ai_items aiResult) (db, []) with
      | (db', Ok created) =>
          (db', Ok (match created with [] => None | _ => Some created end))
      | (db', Err e) => (db', Err e)
      end
  end.

(** *** Card matching *)

(** [DEFAULT_PROTECTION_DAYS], without its [default] entry. *)
Definition DEFAULT_PROTECTION_DAYS : list (string * Z) :=
  [("amex", 90); ("citi", 60); ("chase", 90); ("discover", 90);
   ("capitalone", 60); ("visa", 90); ("mastercard", 60)]%Z.

(** [DEFAULT_PROTECTION_DAYS.default] *)
Definition DEFAULT_PROTECTION_DAYS_default : Z := 90.

Fixpoint lookup {A} (k : string) (table : list (string * A)) : option A :=
  match table with
  | [] => None
  | (k', v) :: rest => if String.eqb k k' then Some v else lookup k rest
  end.

(** [getProtectionDays(network)]; [network] is [null] when nothing was
    detected. *)
Definition getProtectionDays (network : option string) : Z :=
  match network with
  | Some n => orDefault (lookup n DEFAULT_PROTECTION_DAYS) DEFAULT_PROTECTION_DAYS_default
  | None => DEFAULT_PROTECTION_DAYS_default
  end.

Definition toUpperChar (c : ascii) : ascii :=
  let n := nat_of_ascii c in
  if (97 <=? n)%nat && (n <=? 122)%nat then ascii_of_nat (n - 32) else c.

(** [s.charAt(0).toUpperCase() + s.slice(1)] *)
Definition capitalize (s : string) : string :=
  match s with
  | EmptyString => EmptyString
  | String c rest => String (toUpperChar c) rest
  end.

Definition isNetworkName (n : string) : bool :=
  existsb (String.eqb n) ["visa"; "mastercard"; "amex"; "discover"].

Definition networkToCardType (n : string) : option CardType :=
  lookup n [("visa", VISA); ("mastercard", MASTERCARD); ("amex", AMEX);
            ("discover", DISCOVER)].

(** The [data] of the auto-created card: the part of [matchCardToUser] after
    the lookup among the user's cards.  [detectedNetwork] is the answer of
    [detectCardNetwork(body)]: a key of [CARD_NETWORK_PATTERNS], or [None]
    when no pattern matches the text. *)
Definition autoCreatedCardData (userId : id) (cardLast4 : string)
           (detected : option string) : CreditCardData :=
  let detectedNetwork := Js.truthyString detected in
  let protectionDays := getProtectionDays detected in
  let network :=
    match detectedNetwork with
    | Some d => if isNetworkName d then d else "unknown"
    | None => "unknown"
    end in
  let issuer :=
    match detectedNetwork with
    | Some d =>
        if isNetworkName d
        then (if String.eqb d "amex" then "American Express" else capitalize d)
        else if String.eqb d "wellsfargo" then "Wells Fargo"
        else if String.eqb d "capitalone" then "Capital One"
        else capitalize d
    | None => "Unknown"
    end in
  let cardType :=
    match detectedNetwork with
    | Some d => orDefault (networkToCardType d) OTHER
    | None => OTHER
    end in
  {| cd_userId := userId; cd_lastFour := cardLast4;
     cd_network := Some network; cd_issuer := issuer;
     cd_nickname := "Auto-detected Card (" ++ cardLast4 ++ ")";
     cd_cardType := cardType;
     cd_protectionDays := Some protectionDays;
     cd_maxClaimAmount := None;
     cd_claimMethod := EMAIL;
     cd_claimEmail := None;
     cd_autoClaimEnabled := Some true |}.

(** [matchCardToUser(userId, cardLast4, body)]; the store's [create] does
    not fail in this model, so the source's [catch] (which answers [null])
    is never entered. *)
Definition matchCardToUser (defaults : SchemaDefaults) (db : DB) (userId : id)
           (cardLast4 : option string) (detectedNetwork : option string)
  : DB * option CreditCard :=
  match Js.truthyString cardLast4 with
  | None => (db, None)
  | Some last4 =>
    match find (fun card => String.eqb (cc_lastFour card) last4) (cardsOfUser db userId) with
    | Some matchingCard => (db, Some matchingCard)
    | None =>
      let (db1, newCard) :=
        createCreditCard defaults db (autoCreatedCardData userId last4 detectedNetwork) in
      let db2 := createNotification db1
                   {| n_userId := userId; n_type := SYSTEM;
                      n_title := "New Card Auto-Detected";
                      n_purchaseId := None; n_claimId := None |} in
      (db2, Some newCard)
    end
  end.

(** *** The deterministic strategy *)

(** What the pattern rules read off one message: the retailer whose sender
    and subject patterns both match, and the results of the regular
    expressions run over the body. *)
Record EmailFacts := {
  ef_retailer : option string;       (* key of RETAILER_PATTERNS, if any *)
  ef_date : instant;                 (* parsedEmail.date || new Date() *)
  ef_prices : list Q;                (* parseFloat of each priceRegex match *)
  ef_orderId : option string;
  ef_productName : option string;    (* extractProductName *)
  ef_cardLast4 : option string;      (* extractCardLast4 *)
  ef_detectedNetwork : option string;(* detectCardNetwork *)
  ef_productUrl : option string      (* extractProductUrl *)
}.

(** [prices.sort((a, b) => b - a)] *)
Fixpoint insertDesc (x : Q) (l : list Q) : list Q :=
  match l with
  | [] => [x]
  | y :: rest => if Js.ltb x y then y :: insertDesc x rest else x :: l
  end.
Definition sortDesc (l : list Q) : list Q := fold_right insertDesc [] l.

(** [.filter(p => p > 0 && p < 10000).sort((a, b) => b - a)] *)
Definition candidatePrices (matches : list Q) : list Q :=
  sortDesc (filter (fun p => Js.gtb p 0 && Js.ltb p 10000) matches).

Definition msPerDay : Z := 86400000.

(** [extractPurchaseFromEmail(parsedEmail, userId, emailId)] *)
Definition extractPurchaseFromEmail (defaults : SchemaDefaults) (db : DB) (now : instant)
           (facts : EmailFacts) (userId : id) (emailId : string)
  : DB * option Purchase :=
  (* Identify retailer *)
  match Js.truthyString (ef_retailer facts) with
  | None => (db, None)
  | Some retailer =>
    (* Check if already processed *)
    match findPurchaseBySourceEmail db userId emailId with
    | Some _ => (db, None)
    | None =>
      match candidatePrices (ef_prices facts) with
      | [] => (db, None)
      | price0 :: _ =>
        let productName := ef_productName facts in
        let cardLast4 := ef_cardLast4 facts in
        let (db1, matchedCard) :=
          matchCardToUser defaults db userId cardLast4 (ef_detectedNetwork facts) in
        let protectionEnds :=
          match matchedCard with
          | Some card =>
              if (cc_protectionDays card =? 0)%Z then None
              else Some (ef_date facts + cc_protectionDays card * msPerDay)%Z
          | None => None
          end in
        let (db2, purchase) :=
          createPurchase db1 (fun i =>
            {| p_id := i; p_userId := userId;
               p_productName := Js.orString productName (capitalize retailer ++ " Purchase");
               p_retailer := capitalize retailer;
               p_purchasePrice := price0;
               p_currentPrice := Some price0;
               p_lowestPrice := Some price0;
               p_lowestPriceDate := Some (ef_date facts);
               p_purchaseDate := ef_date facts;
               p_retailerOrderId := ef_orderId facts;
               p_productUrl := ef_productUrl facts;
               p_category := None;
               p_sourceType := SRC_EMAIL;
               p_sourceEmailId := Some emailId;
               p_status := PurchaseStatus.MONITORING;
               p_creditCardId := option_map cc_id matchedCard;
               p_protectionEnds := protectionEnds |}) in
        let db3 := createPriceHistory db2
                     {| ph_purchaseId := p_id purchase; ph_price := price0;
                        ph_source := retailer; ph_checkedAt := now |} in
        let db4 := createNotification db3
                     {| n_userId := userId; n_type := SYSTEM;
                        n_title := "New Purchase Detected";
                        n_purchaseId := Some (p_id purchase); n_claimId := None |} in
        (db4, Some purchase)
      end
    end
  end.

End EmailParser.

(* ------------------------------------------------------------------------- *)
(** ** routes/claims.js: POST / (create claim from eligible purchase) *)

Module ClaimsRoute.
Import Store.
Local Open Scope string_scope.
Local Open Scope Q_scope.

(** [new AppError(message, statusCode)] *)
Definition AppError := (string * nat)%type.

Definition eligibleForClaim (s : PurchaseStatus.t) : bool :=
  PurchaseStatus.eqb s PurchaseStatus.PRICE_DROP_DETECTED
  || PurchaseStatus.eqb s PurchaseStatus.CLAIM_ELIGIBLE.

(** [purchase.protectionEnds && purchase.protectionEnds < new Date()] *)
Definition protectionExpired (p : Purchase) (now : instant) : bool :=
  match p_protectionEnds p with
  | Some ends => (ends <? now)%Z
  | None => false
  end.

(** The handler, for the authenticated user [reqUser] and a body that passed
    validation, at instant [now]. *)
Definition post (db : DB) (now : instant) (reqUser : id) (purchaseId : id)
  : DB * result AppError Claim :=
  (* Verify purchase ownership and eligibility *)
  match findPurchaseOfUser db purchaseId reqUser with
  | None => (db, Err ("Purchase not found", 404%nat))
  | Some purchase =>
    match p_creditCardId purchase with
    | None => (db, Err ("Purchase must be linked to a credit card", 400%nat))
    | Some creditCardId =>
      if negb (eligibleForClaim (p_status purchase))
      then (db, Err ("Purchase is not eligible for a claim", 400%nat))
      else if protectionExpired purchase now
      then (db, Err ("Price protection period has expired", 400%nat))
      else
        (* Calculate price difference *)
        let priceDifference :=
          p_purchasePrice purchase - Js.toNumber (p_lowestPrice purchase) in
        if Js.leb priceDifference 0
        then (db, Err ("No price drop detected", 400%nat))
        else
          match findCard db creditCardId with
          | None => (db, Err ("TypeError: purchase.creditCard is null", 500%nat))
          | Some creditCard =>
            (* Check if claim already exists for this purchase *)
            match findActiveClaim db purchaseId with
            | Some _ => (db, Err ("A claim already exists for this purchase", 409%nat))
            | None =>
              (* Create the claim *)
              let (db1, claim) :=
                createClaim db (fun i =>
                  {| c_id := i; c_userId := reqUser; c_purchaseId := purchaseId;
                     c_creditCardId := Some creditCardId;
                     c_originalPrice := p_purchasePrice purchase;
                     c_newPrice := p_lowestPrice purchase;
                     c_priceDifference :=
                       Js.min priceDifference (cc_maxClaimAmount creditCard);
                     c_status := ClaimStatus.DRAFT;
                     c_statusHistory := [];
                     c_autoFiled := false; c_filedAt := None;
                     c_claimNumber := None; c_responseNotes := None;
                     c_proofDocumentUrl := None; c_priceScreenshotUrl := None;
                     c_claimEmailSentAt := None; c_claimEmailMessageId := None;
                     c_claimEmailTo := None; c_claimEmailScreenshot := None |}) in
              (* Update purchase status *)
              let db2 := updatePurchase db1 purchaseId
                           (Set_.purchaseStatus PurchaseStatus.CLAIM_ELIGIBLE) in
              (db2, Ok claim)
            end
          end
    end
  end.

End ClaimsRoute.

(* ------------------------------------------------------------------------- *)
(** ** Filing channels and what the outside world answers *)

Module Filing.
Import Store.

(** A submission channel a filer can try. *)
Inductive Channel :=
| Portal      (* the issuer's web portal, driven through the browser *)
| Smtp        (* claimService.sendClaimEmail: the SMTP transporter *)
| Gmail       (* the user's own Gmail identity, through the Gmail API *)
| SendGrid.   (* the SendGrid relay *)

Definition channelEqb (a b : Channel) : bool :=
  match a, b with
  | Portal, Portal | Smtp, Smtp | Gmail, Gmail | SendGrid, SendGrid => true
  | _, _ => false
  end.

(** The object a filer resolves to. *)
Record Outcome := {
  success : bool;
  method : string;
  error : option string
}.

(** A filer's run: the store it leaves, the channels it tried, in order,
    and its value (an [Err] is a rejected promise). *)
Record Run := {
  store : DB;
  attempts : list Channel;
  value : result string Outcome
}.

(** What document generation, screenshots and the mail transports answer
    during one run. *)
Record MailEnv := {
  generateClaimDocumentation : result string string;  (* the PDF, or the error *)
  capturePriceScreenshot : option string;             (* [null] on failure *)
  sendViaSmtp : result string string;                 (* message id, or the error *)
  sendViaGmail : result string string;
  sendViaSendGrid : result string string;
  captureEmailProof : option string;
  issuerClaimEmail : string -> option string          (* getClaimEmailForIssuer *)
}.

Definition isMailChannel (c : Channel) : bool := negb (channelEqb c Portal).

End Filing.

(* ------------------------------------------------------------------------- *)
(** ** services/autoClaimService.js *)

Module AutoClaimService.
Import Store Filing.
Local Open Scope string_scope.
Local Open Scope Q_scope.

(** [claim.creditCard.claimEmail || getClaimEmailForIssuer(issuer)] *)
Definition resolveClaimEmail (env : MailEnv) (card : CreditCard) : option string :=
  match Js.truthyString (cc_claimEmail card) with
  | Some e => Some e
  | None => Js.truthyString (issuerClaimEmail env (cc_issuer card))
  end.

(** The [try] block of [fileClaimViaEmail], up to and including the send:
    the error it raises, or the artifacts and the message id. *)
Definition prepareAndSend (env : MailEnv) (purchase : option Purchase)
  : list Channel * result string (string * option string * string) :=
  match generateClaimDocumentation env with
  | Err e => ([], Err e)
  | Ok docUrl =>
    let screenshotPath :=
      match purchase with
      | Some p => match Js.truthyString (p_productUrl p) with
                  | Some _ => capturePriceScreenshot env
                  | None => None
                  end
      | None => None
      end in
    match sendViaSendGrid env with
    | Err e => ([SendGrid], Err e)
    | Ok messageId => ([SendGrid], Ok (docUrl, screenshotPath, messageId))
    end
  end.

(** [fileClaimViaEmail(claimId)] at instant [now]. *)
Definition fileClaimViaEmail (db : DB) (now : instant) (env : MailEnv) (claimId : id)
  : Run :=
  match findClaim db claimId with
  | None => {| store := db; attempts := []; value := Err "Claim not found" |}
  | Some claim =>
    match cardOf db (c_creditCardId claim) with
    | None => {| store := db; attempts := [];
                 value := Err "No credit card linked to this claim" |}
    | Some creditCard =>
      match resolveClaimEmail env creditCard with
      | None => {| store := db; attempts := [];
                   value := Err "No claim email configured for issuer" |}
      | Some claimEmail =>
        match prepareAndSend env (findPurchase db (c_purchaseId claim)) with
        | (tried, Ok (docUrl, screenshotPath, messageId)) =>
          let statusHistory :=
            (c_statusHistory claim ++
              [{| h_status := "EMAIL_SENT"; h_timestamp := now;
                  h_notes := "Claim email sent to " ++ claimEmail |}])%list in
          let db1 := updateClaim db claimId (fun c =>
            Set_.statusHistory statusHistory
              (Set_.priceScreenshotUrl screenshotPath
              (Set_.proofDocumentUrl (Some docUrl)
              (Set_.claimEmailScreenshot (captureEmailProof env)
              (Set_.claimEmailTo (Some claimEmail)
              (Set_.claimEmailMessageId (Some messageId)
              (Set_.claimEmailSentAt (Some now)
              (Set_.autoFiled true
              (Set_.filedAt (Some now)
              (Set_.status ClaimStatus.EMAIL_SENT c)))))))))) in
          let db2 := updatePurchase db1 (c_purchaseId claim)
                       (Set_.purchaseStatus PurchaseStatus.CLAIM_FILED) in
          let db3 := createNotification db2
                       {| n_userId := c_userId claim; n_type := CLAIM_STATUS_UPDATE;
                          n_title := "Claim Filed Automatically";
                          n_purchaseId := Some (c_purchaseId claim);
                          n_claimId := Some (c_id claim) |} in
          {| store := db3; attempts := tried;
             value := Ok {| success := true; method := "email"; error := None |} |}
        | (tried, Err message) =>
          (* catch (error) *)
          let statusHistory :=
            (c_statusHistory claim ++
              [{| h_status := "ERROR"; h_timestamp := now;
                  h_notes := "Auto-file failed: " ++ message |}])%list in
          let db1 := updateClaim db claimId (fun c =>
            Set_.responseNotes (Some ("Auto-file error: " ++ message))
              (Set_.statusHistory statusHistory c)) in
          {| store := db1; attempts := tried; value := Err message |}
        end
      end
    end
  end.

(** [createAndFileClaim(purchaseId, creditCardId)] at instant [now]. *)
Definition createAndFileClaim (db : DB) (now : instant) (env : MailEnv)
           (purchaseId creditCardId : id) : Run :=
  match findPurchase db purchaseId with
  | None => {| store := db; attempts := []; value := Err "Purchase not found" |}
  | Some purchase =>
    match findCard db creditCardId with
    | None => {| store := db; attempts := []; value := Err "Credit card not found" |}
    | Some creditCard =>
      let newPrice := Js.or (p_lowestPrice purchase) (p_currentPrice purchase) in
      let priceDifference := p_purchasePrice purchase - Js.toNumber newPrice in
      if Js.leb priceDifference 0
      then {| store := db; attempts := []; value := Err "No price drop to claim" |}
      else
        let (db1, claim) :=
          createClaim db (fun i =>
            {| c_id := i; c_userId := p_userId purchase;
               c_purchaseId := p_id purchase;
               c_creditCardId := Some (cc_id creditCard);
               c_originalPrice := p_purchasePrice purchase;
               c_newPrice := newPrice;
               c_priceDifference :=
                 Js.min priceDifference (cc_maxClaimAmount creditCard);
               c_status := ClaimStatus.DRAFT;
               c_statusHistory :=
                 [{| h_status := "DRAFT"; h_timestamp := now;
                     h_notes := "Claim created automatically" |}];
               c_autoFiled := false; c_filedAt := None;
               c_claimNumber := None; c_responseNotes := None;
               c_proofDocumentUrl := None; c_priceScreenshotUrl := None;
               c_claimEmailSentAt := None; c_claimEmailMessageId := None;
               c_claimEmailTo := None; c_claimEmailScreenshot := None |}) in
        fileClaimViaEmail db1 now env (c_id claim)
  end
  end.

End AutoClaimService.

(* ------------------------------------------------------------------------- *)
(** ** services/claimService.js: autoFileClaim *)

Module ClaimService.
Import Store Filing.
Local Open Scope string_scope.

(** [autoFileClaim(claimId)] at instant [now].  [issuerHasEmail] tells
    whether [getIssuerInfo(issuer).email] is set; [sendClaimEmail] raises
    before reaching the transporter when it is not. *)
Definition autoFileClaim (db : DB) (now : instant) (env : MailEnv)
           (issuerHasEmail : bool) (claimId : id) : Run :=
  match findClaim db claimId with
  | None => {| store := db; attempts := []; value := Err "Claim not found" |}
  | Some claim =>
    match cardOf db (c_creditCardId claim) with
    | None => {| store := db; attempts := [];
                 value := Err "TypeError: claim.creditCard is null" |}
    | Some _ =>
      (* Step 1: Generate claim documentation PDF *)
      match generateClaimDocumentation env with
      | Err e => {| store := db; attempts := []; value := Err e |}
      | Ok doc =>
        (* Step 3: Submit claim via email *)
        let submission :=
          if issuerHasEmail then sendViaSmtp env
          else Err "No email address configured for issuer" in
        match submission with
        | Err message =>
          (* If email fails, still mark as ready to file manually *)
          let db1 := updateClaim db claimId (fun c =>
            Set_.responseNotes
              (Some ("Auto-submission failed: " ++ message ++ ". Please file manually."))
              (Set_.status ClaimStatus.READY_TO_FILE
              (Set_.proofDocumentUrl (Some ("/documents/" ++ doc)) c))) in
          {| store := db1; attempts := [Smtp];
             value := Ok {| success := false; method := ""; error := Some message |} |}
        | Ok messageId =>
          (* Step 4: Update claim status *)
          let db1 := updateClaim db claimId (fun c =>
            Set_.responseNotes (Some ("Auto-filed via email. Message ID: " ++ messageId))
              (Set_.filedAt (Some now)
              (Set_.status ClaimStatus.FILED
              (Set_.proofDocumentUrl (Some ("/documents/" ++ doc)) c)))) in
          (* Step 5: Update purchase status *)
          let db2 := updatePurchase db1 (c_purchaseId claim)
                       (Set_.purchaseStatus PurchaseStatus.CLAIM_FILED) in
          (* Step 6: Create notification *)
          let db3 := createNotification db2
                       {| n_userId := c_userId claim; n_type := CLAIM_FILED_NOTICE;
                          n_title := "Claim Filed Automatically!";
                          n_purchaseId := None; n_claimId := Some claimId |} in
          {| store := db3; attempts := [Smtp];
             value := Ok {| success := true; method := ""; error := None |} |}
        end
      end
    end
  end.

End ClaimService.

(* ------------------------------------------------------------------------- *)
(** ** services/autoClaimFiler.js, portal revision:
       portal automation with the e-mail fallback *)

Module PortalFiler.
Import Store Filing.
Local Open Scope string_scope.

(** The [action] of a portal step. *)
Inductive Action := Navigate | Click | Select | Fill | Upload | Submit.

(** [CLAIM_PORTALS[issuer].steps], by action. *)
Definition CLAIM_PORTALS (issuer : string) : option (list Action) :=
  if String.eqb issuer "Chase" then
    Some [Navigate; Click; Select; Fill; Fill; Fill; Fill; Fill; Fill; Upload; Submit]
  else if String.eqb issuer "Citi" then
    Some [Navigate; Fill; Fill; Fill; Fill; Fill; Fill; Upload; Submit]
  else if String.eqb issuer "Discover" then
    Some [Navigate; Click; Fill; Fill; Fill; Fill; Fill; Upload; Submit]
  else None.

(** What the browser did at one step: whether a call of the step raised
    outside the helpers that swallow errors, and whether the element the
    step looks for was found and used. *)
Record StepOutcome := {
  raised : bool;
  located : bool
}.

(** One turn of the step loop: the new value of [stepSuccess].  [tryClick]
    and [tryFillField] swallow their errors, and so do the [select] and
    [upload] cases; only [navigate] and [submit] make calls that can reach
    the loop's [catch], and only a [submit] whose button is not found
    clears the flag by itself. *)
Definition runStep (stepSuccess : bool) (action : Action) (o : StepOutcome) : bool :=
  match action with
  | Navigate => if raised o then false else stepSuccess
  | Click | Select | Fill | Upload => stepSuccess
  | Submit => if raised o then false
              else if located o then stepSuccess else false
  end.

Fixpoint runSteps (stepSuccess : bool) (steps : list Action)
         (outcomes : nat -> StepOutcome) (k : nat) : bool :=
  match steps with
  | [] => stepSuccess
  | a :: rest => runSteps (runStep stepSuccess a (outcomes k)) rest outcomes (S k)
  end.

(** What the browser answers during one portal run. *)
Record PortalEnv := {
  launches : bool;                       (* puppeteer.launch and page setup succeed *)
  documentation : result string string;  (* generateClaimDocumentation, portal run *)
  outcomes : nat -> StepOutcome;         (* per step, by position *)
  confirmationNumber : option string     (* read off the final page, if any *)
}.

(** [fileClaimViaEmail(claim)]: the fallback through [claimService]. *)
Definition fileClaimViaEmail (db : DB) (now : instant) (env : MailEnv)
           (issuerHasEmail : bool) (claim : Claim) : Run :=
  let r := ClaimService.autoFileClaim db now env issuerHasEmail (c_id claim) in
  match value r with
  | Ok result =>
      {| store := store r; attempts := attempts r;
         value := Ok {| success := success result; method := "email";
                        error := error result |} |}
  | Err message =>
      (* Mark as ready to file manually *)
      let db1 := updateClaim (store r) (c_id claim) (fun c =>
        Set_.responseNotes
          (Some ("Auto-filing failed (both portal and email). Error: " ++ message
                 ++ ". Please file manually."))
          (Set_.status ClaimStatus.READY_TO_FILE c)) in
      {| store := db1; attempts := attempts r;
         value := Ok {| success := false; method := "manual"; error := Some message |} |}
  end.

Definition prepend (c : Channel) (r : Run) : Run :=
  {| store := store r; attempts := c :: attempts r; value := value r |}.

(** [autoFileClaim(claimId)] at instant [now]. *)
Definition autoFileClaim (db : DB) (now : instant) (penv : PortalEnv) (env : MailEnv)
           (issuerHasEmail : bool) (claimId : id) : Run :=
  match findClaim db claimId with
  | None => {| store := db; attempts := []; value := Err "Claim not found" |}
  | Some claim =>
    match cardOf db (c_creditCardId claim) with
    | None => {| store := db; attempts := [];
                 value := Err "No credit card linked to this claim" |}
    | Some creditCard =>
      let issuer := cc_issuer creditCard in
      match CLAIM_PORTALS issuer with
      | None =>
        (* If no portal config, fall back to email-based filing *)
        fileClaimViaEmail db now env issuerHasEmail claim
      | Some steps =>
        (* Try portal-based filing *)
        if negb (launches penv)
        then prepend Portal (fileClaimViaEmail db now env issuerHasEmail claim)
        else
          match documentation penv with
          | Err _ => prepend Portal (fileClaimViaEmail db now env issuerHasEmail claim)
          | Ok doc =>
            if runSteps true steps (outcomes penv) 0
            then
              (* Update claim as filed *)
              let db1 := updateClaim db claimId (fun c =>
                Set_.statusHistory
                  [{| h_status := "FILED"; h_timestamp := now;
                      h_notes := "Auto-filed via " ++ issuer ++ " portal" |}]
                  (Set_.proofDocumentUrl (Some ("/documents/" ++ doc))
                  (Set_.claimNumber (confirmationNumber penv)
                  (Set_.autoFiled true
                  (Set_.filedAt (Some now)
                  (Set_.status ClaimStatus.FILED c)))))) in
              let db2 := updatePurchase db1 (c_purchaseId claim)
                           (Set_.purchaseStatus PurchaseStatus.CLAIM_FILED) in
              let db3 := createNotification db2
                           {| n_userId := c_userId claim; n_type := CLAIM_FILED_NOTICE;
                              n_title := "Claim Filed Automatically!";
                              n_purchaseId := None; n_claimId := Some (c_id claim) |} in
              {| store := db3; attempts := [Portal];
                 value := Ok {| success := true; method := "portal"; error := None |} |}
            else
              (* Portal filing failed, fall back to email *)
              prepend Portal (fileClaimViaEmail db now env issuerHasEmail claim)
          end
      end
    end
  end.

(** The portal automation of a claim "reports success": the issuer has a
    portal workflow, the browser starts, the documents are generated, and the
    step loop ends with [stepSuccess] still set. *)
Definition portalReportsSuccess (db : DB) (penv : PortalEnv) (claimId : id) : bool :=
  match findClaim db claimId with
  | Some claim =>
      match cardOf db (c_creditCardId claim) with
      | Some creditCard =>
          match CLAIM_PORTALS (cc_issuer creditCard), documentation penv with
          | Some steps, Ok _ => launches penv && runSteps true steps (outcomes penv) 0
          | _, _ => false
          end
      | None => false
      end
  | None => false
  end.

(** The portal automation of a claim was tried and did not succeed. *)
Definition portalFails (db : DB) (penv : PortalEnv) (claimId : id) : bool :=
  match findClaim db claimId with
  | Some claim =>
      match cardOf db (c_creditCardId claim) with
      | Some creditCard =>
          match CLAIM_PORTALS (cc_issuer creditCard) with
          | Some _ => negb (portalReportsSuccess db penv claimId)
          | None => false
          end
      | None => false
      end
  | None => false
  end.

End PortalFiler.

(* ------------------------------------------------------------------------- *)
(** ** services/autoClaimFiler.js, e-mail revision:
       Gmail API first, SendGrid as the fallback *)

Module MailFiler.
Import Store Filing.
Local Open Scope string_scope.

(** Step 3 of [autoFileClaim]: the Gmail API first, SendGrid when that
    raises.  The channels tried, and the message id and method, or the
    error of the last channel. *)
Definition sendClaimEmail (env : MailEnv)
  : list Channel * result string (string * string) :=
  match sendViaGmail env with
  | Ok messageId => ([Gmail], Ok (messageId, "gmail"))
  | Err _ =>
    (* Fallback to SendGrid *)
    match sendViaSendGrid env with
    | Ok messageId => ([Gmail; SendGrid], Ok (messageId, "sendgrid"))
    | Err e => ([Gmail; SendGrid], Err e)
    end
  end.

(** The [try] block up to the send: the artifacts made so far, the channels
    tried, and the message id and method or the error raised. *)
Definition prepareAndSend (env : MailEnv) (purchase : option Purchase)
  : option string * option string * list Channel * result string (string * string) :=
  match generateClaimDocumentation env with
  | Err e => (None, None, [], Err e)
  | Ok pdf =>
    let screenshot :=
      match purchase with
      | Some p => match Js.truthyString (p_productUrl p) with
                  | Some _ => capturePriceScreenshot env
                  | None => None
                  end
      | None => None
      end in
    let (tried, sent) := sendClaimEmail env in
    (Some pdf, screenshot, tried, sent)
  end.

Definition orElse {A} (x y : option A) : option A :=
  match x with
  | Some _ => x
  | None => y
  end.

(** [autoFileClaim(claimId)] at instant [now]; [toEmail] is
    [getClaimEmail(issuer, card)], which always answers an address. *)
Definition autoFileClaim (db : DB) (now : instant) (env : MailEnv) (toEmail : string)
           (claimId : id) : Run :=
  match findClaim db claimId with
  | None => {| store := db; attempts := []; value := Err "Claim not found" |}
  | Some claim =>
    match cardOf db (c_creditCardId claim) with
    | None => {| store := db; attempts := [];
                 value := Err "No credit card linked to this claim" |}
    | Some card =>
      match prepareAndSend env (findPurchase db (c_purchaseId claim)) with
      | (pdfFilePath, screenshotFilePath, tried, Ok (messageId, sendMethod)) =>
        (* Step 5: Update claim record with all proof data *)
        let statusHistory :=
          (c_statusHistory claim ++
            [{| h_status := "EMAIL_SENT"; h_timestamp := now;
                h_notes := "Claim email sent to " ++ toEmail ++ " via " ++ sendMethod
                           ++ " (" ++ messageId ++ ")" |}])%list in
        let db1 := updateClaim db claimId (fun c =>
          Set_.statusHistory statusHistory
            (Set_.priceScreenshotUrl screenshotFilePath
            (Set_.proofDocumentUrl pdfFilePath
            (Set_.claimEmailScreenshot (captureEmailProof env)
            (Set_.claimEmailTo (Some toEmail)
            (Set_.claimEmailMessageId (Some messageId)
            (Set_.claimEmailSentAt (Some now)
            (Set_.autoFiled true
            (Set_.filedAt (Some now)
            (Set_.status ClaimStatus.EMAIL_SENT c)))))))))) in
        (* Step 6: Update purchase status *)
        let db2 := updatePurchase db1 (c_purchaseId claim)
                     (Set_.purchaseStatus PurchaseStatus.CLAIM_FILED) in
        (* Step 7: Notify user *)
        let db3 := createNotification db2
                     {| n_userId := c_userId claim; n_type := CLAIM_FILED_NOTICE;
                        n_title := "Claim Filed Automatically!";
                        n_purchaseId := None; n_claimId := Some claimId |} in
        {| store := db3; attempts := tried;
           value := Ok {| success := true; method := "email"; error := None |} |}
      | (pdfFilePath, screenshotFilePath, tried, Err message) =>
        (* Mark as ready-to-file manually so user can still proceed *)
        let statusHistory :=
          (c_statusHistory claim ++
            [{| h_status := "ERROR"; h_timestamp := now;
                h_notes := "Auto-file failed: " ++ message |}])%list in
        let db1 := updateClaim db claimId (fun c =>
          Set_.priceScreenshotUrl (orElse screenshotFilePath (c_priceScreenshotUrl claim))
            (Set_.proofDocumentUrl (orElse pdfFilePath (c_proofDocumentUrl claim))
            (Set_.responseNotes
               (Some ("Auto-filing failed: " ++ message ++ ". Please file manually."))
            (Set_.statusHistory statusHistory
            (Set_.status ClaimStatus.READY_TO_FILE c))))) in
        {| store := db1; attempts := tried;
           value := Ok {| success := false; method := "manual"; error := Some message |} |}
      end
    end
  end.

End MailFiler.

(* ------------------------------------------------------------------------- *)
(** ** Vocabulary of the specification *)

Module Spec.
Import Store.
Local Open Scope Q_scope.


(** The prices of the observations recorded for a purchase, oldest first. *)
Definition observedPrices (db : DB) (pid : id) : list Q :=
  map ph_price (observations db pid).

(** "The user's priceDropThreshold (default 5)". *)
Definition userThreshold (db : DB) (p : Purchase) : Q :=
  match findUser db (p_userId p) with
  | Some u => match u_priceDropThreshold u with
              | Some t => t
              | None => 5
              end
  | None => 5
  end.

(** "The protection window is still active" at instant [now]. *)
Definition windowActive (p : Purchase) (now : instant) : bool :=
  match p_protectionEnds p with
  | Some ends => (now <? ends)%Z
  | None => false
  end.

(** Every stored threshold is one the settings route accepts (it takes
    values from 1 to 100): at least 1. *)
Definition thresholdsAccepted (db : DB) : Prop :=
  forall u t, In u (users db) -> u_priceDropThreshold u = Some t -> 1 <= t.

(** Identifiers in use lie below the counter. *)
Definition idsBelowCounter (db : DB) : Prop :=
  Forall (fun p => (p_id p < nextId db)%nat) (purchases db)
  /\ Forall (fun h => (ph_purchaseId h < nextId db)%nat) (priceHistory db).



(** A rewriting of claim rows that leaves the identifying columns and the
    amounts of every row as they are. *)
Definition keepsAmounts (g : Claim -> Claim) : Prop :=
  forall c, c_id (g c) = c_id c
            /\ c_purchaseId (g c) = c_purchaseId c
            /\ c_originalPrice (g c) = c_originalPrice c
            /\ c_newPrice (g c) = c_newPrice c
            /\ c_priceDifference (g c) = c_priceDifference c.


(** No e-mail channel occurs among the channels tried. *)
Definition noMailAttempt (tried : list Filing.Channel) : Prop :=
  forall c, In c tried -> Filing.isMailChannel c = false.

(** The status stored for a claim. *)
Definition statusOf (db : DB) (cid : id) : option ClaimStatus.t :=
  option_map c_status (findClaim db cid).

(** The notifications of type PRICE_DROP about a purchase. *)
Definition priceDropNotices (db : DB) (pid : id) : list Notification :=
  filter (fun n => match n_type n, n_purchaseId n with
                   | PRICE_DROP, Some q => (q =? pid)%nat
                   | _, _ => false
                   end) (notifications db).

End Spec.

(* ------------------------------------------------------------------------- *)
(** ** Sample data, used to exercise the statements below *)

Module Samples.
Import Store.
Local Open Scope string_scope.

Definition alice : User :=
  {| u_id := 1; u_email := "alice@example.com"; u_name := Some "Alice";
     u_priceDropThreshold := Some 5%Q; u_autoFileClaimsEnabled := true;
     u_gmailAccessToken := None |}.

Definition card (cap : Q) : CreditCard :=
  {| cc_id := 2; cc_userId := 1; cc_lastFour := "4242";
     cc_network := Some "visa"; cc_issuer := "Acme Bank";
     cc_nickname := "Everyday card"; cc_cardType := VISA;
     cc_protectionDays := 90; cc_maxClaimAmount := cap;
     cc_claimMethod := EMAIL; cc_claimEmail := Some "claims@acmebank.example";
     cc_autoClaimEnabled := true |}.

(** A purchase at 100.00 whose lowest recorded price is [lowest], with a
    protection window that ends at instant [ends]. *)
Definition purchase (lowest : Q) (status : PurchaseStatus.t) (ends : option instant)
  : Purchase :=
  {| p_id := 3; p_userId := 1; p_productName := "Headphones";
     p_retailer := "Shop"; p_purchasePrice := 100;
     p_currentPrice := Some lowest; p_lowestPrice := Some lowest;
     p_lowestPriceDate := Some 0%Z; p_purchaseDate := 0%Z;
     p_retailerOrderId := None;
     p_productUrl := Some "https://shop.example/headphones";
     p_category := None; p_sourceType := SRC_MANUAL; p_sourceEmailId := None;
     p_status := status; p_creditCardId := Some 2;
     p_protectionEnds := ends |}.

Definition draftClaim : Claim :=
  {| c_id := 4; c_userId := 1; c_purchaseId := 3; c_creditCardId := Some 2;
     c_originalPrice := 100; c_newPrice := Some 80%Q; c_priceDifference := 20;
     c_status := ClaimStatus.DRAFT; c_statusHistory := [];
     c_autoFiled := false; c_filedAt := None; c_claimNumber := None;
     c_responseNotes := None; c_proofDocumentUrl := None;
     c_priceScreenshotUrl := None; c_claimEmailSentAt := None;
     c_claimEmailMessageId := None; c_claimEmailTo := None;
     c_claimEmailScreenshot := None |}.

(** A store with one user, one card with cap [cap], one purchase, and the
    given claims. *)
Definition db (cap : Q) (p : Purchase) (cs : list Claim) : DB :=
  {| users := [alice]; creditCards := [card cap]; purchases := [p];
     claims := cs;
     priceHistory := [{| ph_purchaseId := 3; ph_price := 100; ph_source := "Shop";
                         ph_checkedAt := 0%Z |}];
     notifications := []; nextId := 10 |}.

(** A monitored purchase at 100.00, window open until instant 1000. *)
Definition monitored : DB :=
  db 500%Q (purchase 100%Q PurchaseStatus.MONITORING (Some 1000%Z)) [].

(** The same purchase bought at [price] instead, with no lower price seen
    yet. *)
Definition purchaseAt (price : Q) : Purchase :=
  {| p_id := 3; p_userId := 1; p_productName := "Headphones";
     p_retailer := "Shop"; p_purchasePrice := price;
     p_currentPrice := Some price; p_lowestPrice := Some price;
     p_lowestPriceDate := Some 0%Z; p_purchaseDate := 0%Z;
     p_retailerOrderId := None;
     p_productUrl := Some "https://shop.example/headphones";
     p_category := None; p_sourceType := SRC_MANUAL; p_sourceEmailId := None;
     p_status := PurchaseStatus.MONITORING; p_creditCardId := Some 2;
     p_protectionEnds := Some 1000%Z |}.

Definition boughtAt (price : Q) : DB := db 500%Q (purchaseAt price) [].

(** The page shows [price] under the retailer's first selector. *)
Definition pageShowing (price : Q) : PriceMonitor.ScrapeEnv :=
  {| PriceMonitor.se_domain := Some "shop.example";
     PriceMonitor.se_amazonAsin := false;
     PriceMonitor.se_keepaLatest := None;
     PriceMonitor.se_hasSelectors := true;
     PriceMonitor.se_pageFails := false;
     PriceMonitor.se_lookups := [PriceMonitor.ElementText (Some price)] |}.

(** What the AI parser answers for a receipt with one item at [price]. *)
Definition receipt (price : Q) : EmailParser.AiResult :=
  {| EmailParser.ai_isPurchase := true;
     EmailParser.ai_items :=
       [{| EmailParser.ai_productName := "Headphones";
           EmailParser.ai_price := EmailParser.PriceNumber price;
           EmailParser.ai_productUrl := Some "https://shop.example/headphones" |}];
     EmailParser.ai_retailer := Some "Shop";
     EmailParser.ai_orderId := None;
     EmailParser.ai_purchaseDate := None;
     EmailParser.ai_category := None |}.





(** The store after the message "msg-1" of user 1 went through the AI
    strategy on an empty store. *)
Definition extracted : DB * result EmailParser.AiError (option (list Purchase)) :=
  EmailParser.extractPurchaseWithAI emptyDB 5%Z 1%Z (receipt 100%Q) 1 "msg-1".


(** Column defaults as the card routes use them. *)
Definition schema : SchemaDefaults :=
  {| default_protectionDays := 60; default_maxClaimAmount := 500%Q;
     default_autoClaimEnabled := true |}.

(** What the pattern rules read off a retailer's confirmation that shows
    "$59.99" and "ending in 4242", with no network named. *)
Definition confirmation : EmailParser.EmailFacts :=
  {| EmailParser.ef_retailer := Some "amazon";
     EmailParser.ef_date := 1%Z;
     EmailParser.ef_prices := [(5999 # 100)%Q];
     EmailParser.ef_orderId := None;
     EmailParser.ef_productName := None;
     EmailParser.ef_cardLast4 := Some "4242";
     EmailParser.ef_detectedNetwork := None;
     EmailParser.ef_productUrl := None |}.

(** The sample purchase with a lowest price of 80.00, flagged eligible. *)
Definition eligible : Purchase :=
  purchase 80%Q PurchaseStatus.CLAIM_ELIGIBLE (Some 1000%Z).

(** No transport is configured and nothing can be generated. *)
Definition nothingWorks : Filing.MailEnv :=
  {| Filing.generateClaimDocumentation := Err "PDF generation failed";
     Filing.capturePriceScreenshot := None;
     Filing.sendViaSmtp := Err "SMTP transport not configured";
     Filing.sendViaGmail := Err "Gmail not connected for this user";
     Filing.sendViaSendGrid := Err "SendGrid not configured";
     Filing.captureEmailProof := None;
     Filing.issuerClaimEmail := fun _ => None |}.

(** Documents can be generated, but every mail transport fails. *)
Definition mailDown : Filing.MailEnv :=
  {| Filing.generateClaimDocumentation := Ok "claim_4.pdf";
     Filing.capturePriceScreenshot := Some "price_4.png";
     Filing.sendViaSmtp := Err "SMTP transport not configured";
     Filing.sendViaGmail := Err "Gmail not connected for this user";
     Filing.sendViaSendGrid := Err "SendGrid not configured";
     Filing.captureEmailProof := None;
     Filing.issuerClaimEmail := fun _ => None |}.

(** Everything works. *)
Definition allWorks : Filing.MailEnv :=
  {| Filing.generateClaimDocumentation := Ok "claim_4.pdf";
     Filing.capturePriceScreenshot := Some "price_4.png";
     Filing.sendViaSmtp := Ok "smtp-1";
     Filing.sendViaGmail := Ok "gmail-1";
     Filing.sendViaSendGrid := Ok "sg-1";
     Filing.captureEmailProof := Some "proof_4.png";
     Filing.issuerClaimEmail := fun _ => None |}.

(** The user's Gmail is not connected; the SendGrid relay works. *)
Definition gmailDown : Filing.MailEnv :=
  {| Filing.generateClaimDocumentation := Ok "claim_4.pdf";
     Filing.capturePriceScreenshot := Some "price_4.png";
     Filing.sendViaSmtp := Ok "smtp-1";
     Filing.sendViaGmail := Err "Gmail not connected for this user";
     Filing.sendViaSendGrid := Ok "sg-1";
     Filing.captureEmailProof := Some "proof_4.png";
     Filing.issuerClaimEmail := fun _ => None |}.

(** The sample store with the eligible purchase and its DRAFT claim. *)
Definition withDraft : DB := db 500%Q eligible [draftClaim].

(** The same store with the card issued by Chase, an issuer whose portal
    the portal revision knows how to drive. *)
Definition chaseCard : CreditCard :=
  {| cc_id := 2; cc_userId := 1; cc_lastFour := "4242";
     cc_network := Some "visa"; cc_issuer := "Chase";
     cc_nickname := "Everyday card"; cc_cardType := VISA;
     cc_protectionDays := 120; cc_maxClaimAmount := 500%Q;
     cc_claimMethod := ONLINE_PORTAL; cc_claimEmail := None;
     cc_autoClaimEnabled := true |}.

Definition withChaseDraft : DB :=
  {| users := [alice]; creditCards := [chaseCard]; purchases := [eligible];
     claims := [draftClaim];
     priceHistory := [{| ph_purchaseId := 3; ph_price := 100%Q; ph_source := "Shop";
                         ph_checkedAt := 0%Z |}];
     notifications := []; nextId := 10 |}.

(** The browser cannot be started. *)
Definition browserDown : PortalFiler.PortalEnv :=
  {| PortalFiler.launches := false;
     PortalFiler.documentation := Ok "claim_4.pdf";
     PortalFiler.outcomes := fun _ => {| PortalFiler.raised := false;
                                         PortalFiler.located := true |};
     PortalFiler.confirmationNumber := None |}.

End Samples.

(* ------------------------------------------------------------------------- *)
(** ** utils/cardUtils.js: luhnCheck, detectCardIssuer, getPriceProtectionInfo

    The price-protection terms of an issuer are kept with the columns the
    store has ([claimPhone] and [claimPortalUrl] are left out). *)

Module CardIssuer.
Import Store CardUtils.
Local Open Scope string_scope.

(** [parseInt(c, 10)] of a code unit of the class [\d]. *)
Definition digitValue (c : ascii) : nat := nat_of_ascii c - 48.

(** The body of the loop of [luhnCheck]: the contribution of one digit. *)
Definition luhnDigit (isEven : bool) (c : ascii) : nat :=
  let digit := digitValue c in
  if isEven
  then (let digit := digit * 2 in if (9 <? digit)%nat then digit - 9 else digit)
  else digit.

(** The loop of [luhnCheck], over the digits from the last to the first. *)
Fixpoint luhnLoop (fromLast : list ascii) (isEven : bool) (sum : nat) : nat :=
  match fromLast with
  | [] => sum
  | c :: rest => luhnLoop rest (negb isEven) (sum + luhnDigit isEven c)
  end.

(** [luhnCheck(cardNumber)] *)
Definition luhnCheck (cardNumber : jsstring) : bool :=
  let clean := stripNonDigits cardNumber in
  match clean with
  | [] => false
  | _ => (luhnLoop (rev clean) false 0 mod 10 =? 0)%nat
  end.

(** [priceProtection] of an issuer entry. *)
Record Terms := {
  t_protectionDays : Z;
  t_maxClaimAmount : Q;
  t_claimMethod : ClaimMethod;
  t_claimEmail : option string
}.

(** A pattern of the tables: anchored at the start, one character class per
    position ([/^5[1-5]/] is the class of '5' followed by that of '1'..'5'). *)
Definition Pattern := list (list ascii).

(** [pattern.test(s)] *)
Fixpoint test (pattern : Pattern) (s : jsstring) : bool :=
  match pattern, s with
  | [], _ => true
  | _ :: _, [] => false
  | class :: pattern', c :: s' => existsb (Ascii.eqb c) class && test pattern' s'
  end.

Record Issuer := {
  i_key : string;
  i_name : string;
  i_shortName : string;
  i_patterns : list Pattern;
  i_lengths : list nat;
  i_cardType : CardType;
  i_priceProtection : Terms
}.

Definition amex : Issuer :=
  {| i_key := "amex"; i_name := "American Express"; i_shortName := "Amex";
     i_patterns := [[["3"]; ["4"; "7"]]]%char;
     i_lengths := [15];
     i_cardType := AMEX;
     i_priceProtection :=
       {| t_protectionDays := 90; t_maxClaimAmount := 300; t_claimMethod := EMAIL;
          t_claimEmail := Some "priceprotection@americanexpress.com" |} |}.

Definition visa : Issuer :=
  {| i_key := "visa"; i_name := "Visa"; i_shortName := "Visa";
     i_patterns := [[["4"]]]%char;
     i_lengths := [13; 16; 19];
     i_cardType := VISA;
     i_priceProtection :=
       {| t_protectionDays := 60; t_maxClaimAmount := 250; t_claimMethod := PHONE;
          t_claimEmail := None |} |}.

Definition mastercard : Issuer :=
  {| i_key := "mastercard"; i_name := "Mastercard"; i_shortName := "Mastercard";
     i_patterns := [[["5"]; ["1"; "2"; "3"; "4"; "5"]];
                    [["2"]; ["2"; "3"; "4"; "5"; "6"; "7"]]]%char;
     i_lengths := [16];
     i_cardType := MASTERCARD;
     i_priceProtection :=
       {| t_protectionDays := 60; t_maxClaimAmount := 250; t_claimMethod := PHONE;
          t_claimEmail := None |} |}.

Definition discover : Issuer :=
  {| i_key := "discover"; i_name := "Discover"; i_shortName := "Discover";
     i_patterns := [[["6"]; ["0"]; ["1"]; ["1"]];
                    [["6"]; ["5"]];
                    [["6"]; ["4"]; ["4"; "5"; "6"; "7"; "8"; "9"]]]%char;
     i_lengths := [16; 19];
     i_cardType := DISCOVER;
     i_priceProtection :=
       {| t_protectionDays := 90; t_maxClaimAmount := 500;
          t_claimMethod := ONLINE_PORTAL; t_claimEmail := None |} |}.

(** [Object.entries(CARD_ISSUERS)], in the order of the table. *)
Definition CARD_ISSUERS : list Issuer := [amex; visa; mastercard; discover].

(** [BANK_ISSUERS]: key and terms. *)
Definition BANK_ISSUERS : list (string * Terms) :=
  [("chase", {| t_protectionDays := 120; t_maxClaimAmount := 500;
                t_claimMethod := ONLINE_PORTAL; t_claimEmail := None |});
   ("citi", {| t_protectionDays := 60; t_maxClaimAmount := 250;
               t_claimMethod := PHONE; t_claimEmail := None |});
   ("capitalone", {| t_protectionDays := 60; t_maxClaimAmount := 250;
                     t_claimMethod := PHONE; t_claimEmail := None |})].

(** What [detectCardIssuer] answers when it does not answer an error. *)
Record DetectedCard := {
  d_issuer : string;
  d_issuerKey : string;
  d_fullName : string;
  d_cardType : CardType;
  d_lastFour : jsstring;
  d_maskedNumber : jsstring;
  d_priceProtection : option Terms;
  d_isValid : bool
}.

Inductive Detection :=
| InvalidCardNumber      (* { error: 'Invalid card number', issuer: null, ... } *)
| Detected (d : DetectedCard).

(** Some pattern of the issuer matches the digits, and the issuer's lengths
    include their number: the test of the two nested loops. *)
Definition accepts (cleanNumber : jsstring) (issuer : Issuer) : bool :=
  existsb (fun pattern =>
             test pattern cleanNumber
             && existsb (Nat.eqb (List.length cleanNumber)) (i_lengths issuer))
          (i_patterns issuer).

(** [detectCardIssuer(cardNumber)] *)
Definition detectCardIssuer (cardNumber : jsstring) : Detection :=
  let cleanNumber := stripNonDigits cardNumber in
  if (List.length cleanNumber <? 13)%nat then InvalidCardNumber
  else
    match find (accepts cleanNumber) CARD_ISSUERS with
    | Some issuer =>
        Detected
          {| d_issuer := i_shortName issuer;
             d_issuerKey := i_key issuer;
             d_fullName := i_name issuer;
             d_cardType := i_cardType issuer;
             d_lastFour := sliceTail 4 cleanNumber;
             d_maskedNumber := maskCardNumber cleanNumber;
             d_priceProtection := Some (i_priceProtection issuer);
             d_isValid := luhnCheck cleanNumber |}
    | None =>
        Detected
          {| d_issuer := "Unknown";
             d_issuerKey := "unknown";
             d_fullName := "Unknown Card Issuer";
             d_cardType := OTHER;
             d_lastFour := sliceTail 4 cleanNumber;
             d_maskedNumber := maskCardNumber cleanNumber;
             d_priceProtection := None;
             d_isValid := luhnCheck cleanNumber |}
    end.

(** [toLowerCase] and the class [\s], on code units below 256. *)
Definition toLowerChar (c : ascii) : ascii :=
  let n := nat_of_ascii c in
  if ((65 <=? n)%nat && (n <=? 90)%nat)
     || ((192 <=? n)%nat && (n <=? 222)%nat && negb (n =? 215)%nat)
  then ascii_of_nat (n + 32) else c.

Definition isSpace (c : ascii) : bool :=
  let n := nat_of_ascii c in
  ((9 <=? n)%nat && (n <=? 13)%nat) || (n =? 32)%nat || (n =? 160)%nat.

(** [issuer.toLowerCase().replace(/\s+/g, '')] *)
Definition issuerKeyOf (issuer : string) : string :=
  string_of_list_ascii
    (filter (fun c => negb (isSpace c))
            (map toLowerChar (list_ascii_of_string issuer))).

Definition fallbackTerms : Terms :=
  {| t_protectionDays := 60; t_maxClaimAmount := 250; t_claimMethod := PHONE;
     t_claimEmail := None |}.

(** [getPriceProtectionInfo(issuer)] *)
Definition getPriceProtectionInfo (issuer : string) : Terms :=
  let issuerKey := issuerKeyOf issuer in
  match find (fun i => String.eqb (i_key i) issuerKey) CARD_ISSUERS with
  | Some i => i_priceProtection i
  | None =>
      match EmailParser.lookup issuerKey BANK_ISSUERS with
      | Some terms => terms
      | None => fallbackTerms
      end
  end.

End CardIssuer.

(* ------------------------------------------------------------------------- *)
(** ** routes/cards.js: POST /quick-add, POST / and DELETE /:id

    The handlers are modelled for the authenticated user [reqUser] and a
    body that passed validation. *)

Module CardsRoute.
Import Store CardUtils CardIssuer.
Local Open Scope string_scope.
Local Open Scope Q_scope.

Definition AppError := ClaimsRoute.AppError.

(** [creditCard.findFirst({ where: { userId, lastFour, issuer } })] *)
Definition findDuplicate (db : DB) (uid : id) (lastFour issuer : string)
  : option CreditCard :=
  find (fun c => (cc_userId c =? uid)%nat
                 && String.eqb (cc_lastFour c) lastFour
                 && String.eqb (cc_issuer c) issuer)
       (creditCards db).

(** POST /quick-add.  [nickname] is the optional, trimmed body field. *)
Definition quickAdd (defaults : SchemaDefaults) (db : DB) (reqUser : id)
           (cardNumber : jsstring) (nickname : option string)
  : DB * result AppError CreditCard :=
  match detectCardIssuer cardNumber with
  | InvalidCardNumber => (db, Err ("Invalid card number", 400%nat))
  | Detected detected =>
    if negb (d_isValid detected)
    then (db, Err ("Invalid card number", 400%nat))
    else
      let lastFour := string_of_list_ascii (d_lastFour detected) in
      (* Check for duplicate *)
      match findDuplicate db reqUser lastFour (d_issuer detected) with
      | Some _ => (db, Err ("A card with these details already exists", 409%nat))
      | None =>
        (* Get price protection info *)
        let protection :=
          match d_priceProtection detected with
          | Some terms => terms
          | None => getPriceProtectionInfo (d_issuer detected)
          end in
        let (db1, card) :=
          createCreditCard defaults db
            {| cd_userId := reqUser;
               cd_lastFour := lastFour;
               cd_network := Js.truthyString (Some (d_issuerKey detected));
               cd_issuer := d_issuer detected;
               cd_nickname :=
                 Js.orString nickname
                   (Js.orString (Some (d_fullName detected)) (d_issuer detected)
                    ++ " ****" ++ lastFour);
               cd_cardType := d_cardType detected;
               cd_protectionDays :=
                 Some (if (t_protectionDays protection =? 0)%Z then 60%Z
                       else t_protectionDays protection);
               cd_maxClaimAmount :=
                 Some (Js.toNumber (Js.or (Some (t_maxClaimAmount protection))
                                          (Some 500)));
               cd_claimMethod := t_claimMethod protection;
               cd_claimEmail := Js.truthyString (t_claimEmail protection);
               cd_autoClaimEnabled := Some false |} in
        (db1, Ok card)
      end
  end.

(** The body of POST /, after validation; the optional fields are [None]
    when the request leaves them out. *)
Record CardBody := {
  b_nickname : string;
  b_issuer : string;
  b_lastFour : string;
  b_cardType : CardType;
  b_protectionDays : option Z;
  b_maxClaimAmount : option Q;
  b_claimMethod : ClaimMethod;
  b_claimEmail : option string
}.

(** POST / *)
Definition addCard (defaults : SchemaDefaults) (db : DB) (reqUser : id)
           (body : CardBody) : DB * result AppError CreditCard :=
  let protectionDays := orDefault (b_protectionDays body) 60%Z in
  let maxClaimAmount := orDefault (b_maxClaimAmount body) 500 in
  (* Check for duplicate *)
  match findDuplicate db reqUser (b_lastFour body) (b_issuer body) with
  | Some _ => (db, Err ("A card with these details already exists", 409%nat))
  | None =>
    let (db1, card) :=
      createCreditCard defaults db
        {| cd_userId := reqUser;
           cd_lastFour := b_lastFour body;
           cd_network := None;
           cd_issuer := b_issuer body;
           cd_nickname := b_nickname body;
           cd_cardType := b_cardType body;
           cd_protectionDays := Some protectionDays;
           cd_maxClaimAmount := Some maxClaimAmount;
           cd_claimMethod := b_claimMethod body;
           cd_claimEmail := b_claimEmail body;
           cd_autoClaimEnabled := None |} in
    (db1, Ok card)
  end.

(** [claim.count({ where: { creditCardId } })] *)
Definition claimsOfCard (db : DB) (cardId : id) : list Claim :=
  filter (fun c => match c_creditCardId c with
                   | Some k => (k =? cardId)%nat
                   | None => false
                   end) (claims db).

(** DELETE /:id.  What the schema's rule does to the purchases that refer to
    the deleted card is not in the sources; the purchases are left as they
    are. *)
Definition deleteCard (db : DB) (reqUser : id) (cardId : id)
  : DB * result AppError unit :=
  match find (fun c => (cc_id c =? cardId)%nat && (cc_userId c =? reqUser)%nat)
             (creditCards db) with
  | None => (db, Err ("Credit card not found", 404%nat))
  | Some _ =>
    (* Check if card has any claims *)
    if (0 <? List.length (claimsOfCard db cardId))%nat
    then (db, Err ("Cannot delete card with existing claims", 400%nat))
    else
      (withCreditCards
         (filter (fun c => negb (cc_id c =? cardId)%nat) (creditCards db)) db,
       Ok tt)
  end.

End CardsRoute.
(* ------------------------------------------------------------------------- *)
(** ** services/priceMonitor.js: checkAllEligiblePurchases

    The column [updatedAt] is kept by the database and is not among the
    modelled columns: the value it has when the sweep runs its query is the
    argument [updatedAt].  Each check of the loop runs at its own instant
    against its own state of the outside world: [world] gives both, by
    purchase. *)

Module PriceSweep.
Import Store PriceMonitor.
Local Open Scope Q_scope.

(** The [where] of the query, evaluated at instant [now]. *)
Definition sweepWhere (now : instant) (p : Purchase) : bool :=
  (PurchaseStatus.eqb (p_status p) PurchaseStatus.MONITORING
   || PurchaseStatus.eqb (p_status p) PurchaseStatus.PRICE_DROP_DETECTED)
  && match p_productUrl p with Some _ => true | None => false end
  && match p_protectionEnds p with
     | Some ends => (now <=? ends)%Z
     | None => false
     end.

(** [orderBy: { updatedAt: 'asc' }] *)
Fixpoint insertAsc (updatedAt : id -> instant) (p : Purchase) (l : list Purchase)
  : list Purchase :=
  match l with
  | [] => [p]
  | q :: rest =>
      if (updatedAt (p_id p) <? updatedAt (p_id q))%Z then p :: l
      else q :: insertAsc updatedAt p rest
  end.
Definition orderByUpdatedAt (updatedAt : id -> instant) (l : list Purchase)
  : list Purchase :=
  fold_right (insertAsc updatedAt) [] l.

(** [parseInt(process.env.MAX_PRICE_CHECKS_PER_DAY) || 1000]: the variable,
    when it is set to a number, holds a natural number. *)
Definition takeLimit (maxChecks : option nat) : nat :=
  match maxChecks with
  | Some 0%nat => 1000%nat
  | Some n => n
  | None => 1000%nat
  end.

(** The purchases the query answers. *)
Definition selected (db : DB) (now : instant) (updatedAt : id -> instant)
           (maxChecks : option nat) : list Purchase :=
  firstn (takeLimit maxChecks)
         (orderByUpdatedAt updatedAt (filter (sweepWhere now) (purchases db))).

Record SweepResults := {
  checked : nat;
  priceDrops : nat;
  errors : nat
}.

(** [result.priceDrop > 0]; a failed check has no [priceDrop]. *)
Definition reportsDrop (result : CheckResult) : bool :=
  match result with
  | Checked _ _ priceDrop _ => Js.gtb priceDrop 0
  | CheckFailed _ => false
  end.

(** The loop over the purchases the query answered. *)
Fixpoint sweepLoop (db : DB) (world : id -> instant * ScrapeEnv)
         (todo : list Purchase) (results : SweepResults) : DB * SweepResults :=
  match todo with
  | [] => (db, results)
  | purchase :: rest =>
      let (db1, result) :=
        checkPriceForPurchase db (fst (world (p_id purchase)))
                              (snd (world (p_id purchase))) (p_id purchase) in
      sweepLoop db1 world rest
        {| checked := S (checked results);
           priceDrops := if reportsDrop result then S (priceDrops results)
                         else priceDrops results;
           errors := errors results |}
  end.

(** [checkAllEligiblePurchases()], whose query runs at instant [now]. *)
Definition checkAllEligiblePurchases (db : DB) (now : instant)
           (updatedAt : id -> instant) (maxChecks : option nat)
           (world : id -> instant * ScrapeEnv) : DB * SweepResults :=
  sweepLoop db world (selected db now updatedAt maxChecks)
            {| checked := 0; priceDrops := 0; errors := 0 |}.

End PriceSweep.

(* ------------------------------------------------------------------------- *)
(** ** workers/cron.js: the purchase expiry job *)

Module CronJobs.
Import Store.

(** The [where] of [purchase.updateMany], evaluated at instant [now]. *)
Definition expiryWhere (now : instant) (p : Purchase) : bool :=
  match p_protectionEnds p with
  | Some ends => (ends <? now)%Z
  | None => false
  end
  && (PurchaseStatus.eqb (p_status p) PurchaseStatus.MONITORING
      || PurchaseStatus.eqb (p_status p) PurchaseStatus.PRICE_DROP_DETECTED
      || PurchaseStatus.eqb (p_status p) PurchaseStatus.CLAIM_ELIGIBLE).

(** "Expire old purchases": the store after the job, and [expired.count]. *)
Definition expirePurchases (db : DB) (now : instant) : DB * nat :=
  (withPurchases
     (map (fun p => if expiryWhere now p
                    then Set_.purchaseStatus PurchaseStatus.EXPIRED p else p)
          (purchases db)) db,
   List.length (filter (expiryWhere now) (purchases db))).

End CronJobs.
(* ------------------------------------------------------------------------- *)
(** ** routes/claims.js: the handlers that follow a claim after its creation

    POST /:id/generate-docs, POST /:id/file, PATCH /:id/status, DELETE /:id
    and POST /:id/auto-file, each for the authenticated user [reqUser] and a
    body that passed validation.  The columns [resolvedAt] and
    [approvedAmount] are not among the modelled ones.  A claim's purchase
    exists (the column is a foreign key), so [purchase.update] finds its
    row.  An error that is not an [AppError] goes to the error middleware,
    which is not among the sources; it is carried with the code 500. *)

Module ClaimActions.
Import Store Filing.
Local Open Scope string_scope.

Definition AppError := ClaimsRoute.AppError.

(** [claim.findFirst({ where: { id, userId } })] *)
Definition findClaimOfUser (db : DB) (cid uid : id) : option Claim :=
  find (fun c => (c_id c =? cid)%nat && (c_userId c =? uid)%nat) (claims db).

(** [claim.delete({ where: { id } })] *)
Definition deleteClaimRow (db : DB) (cid : id) : DB :=
  withClaims (filter (fun c => negb (c_id c =? cid)%nat) (claims db)) db.

(** [...(value && { column: value })]: the column is written only when the
    body carries a non-empty value. *)
Definition setIfGiven (set : option string -> Claim -> Claim) (v : option string)
           (c : Claim) : Claim :=
  match Js.truthyString v with
  | Some x => set (Some x) c
  | None => c
  end.

(** POST /:id/generate-docs; [docUrl] is what [generateClaimDocumentation]
    answers, or the error it raises. *)
Definition generateDocs (db : DB) (docUrl : result string string)
           (reqUser claimId : id) : DB * result AppError string :=
  match findClaimOfUser db claimId reqUser with
  | None => (db, Err ("Claim not found", 404%nat))
  | Some claim =>
    match docUrl with
    | Err message => (db, Err (message, 500%nat))
    | Ok url =>
      (updateClaim db (c_id claim) (fun c =>
         Set_.status ClaimStatus.READY_TO_FILE
           (Set_.proofDocumentUrl (Some url) c)),
       Ok url)
    end
  end.

Definition fileable (s : ClaimStatus.t) : bool :=
  ClaimStatus.eqb s ClaimStatus.DRAFT || ClaimStatus.eqb s ClaimStatus.READY_TO_FILE.

(** POST /:id/file (mark claim as filed), at instant [now]. *)
Definition file (db : DB) (now : instant) (reqUser claimId : id)
           (claimNumber : option string) : DB * result AppError Claim :=
  match findClaimOfUser db claimId reqUser with
  | None => (db, Err ("Claim not found", 404%nat))
  | Some claim =>
    if negb (fileable (c_status claim))
    then (db, Err ("Claim cannot be filed in current status", 400%nat))
    else
      let data := fun c =>
        setIfGiven Set_.claimNumber claimNumber
          (Set_.filedAt (Some now) (Set_.status ClaimStatus.FILED c)) in
      let db1 := updateClaim db (c_id claim) data in
      (* Update purchase status *)
      let db2 := updatePurchase db1 (c_purchaseId claim)
                   (Set_.purchaseStatus PurchaseStatus.CLAIM_FILED) in
      (* Send notification *)
      let db3 := createNotification db2
                   {| n_userId := reqUser; n_type := CLAIM_STATUS_UPDATE;
                      n_title := "Claim Filed Successfully";
                      n_purchaseId := None; n_claimId := Some (c_id claim) |} in
      (db3, Ok (data claim))
  end.

(** The values the validation of PATCH /:id/status lets through. *)
Definition trackable (s : ClaimStatus.t) : bool :=
  match s with
  | ClaimStatus.PENDING_REVIEW | ClaimStatus.ADDITIONAL_INFO_NEEDED
  | ClaimStatus.APPROVED | ClaimStatus.DENIED | ClaimStatus.MONEY_RECEIVED => true
  | _ => false
  end.

(** PATCH /:id/status *)
Definition patchStatus (db : DB) (reqUser claimId : id) (status : ClaimStatus.t)
           (claimNumber responseNotes : option string)
  : DB * result AppError Claim :=
  if negb (trackable status) then (db, Err ("Validation failed", 400%nat))
  else
    match findClaimOfUser db claimId reqUser with
    | None => (db, Err ("Claim not found", 404%nat))
    | Some claim =>
      let data := fun c =>
        setIfGiven Set_.responseNotes responseNotes
          (setIfGiven Set_.claimNumber claimNumber (Set_.status status c)) in
      let db1 :=
        match status with
        | ClaimStatus.APPROVED =>
            updatePurchase db (c_purchaseId claim)
                           (Set_.purchaseStatus PurchaseStatus.CLAIM_APPROVED)
        | ClaimStatus.DENIED =>
            updatePurchase db (c_purchaseId claim)
                           (Set_.purchaseStatus PurchaseStatus.CLAIM_DENIED)
        | _ => db
        end in
      let db2 := updateClaim db1 (c_id claim) data in
      (* Send notification *)
      let db3 := createNotification db2
                   {| n_userId := reqUser; n_type := CLAIM_STATUS_UPDATE;
                      n_title := match status with
                                 | ClaimStatus.APPROVED => "Claim Approved!"
                                 | ClaimStatus.DENIED => "Claim Denied"
                                 | _ => "Claim Updated"
                                 end;
                      n_purchaseId := None; n_claimId := Some (c_id claim) |} in
      (db3, Ok (data claim))
    end.

(** DELETE /:id (only drafts) *)
Definition deleteClaim (db : DB) (reqUser claimId : id) : DB * result AppError unit :=
  match findClaimOfUser db claimId reqUser with
  | None => (db, Err ("Claim not found", 404%nat))
  | Some claim =>
    if negb (ClaimStatus.eqb (c_status claim) ClaimStatus.DRAFT)
    then (db, Err ("Only draft claims can be deleted", 400%nat))
    else
      let db1 := deleteClaimRow db (c_id claim) in
      (* Revert purchase status *)
      let db2 := updatePurchase db1 (c_purchaseId claim)
                   (Set_.purchaseStatus PurchaseStatus.PRICE_DROP_DETECTED) in
      (db2, Ok tt)
  end.

(** What POST /:id/auto-file answers: the store it leaves, the channels
    tried, and the filer's outcome or the error handed to the error
    middleware. *)
Record AutoFileAnswer := {
  af_store : DB;
  af_attempts : list Channel;
  af_value : result AppError Outcome
}.

(** POST /:id/auto-file; [autoFileClaim] is the filer, applied to the store
    and the claim's id.  The third value of the status test, ['PENDING'], is
    a status no code of the sources writes. *)
Definition autoFile (db : DB) (autoFileClaim : DB -> id -> Run)
           (reqUser claimId : id) : AutoFileAnswer :=
  match findClaimOfUser db claimId reqUser with
  | None => {| af_store := db; af_attempts := [];
               af_value := Err ("Claim not found", 404%nat) |}
  | Some claim =>
    if negb (fileable (c_status claim))
    then {| af_store := db; af_attempts := [];
            af_value := Err ("Claim has already been filed or processed", 400%nat) |}
    else
      let run := autoFileClaim db (c_id claim) in
      {| af_store := store run; af_attempts := attempts run;
         af_value := match value run with
                     | Ok outcome => Ok outcome
                     | Err message => Err (message, 500%nat)
                     end |}
  end.

End ClaimActions.
(* ------------------------------------------------------------------------- *)
(** ** workers/cron.js, newer revision (kept after the README): the claim
       catch-up job; services/autoClaimService.js: processAutoClaimsForUser

    A job reads its rows once, with the related card and user, and then
    loops over what it read: the loop sees the purchase (or claim), its card
    and its user as the query answered them, and the rest of the store as it
    is at that turn. *)

Module ClaimJobs.
Import Store Filing.
Local Open Scope string_scope.
Local Open Scope Q_scope.

(** *** "Auto-file eligible claims that have a card but were never filed" *)





(** *** [processAutoClaimsForUser(userId)] *)

(** The [where] of the claims query, evaluated at instant [now]. *)
Definition autoClaimWhere (db : DB) (now : instant) (userId : id) (c : Claim) : bool :=
  (c_userId c =? userId)%nat
  && (ClaimStatus.eqb (c_status c) ClaimStatus.DRAFT
      || ClaimStatus.eqb (c_status c) ClaimStatus.READY_TO_FILE)
  && match findPurchase db (c_purchaseId c) with
     | Some p =>
         PurchaseStatus.eqb (p_status p) PurchaseStatus.CLAIM_ELIGIBLE
         && match p_protectionEnds p with
            | Some ends => (now <=? ends)%Z
            | None => false
            end
     | None => false
     end.

(** What the function resolves to; an entry of [results] is the filer's
    outcome, or the error it raised. *)
Record Processed := {
  processed : nat;
  filed : nat;
  results : list (result string Outcome)
}.

(** One turn of the loop; [world] gives, by claim, the instant and the
    state of the outside world at which the claim is filed. *)
Definition processTurn (read : DB) (world : id -> instant * MailEnv)
           (acc : DB * nat * list (result string Outcome)) (claim : Claim)
  : DB * nat * list (result string Outcome) :=
  let '(db, filed, results) := acc in
  match cardOf read (c_creditCardId claim) with
  | None => acc
  | Some creditCard =>
    if negb (cc_autoClaimEnabled creditCard) then acc
    else
      let run := AutoClaimService.fileClaimViaEmail
                   db (fst (world (c_id claim))) (snd (world (c_id claim)))
                   (c_id claim) in
      match value run with
      | Ok result => (store run, S filed, (results ++ [Ok result])%list)
      | Err message => (store run, filed, (results ++ [Err message])%list)
      end
  end.

Definition processAutoClaimsForUser (db : DB) (now : instant)
           (world : id -> instant * MailEnv) (userId : id) : DB * Processed :=
  match findUser db userId with
  | None => (db, {| processed := 0; filed := 0; results := [] |})
  | Some user =>
    if negb (u_autoFileClaimsEnabled user)
    then (db, {| processed := 0; filed := 0; results := [] |})
    else
      let eligibleClaims := filter (autoClaimWhere db now userId) (claims db) in
      let '(db', filed, results) :=
        fold_left (processTurn db world) eligibleClaims (db, 0%nat, []) in
      (db', {| processed := List.length eligibleClaims; filed := filed;
               results := results |})
  end.

End ClaimJobs.
(* ------------------------------------------------------------------------- *)
(** ** Further vocabulary for the properties below *)

Module Notions.
Import Store.

(** The value of [isEven] after the loop of [luhnCheck] went over [l]. *)
Definition flips (l : list ascii) (isEven : bool) : bool :=
  fold_left (fun b _ => negb b) l isEven.

(** The first digits a network's patterns ask for. *)
Definition leadingDigits (issuer : CardIssuer.Issuer) : list ascii :=
  flat_map (fun pattern => match pattern with
                           | class :: _ => class
                           | [] => []
                           end) (CardIssuer.i_patterns issuer).

(** What the card routes take as the identity of a card: its owner, its
    last four digits and its issuer. *)
Definition cardKey (c : CreditCard) : id * string * string :=
  (cc_userId c, cc_lastFour c, cc_issuer c).

(** No two cards of the store have the same owner, last four digits and
    issuer. *)
Definition distinctCards (db : DB) : Prop := NoDup (map cardKey (creditCards db)).

(** Every claim that names a card names a card of the store. *)
Definition claimCardsExist (db : DB) : Prop :=
  forall claim cardId,
    In claim (claims db) -> c_creditCardId claim = Some cardId ->
    exists card, findCard db cardId = Some card.

(** An item the AI strategy's loop makes a purchase of: it has a product
    name, and its price is a number above 0. *)
Definition validAiItem (item : EmailParser.AiItem) : bool :=
  Js.nonEmpty (EmailParser.ai_productName item)
  && match EmailParser.ai_price item with
     | EmailParser.PriceNumber q => negb (Js.leb q 0)
     | EmailParser.PriceOther _ _ => false
     end.

(** An item the loop does not skip although its price is no number: it has
    a product name, and its price does not compare as [<= 0] (a missing
    price, a text). *)
Definition malformedAiItem (item : EmailParser.AiItem) : bool :=
  Js.nonEmpty (EmailParser.ai_productName item)
  && match EmailParser.ai_price item with
     | EmailParser.PriceNumber _ => false
     | EmailParser.PriceOther (Some n) _ => negb (Js.leb n 0)
     | EmailParser.PriceOther None _ => true
     end.

(** The store [db'] is the store [db] with one purchase per item of [items]
    appended, in order, for the user [uid] and the message [eid]: the rows
    [new], with fresh consecutive ids, the item's name and price, under
    monitoring, with no card and no protection window; one first observation
    at the item's price and one notification per row; nothing else
    changed. *)
Definition seededFrom (uid : id) (eid : string) (db db' : DB)
           (items : list EmailParser.AiItem) (new : list Purchase) : Prop :=
  purchases db' = (purchases db ++ new)%list
  /\ map p_id new = seq (nextId db) (List.length items)
  /\ map p_productName new = map EmailParser.ai_productName items
  /\ map (fun p => EmailParser.PriceNumber (p_purchasePrice p)) new
     = map EmailParser.ai_price items
  /\ Forall (fun p => p_userId p = uid
                      /\ p_sourceEmailId p = Some eid
                      /\ p_status p = PurchaseStatus.MONITORING
                      /\ p_creditCardId p = None
                      /\ p_protectionEnds p = None
                      /\ p_lowestPrice p = Some (p_purchasePrice p)) new
  /\ (exists hs, priceHistory db' = (priceHistory db ++ hs)%list
                 /\ map ph_purchaseId hs = map p_id new
                 /\ map (fun h => EmailParser.PriceNumber (ph_price h)) hs
                    = map EmailParser.ai_price items)
  /\ (exists ns, notifications db' = (notifications db ++ ns)%list
                 /\ map n_purchaseId ns = map (fun p => Some (p_id p)) new
                 /\ Forall (fun n => n_type n = SYSTEM /\ n_userId n = uid) ns)
  /\ nextId db' = (nextId db + List.length items)%nat
  /\ users db' = users db
  /\ creditCards db' = creditCards db
  /\ claims db' = claims db.


(** The ids of the claims in use lie below the counter. *)
Definition claimIdsBelowCounter (db : DB) : Prop :=
  Forall (fun c => (c_id c < nextId db)%nat) (claims db).

(** The claims of [db'] are those of [db] rewritten row by row, with the id,
    the purchase and the amounts of every row kept: no claim is added or
    removed. *)
Definition rewritesClaims (db db' : DB) : Prop :=
  exists g, Spec.keepsAmounts g /\ claims db' = map g (claims db).

(** What a filer may do to the store when it is asked to file the claim
    [cid]: it draws no id, leaves users and cards alone, and rewrites no
    claim but those with the id [cid], keeping their purchase and amounts and
    keeping an active claim active. *)
Definition filerBehaves (autoFileClaim : DB -> id -> Filing.Run) : Prop :=
  forall db cid,
    let db' := Filing.store (autoFileClaim db cid) in
    nextId db' = nextId db
    /\ users db' = users db
    /\ creditCards db' = creditCards db
    /\ exists f,
         claims db' = map (fun c => if (c_id c =? cid)%nat then f c else c) (claims db)
         /\ Spec.keepsAmounts f
         /\ forall c, activeStatus (c_status c) = true ->
                      activeStatus (c_status (f c)) = true.

(** What a step of a portal workflow needs in order not to clear the
    success flag: a navigation must not raise; a submission must not raise
    and must find its button; the other steps need nothing. *)
Definition stepHolds (a : PortalFiler.Action) (o : PortalFiler.StepOutcome) : bool :=
  match a with
  | PortalFiler.Navigate => negb (PortalFiler.raised o)
  | PortalFiler.Submit => negb (PortalFiler.raised o) && PortalFiler.located o
  | _ => true
  end.

(** A lookup that gives the selector loop no price: no element, a lookup
    that raised, or a text that does not parse to a positive number. *)
Definition noPrice (l : PriceMonitor.Lookup) : bool :=
  match l with
  | PriceMonitor.ElementText t => negb (Js.truthy (PriceMonitor.parsePrice t))
  | _ => true
  end.

Local Open Scope Q_scope.


End Notions.

(* ========================================================================= *)
(** * Part II: properties *)

(* ------------------------------------------------------------------------- *)
(** ** Order facts on amounts *)

Section JsFacts.
Local Open Scope Q_scope.

Lemma Js_ltb_lt a b : Js.ltb a b = true <-> a < b.
Proof.
  unfold Js.ltb. rewrite negb_true_iff.
  destruct (Qle_bool b a) eqn:E.
  - apply Qle_bool_iff in E. split; [discriminate | intro H; exfalso; lra].
  - split; [intros _ | reflexivity].
    apply Qnot_le_lt. intro H. apply Qle_bool_iff in H. congruence.
Qed.

Lemma Js_ltb_ge a b : Js.ltb a b = false <-> b <= a.
Proof. unfold Js.ltb. rewrite negb_false_iff. apply Qle_bool_iff. Qed.

Lemma Js_gtb_gt a b : Js.gtb a b = true <-> b < a.
Proof. unfold Js.gtb. apply Js_ltb_lt. Qed.

Lemma Js_gtb_le a b : Js.gtb a b = false <-> a <= b.
Proof. unfold Js.gtb. apply Js_ltb_ge. Qed.

Lemma Js_leb_le a b : Js.leb a b = true <-> a <= b.
Proof. apply Qle_bool_iff. Qed.

Lemma Js_leb_gt a b : Js.leb a b = false <-> b < a.
Proof.
  unfold Js.leb. destruct (Qle_bool a b) eqn:E.
  - apply Qle_bool_iff in E. split; [discriminate | intro; exfalso; lra].
  - split; [intros _ | reflexivity].
    apply Qnot_le_lt. intro H. apply Qle_bool_iff in H. congruence.
Qed.

Lemma Js_geb_ge a b : Js.geb a b = true <-> b <= a.
Proof. apply Qle_bool_iff. Qed.

Lemma Js_geb_lt a b : Js.geb a b = false <-> a < b.
Proof. unfold Js.geb. apply (Js_leb_gt b a). Qed.

Lemma Js_truthy_pos q : 0 < q -> Js.truthy (Some q) = true.
Proof.
  intro H. unfold Js.truthy. rewrite negb_true_iff.
  destruct (Qeq_bool q 0) eqn:E; [| reflexivity].
  apply Qeq_bool_eq in E. lra.
Qed.




Lemma Js_min_cases a b : Js.min a b = a \/ Js.min a b = b.
Proof. unfold Js.min. destruct (Js.ltb b a); auto. Qed.

Lemma Js_min_pos a b : 0 < a -> 0 < b -> 0 < Js.min a b.
Proof. intros Ha Hb. destruct (Js_min_cases a b) as [-> | ->]; assumption. Qed.

End JsFacts.

(* ------------------------------------------------------------------------- *)
(** ** Doubles: [Js.double] is monotone, fixes the doubles, and is within
       half a unit of the last mantissa bit *)

Unset Implicit Arguments.

Section Doubles.
Local Open Scope Q_scope.

Lemma pow2_pos e : 0 < Js.pow2 e.
Proof. apply Qpower_0_lt. reflexivity. Qed.

Lemma pow2_plus a b : Js.pow2 (a + b) == Js.pow2 a * Js.pow2 b.
Proof. apply Qpower_plus. discriminate. Qed.

Lemma pow2_le a b : (a <= b)%Z -> Js.pow2 a <= Js.pow2 b.
Proof. intro H. apply Qpower_le_compat_l; [exact H | discriminate]. Qed.

Lemma pow2_succ a : Js.pow2 (a + 1) == 2 * Js.pow2 a.
Proof. rewrite pow2_plus. change (Js.pow2 1) with 2. ring. Qed.

Lemma pow2_nonneg_Z n : (0 <= n)%Z -> Js.pow2 n == inject_Z (2 ^ n).
Proof. intro H. unfold Js.pow2. now rewrite Zpower_Qpower. Qed.

Lemma pow2_sub a b : Js.pow2 (a - b) == Js.pow2 a / Js.pow2 b.
Proof.
  pose proof (pow2_pos b) as Hb.
  assert (E : Js.pow2 a == Js.pow2 (a - b) * Js.pow2 b).
  { rewrite <- pow2_plus. now replace (a - b + b)%Z with a by lia. }
  rewrite E. field. intro H. rewrite H in Hb. discriminate.
Qed.

Lemma log2_bounds (n : positive) :
  inject_Z (2 ^ Z.log2 (Zpos n)) <= inject_Z (Zpos n)
  /\ inject_Z (Zpos n) < inject_Z (2 ^ (Z.log2 (Zpos n) + 1)).
Proof.
  destruct (Z.log2_spec (Zpos n)) as [H1 H2]; [lia |].
  split; [rewrite <- Zle_Qle | rewrite <- Zlt_Qlt]; [exact H1 |].
  now replace (Z.log2 (Zpos n) + 1)%Z with (Z.succ (Z.log2 (Zpos n))) by lia.
Qed.

Lemma ilog2_spec q : 0 < q -> Js.pow2 (Js.ilog2 q) <= q /\ q < Js.pow2 (Js.ilog2 q + 1).
Proof.
  intro Hq. destruct q as [n d]. 
  assert (Hn : (0 < n)%Z) by (unfold Qlt in Hq; simpl in Hq; lia).
  destruct n as [| n | n]; try lia. clear Hn Hq.
  unfold Js.ilog2. cbn [Qnum Qden].
  set (a := Z.log2 (Zpos n)). set (b := Z.log2 (Zpos d)).
  destruct (log2_bounds n) as [N1 N2]. fold a in N1, N2.
  destruct (log2_bounds d) as [D1 D2]. fold b in D1, D2.
  assert (Ha : (0 <= a)%Z) by apply Z.log2_nonneg.
  assert (Hb : (0 <= b)%Z) by apply Z.log2_nonneg.
  rewrite <- pow2_nonneg_Z in N1, N2, D1, D2 by lia.
  assert (Hq : Zpos n # d == inject_Z (Zpos n) / inject_Z (Zpos d)) by apply Qmake_Qdiv.
  assert (Hd0 : 0 < inject_Z (Zpos d)) by reflexivity.
  pose proof (pow2_pos (a - b)) as P0.
  pose proof (pow2_pos b) as Pb.
  assert (Hup : Zpos n # d < Js.pow2 (a - b + 1)).
  { rewrite Hq. apply Qlt_shift_div_r; [exact Hd0 |].
    eapply Qlt_le_trans; [exact N2 |].
    replace (a + 1)%Z with ((a - b + 1) + b)%Z by lia.
    rewrite pow2_plus. apply Qmult_le_l; [apply pow2_pos | exact D1]. }
  assert (Hlo : Js.pow2 (a - b - 1) <= Zpos n # d).
  { rewrite Hq. apply Qle_shift_div_l; [exact Hd0 |].
    eapply Qle_trans; [| exact N1].
    replace a with ((a - b - 1) + (b + 1))%Z at 2 by lia.
    rewrite (pow2_plus (a - b - 1) (b + 1)).
    apply Qmult_le_l; [apply pow2_pos | apply Qlt_le_weak; exact D2]. }
  destruct (Qle_bool (Js.pow2 (a - b)) (Zpos n # d)) eqn:E.
  - apply Qle_bool_iff in E. now split.
  - split; [exact Hlo |].
    replace (a - b - 1 + 1)%Z with (a - b)%Z by lia.
    apply Qnot_le_lt. intro H. apply Qle_bool_iff in H. congruence.
Qed.

Lemma roundHalfEven_floor x :
  (Qfloor x <= Js.roundHalfEven x <= Qfloor x + 1)%Z.
Proof.
  unfold Js.roundHalfEven.
  destruct (Qcompare _ _); [destruct (Z.even _) | |]; lia.
Qed.

Lemma roundHalfEven_near x : Qabs (inject_Z (Js.roundHalfEven x) - x) <= 1 # 2.
Proof.
  pose proof (Qfloor_le x) as H1. pose proof (Qlt_floor x) as H2.
  rewrite inject_Z_plus in H2. change (inject_Z 1) with 1 in H2.
  apply Qabs_Qle_condition.
  unfold Js.roundHalfEven.
  destruct (Qcompare (x - inject_Z (Qfloor x)) (1 # 2)) eqn:E;
    [apply Qeq_alt in E; destruct (Z.even (Qfloor x)) | apply Qlt_alt in E | apply Qgt_alt in E];
    rewrite ?inject_Z_plus; change (inject_Z 1) with 1;
    generalize dependent (inject_Z (Qfloor x)); intros t; intros; split; lra.
Qed.

Lemma roundHalfEven_Z z : Js.roundHalfEven (inject_Z z) = z.
Proof.
  unfold Js.roundHalfEven. rewrite Qfloor_Z.
  assert (E : Qcompare (inject_Z z - inject_Z z) (1 # 2) = Lt).
  { apply (proj1 (Qlt_alt _ _)). generalize (inject_Z z). intro t. lra. }
  now rewrite E.
Qed.

Lemma roundHalfEven_mono x y : x <= y -> (Js.roundHalfEven x <= Js.roundHalfEven y)%Z.
Proof.
  intro H. pose proof (Qfloor_resp_le x y H) as Hf.
  destruct (Z.eq_dec (Qfloor x) (Qfloor y)) as [E | N].
  - unfold Js.roundHalfEven. rewrite <- E.
    destruct (Qcompare (x - inject_Z (Qfloor x)) (1 # 2)) eqn:Ex;
      destruct (Qcompare (y - inject_Z (Qfloor x)) (1 # 2)) eqn:Ey;
      try (destruct (Z.even (Qfloor x))); try lia; exfalso;
      first [apply Qeq_alt in Ex | apply Qlt_alt in Ex | apply Qgt_alt in Ex];
      first [apply Qeq_alt in Ey | apply Qlt_alt in Ey | apply Qgt_alt in Ey];
      generalize dependent (inject_Z (Qfloor x)); intros; lra.
  - pose proof (roundHalfEven_floor x). pose proof (roundHalfEven_floor y). lia.
Qed.

Lemma pow2_lt_inv a b : Js.pow2 a < Js.pow2 b -> (a < b)%Z.
Proof.
  intro H. destruct (Z_lt_le_dec a b) as [L | L]; [exact L |].
  apply pow2_le in L. lra.
Qed.

Lemma ilog2_mono a b : 0 < a -> a <= b -> (Js.ilog2 a <= Js.ilog2 b)%Z.
Proof.
  intros Ha Hab. assert (Hb : 0 < b) by lra.
  destruct (ilog2_spec a Ha) as [A1 _]. destruct (ilog2_spec b Hb) as [_ B2].
  assert (H : Js.pow2 (Js.ilog2 a) < Js.pow2 (Js.ilog2 b + 1)) by lra.
  apply pow2_lt_inv in H. lia.
Qed.

Lemma scaled_le a b e : a <= b -> a / Js.pow2 e <= b / Js.pow2 e.
Proof.
  intro H. pose proof (pow2_pos e) as P.
  apply Qle_shift_div_l; [exact P |].
  assert (E : a / Js.pow2 e * Js.pow2 e == a) by (field; lra).
  now rewrite E.
Qed.

Lemma nearest_nonneg q : 0 < q -> 0 <= Js.nearest q.
Proof.
  intro Hq. unfold Js.nearest. pose proof (pow2_pos (Js.exponent q)) as P.
  apply Qmult_le_0_compat; [| lra].
  assert (H0 : 0 <= q / Js.pow2 (Js.exponent q)).
  { apply Qle_shift_div_l; [exact P | lra]. }
  pose proof (roundHalfEven_mono (inject_Z 0) _ H0) as H1.
  rewrite roundHalfEven_Z in H1.
  change 0 with (inject_Z 0). now rewrite <- Zle_Qle.
Qed.

(** The mantissa has at most 53 bits, and exactly 53 above the subnormals. *)
Lemma mantissa_upper q : 0 < q -> (Js.roundHalfEven (q / Js.pow2 (Js.exponent q)) <= 2 ^ 53)%Z.
Proof.
  intro Hq. destruct (ilog2_spec q Hq) as [_ U].
  pose proof (pow2_pos (Js.exponent q)) as P.
  assert (H : q / Js.pow2 (Js.exponent q) <= inject_Z (2 ^ 53)).
  { apply Qle_shift_div_r; [exact P |].
    rewrite <- pow2_nonneg_Z by lia. rewrite <- pow2_plus.
    eapply Qle_trans; [apply Qlt_le_weak; exact U |].
    apply pow2_le. unfold Js.exponent. lia. }
  apply roundHalfEven_mono in H. now rewrite roundHalfEven_Z in H.
Qed.

Lemma mantissa_lower q :
  0 < q -> (-1074 <= Js.ilog2 q - 52)%Z -> (2 ^ 52 <= Js.roundHalfEven (q / Js.pow2 (Js.exponent q)))%Z.
Proof.
  intros Hq He. destruct (ilog2_spec q Hq) as [L _].
  pose proof (pow2_pos (Js.exponent q)) as P.
  assert (Ee : Js.exponent q = (Js.ilog2 q - 52)%Z) by (unfold Js.exponent; lia).
  assert (H : inject_Z (2 ^ 52) <= q / Js.pow2 (Js.exponent q)).
  { apply Qle_shift_div_l; [exact P |].
    rewrite <- pow2_nonneg_Z by lia. rewrite <- pow2_plus.
    rewrite Ee. now replace (52 + (Js.ilog2 q - 52))%Z with (Js.ilog2 q) by lia. }
  apply roundHalfEven_mono in H. now rewrite roundHalfEven_Z in H.
Qed.

Lemma nearest_mono a b : 0 < a -> a <= b -> Js.nearest a <= Js.nearest b.
Proof.
  intros Ha Hab. assert (Hb : 0 < b) by lra.
  pose proof (ilog2_mono a b Ha Hab) as Hk.
  unfold Js.nearest.
  destruct (Z.eq_dec (Js.exponent a) (Js.exponent b)) as [E | N].
  - rewrite E. pose proof (pow2_pos (Js.exponent b)) as P.
    apply Qmult_le_compat_r; [| lra].
    rewrite <- Zle_Qle. apply roundHalfEven_mono. now apply scaled_le.
  - assert (Hlt : (Js.exponent a + 1 <= Js.exponent b)%Z) by (unfold Js.exponent in *; lia).
    assert (Hnorm : (-1074 <= Js.ilog2 b - 52)%Z) by (unfold Js.exponent in *; lia).
    pose proof (mantissa_upper a Ha) as Ua.
    pose proof (mantissa_lower b Hb Hnorm) as Lb.
    pose proof (pow2_pos (Js.exponent a)) as Pa. pose proof (pow2_pos (Js.exponent b)) as Pb.
    apply Qle_trans with (inject_Z (2 ^ 53) * Js.pow2 (Js.exponent a)).
    { apply Qmult_le_compat_r; [| lra]. now rewrite <- Zle_Qle. }
    apply Qle_trans with (inject_Z (2 ^ 52) * Js.pow2 (Js.exponent b)).
    2:{ apply Qmult_le_compat_r; [| lra]. now rewrite <- Zle_Qle. }
    rewrite <- !pow2_nonneg_Z by lia. rewrite <- !pow2_plus.
    apply pow2_le. lia.
Qed.

Lemma Qnum_pos q : 0 < q <-> exists p, Qnum q = Zpos p.
Proof.
  destruct q as [n d]. unfold Qlt. cbn. split.
  - intro H. destruct n; try lia. now eexists.
  - intros [p ->]. lia.
Qed.

Lemma Qnum_neg q : q < 0 <-> exists p, Qnum q = Zneg p.
Proof.
  destruct q as [n d]. unfold Qlt. cbn. split.
  - intro H. destruct n; try lia. now eexists.
  - intros [p ->]. lia.
Qed.

Lemma Qnum_zero q : q == 0 <-> Qnum q = 0%Z.
Proof. destruct q as [n d]. unfold Qeq. cbn. lia. Qed.

Lemma double_pos q : 0 < q -> Js.double q = Js.nearest q.
Proof. intro H. apply Qnum_pos in H. destruct H as [p Hp]. unfold Js.double. now rewrite Hp. Qed.

Lemma double_neg q : q < 0 -> Js.double q = - Js.nearest (- q).
Proof. intro H. apply Qnum_neg in H. destruct H as [p Hp]. unfold Js.double. now rewrite Hp. Qed.

Lemma double_zero q : q == 0 -> Js.double q = 0.
Proof. intro H. apply Qnum_zero in H. unfold Js.double. now rewrite H. Qed.

Lemma Qsign_cases q : q < 0 \/ q == 0 \/ 0 < q.
Proof. destruct (Q_dec q 0) as [[H | H] | H]; auto. Qed.

Lemma double_mono a b : a <= b -> Js.double a <= Js.double b.
Proof.
  intro H.
  destruct (Qsign_cases a) as [Ha | [Ha | Ha]];
    destruct (Qsign_cases b) as [Hb | [Hb | Hb]];
    try (exfalso; lra);
    rewrite ?(double_pos _ Ha), ?(double_neg _ Ha), ?(double_zero _ Ha),
            ?(double_pos _ Hb), ?(double_neg _ Hb), ?(double_zero _ Hb).
  - assert (Ha' : 0 < - b) by lra. assert (Hab : - b <= - a) by lra.
    pose proof (nearest_mono _ _ Ha' Hab). lra.
  - assert (Ha' : 0 < - a) by lra. pose proof (nearest_nonneg _ Ha'). lra.
  - assert (Ha' : 0 < - a) by lra. pose proof (nearest_nonneg _ Ha').
    pose proof (nearest_nonneg _ Hb). lra.
  - lra.
  - now apply nearest_nonneg.
  - now apply nearest_mono.
Qed.

Lemma double_one : Js.double 1 == 1.
Proof. vm_compute. reflexivity. Qed.

Lemma double_ge_one q : 1 <= q -> 1 <= Js.double q.
Proof. intro H. rewrite <- double_one. now apply double_mono. Qed.

Lemma ilog2_unique q k : Js.pow2 k <= q -> q < Js.pow2 (k + 1) -> Js.ilog2 q = k.
Proof.
  intros L U. assert (Hq : 0 < q) by (pose proof (pow2_pos k); lra).
  destruct (ilog2_spec q Hq) as [L' U'].
  assert (H1 : Js.pow2 k < Js.pow2 (Js.ilog2 q + 1)) by lra.
  assert (H2 : Js.pow2 (Js.ilog2 q) < Js.pow2 (k + 1)) by lra.
  apply pow2_lt_inv in H1. apply pow2_lt_inv in H2. lia.
Qed.

Lemma ilog2_comp a b : 0 < a -> a == b -> Js.ilog2 a = Js.ilog2 b.
Proof.
  intros Ha E. assert (Hb : 0 < b) by now rewrite <- E.
  destruct (ilog2_spec b Hb) as [L U].
  apply ilog2_unique; now rewrite E.
Qed.

Lemma roundHalfEven_comp a b : a == b -> Js.roundHalfEven a = Js.roundHalfEven b.
Proof.
  intro E. unfold Js.roundHalfEven. rewrite (Qfloor_comp a b E).
  assert (C : Qcompare (a - inject_Z (Qfloor b)) (1 # 2)
              = Qcompare (b - inject_Z (Qfloor b)) (1 # 2)).
  { apply Qcompare_comp; [now rewrite E | reflexivity]. }
  now rewrite C.
Qed.

Lemma nearest_comp a b : 0 < a -> a == b -> Js.nearest a == Js.nearest b.
Proof.
  intros Ha E. unfold Js.nearest, Js.exponent. rewrite (ilog2_comp a b Ha E).
  set (e := Z.max (Js.ilog2 b - 52) (-1074)).
  assert (R : Js.roundHalfEven (a / Js.pow2 e) = Js.roundHalfEven (b / Js.pow2 e)).
  { apply roundHalfEven_comp. now rewrite E. }
  now rewrite R.
Qed.

Lemma double_comp a b : a == b -> Js.double a == Js.double b.
Proof.
  intro E. destruct (Qsign_cases a) as [Ha | [Ha | Ha]].
  - assert (Hb : b < 0) by now rewrite <- E.
    rewrite (double_neg a Ha), (double_neg b Hb).
    apply Qopp_comp. apply nearest_comp; [lra | now rewrite E].
  - assert (Hb : b == 0) by now rewrite <- E.
    now rewrite (double_zero a Ha), (double_zero b Hb).
  - assert (Hb : 0 < b) by now rewrite <- E.
    rewrite (double_pos a Ha), (double_pos b Hb). now apply nearest_comp.
Qed.

(** A value [m * 2^e] with a mantissa of at most 53 bits, and of exactly
    53 bits unless [e] is the least Js.exponent, is a Js.double. *)
Lemma nearest_representable m e :
  (0 < m <= 2 ^ 53)%Z -> (-1074 <= e)%Z -> (2 ^ 52 <= m \/ e = -1074)%Z ->
  Js.nearest (inject_Z m * Js.pow2 e) == inject_Z m * Js.pow2 e.
Proof.
  intros Hm He Hnorm. set (v := inject_Z m * Js.pow2 e).
  pose proof (pow2_pos e) as Pe.
  assert (Hm0 : 0 < inject_Z m) by (change 0 with (inject_Z 0); rewrite <- Zlt_Qlt; lia).
  assert (Hv : 0 < v) by (unfold v; apply Qmult_lt_0_compat; assumption).
  destruct (Z.eq_dec m (2 ^ 53)) as [Etop | Ntop].
  - (* the mantissa 2^53 is 2^52 one Js.exponent up *)
    assert (Ev : v == Js.pow2 (e + 53)).
    { unfold v. rewrite Etop, <- pow2_nonneg_Z by lia. rewrite <- pow2_plus.
      now replace (53 + e)%Z with (e + 53)%Z by lia. }
    assert (Ek : Js.ilog2 v = (e + 53)%Z).
    { apply ilog2_unique; rewrite Ev; [apply Qle_refl |].
      rewrite (pow2_succ (e + 53)). pose proof (pow2_pos (e + 53)). lra. }
    unfold Js.nearest, Js.exponent. rewrite Ek.
    replace (Z.max (e + 53 - 52) (-1074)) with (e + 1)%Z by lia.
    assert (Es : v / Js.pow2 (e + 1) == inject_Z (2 ^ 52)).
    { rewrite Ev, <- pow2_sub, <- pow2_nonneg_Z by lia.
      now replace (e + 53 - (e + 1))%Z with 52%Z by lia. }
    rewrite (roundHalfEven_comp _ _ Es), roundHalfEven_Z.
    rewrite Ev, <- pow2_nonneg_Z by lia. rewrite <- pow2_plus.
    now replace (52 + (e + 1))%Z with (e + 53)%Z by lia.
  - assert (Hup : v < Js.pow2 (e + 53)).
    { unfold v. replace (e + 53)%Z with (53 + e)%Z by lia. rewrite pow2_plus.
      apply Qmult_lt_compat_r; [exact Pe |].
      rewrite pow2_nonneg_Z by lia. rewrite <- Zlt_Qlt. lia. }
    assert (Ee : Js.exponent v = e).
    { unfold Js.exponent. destruct (ilog2_spec v Hv) as [L U].
      assert (H1 : Js.pow2 (Js.ilog2 v) < Js.pow2 (e + 53)) by lra.
      apply pow2_lt_inv in H1.
      destruct Hnorm as [Hn | Hn]; [| lia].
      assert (Hlo : Js.pow2 (e + 52) <= v).
      { unfold v. replace (e + 52)%Z with (52 + e)%Z by lia. rewrite pow2_plus.
        apply Qmult_le_compat_r; [| lra].
        rewrite pow2_nonneg_Z by lia. rewrite <- Zle_Qle. exact Hn. }
      assert (H2 : Js.pow2 (e + 52) < Js.pow2 (Js.ilog2 v + 1)) by lra.
      apply pow2_lt_inv in H2. lia. }
    unfold Js.nearest. rewrite Ee.
    assert (Es : v / Js.pow2 e == inject_Z m) by (unfold v; field; lra).
    now rewrite (roundHalfEven_comp _ _ Es), roundHalfEven_Z.
Qed.

Lemma nearest_idem q : 0 < q -> Js.double (Js.nearest q) == Js.nearest q.
Proof.
  intro Hq. pose proof (nearest_nonneg q Hq) as H0.
  pose proof (mantissa_upper q Hq) as Hup.
  set (m := Js.roundHalfEven (q / Js.pow2 (Js.exponent q))) in *.
  assert (En : Js.nearest q = inject_Z m * Js.pow2 (Js.exponent q)) by reflexivity.
  pose proof (pow2_pos (Js.exponent q)) as Pe.
  destruct (Z_lt_le_dec 0 m) as [Hm | Hm].
  - assert (Hpos : 0 < Js.nearest q).
    { rewrite En. apply Qmult_lt_0_compat; [| exact Pe].
      change 0 with (inject_Z 0). rewrite <- Zlt_Qlt. exact Hm. }
    rewrite (double_pos _ Hpos). rewrite En.
    apply nearest_representable; [lia | unfold Js.exponent; lia |].
    destruct (Z_le_gt_dec (-1074) (Js.ilog2 q - 52)) as [Hn | Hn].
    + left. exact (mantissa_lower q Hq Hn).
    + right. unfold Js.exponent. lia.
  - assert (Hz : Js.nearest q == 0).
    { assert (Hle : Js.nearest q <= 0).
      { rewrite En. setoid_replace 0 with (0 * Js.pow2 (Js.exponent q)) by ring.
        apply Qmult_le_compat_r; [| lra].
        change 0 with (inject_Z 0). rewrite <- Zle_Qle. exact Hm. }
      lra. }
    rewrite (double_zero _ Hz). now rewrite Hz.
Qed.

(** A Js.double is left as it is. *)
Lemma double_idem q : Js.double (Js.double q) == Js.double q.
Proof.
  destruct (Qsign_cases q) as [Hq | [Hq | Hq]].
  - rewrite (double_neg q Hq). assert (Hq' : 0 < - q) by lra.
    pose proof (nearest_idem _ Hq') as Hi.
    pose proof (nearest_nonneg _ Hq') as H0.
    set (w := Js.nearest (- q)) in *.
    destruct (Qsign_cases w) as [Hw | [Hw | Hw]]; [lra | |].
    + assert (Hz : - w == 0) by lra. rewrite (double_zero _ Hz). lra.
    + assert (Hn : - w < 0) by lra. rewrite (double_neg _ Hn).
      apply Qopp_comp.
      assert (Eww : - - w == w) by ring.
      assert (Hww : 0 < - - w) by lra.
      rewrite (nearest_comp _ _ Hww Eww).
      rewrite <- (double_pos _ Hw). exact Hi.
  - rewrite (double_zero q Hq). reflexivity.
  - rewrite (double_pos q Hq). now apply nearest_idem.
Qed.

(** The Js.nearest Js.double is within half a unit of the last mantissa bit. *)
Lemma nearest_error q :
  0 < q -> Qabs (Js.nearest q - q) <= (1 # 2) * Js.pow2 (Js.exponent q).
Proof.
  intro Hq. pose proof (pow2_pos (Js.exponent q)) as Pe.
  pose proof (roundHalfEven_near (q / Js.pow2 (Js.exponent q))) as Hn.
  apply Qabs_Qle_condition in Hn. apply Qabs_Qle_condition.
  unfold Js.nearest. set (m := inject_Z (Js.roundHalfEven (q / Js.pow2 (Js.exponent q)))) in *.
  set (p := Js.pow2 (Js.exponent q)) in *.
  assert (Eq' : q == q / p * p) by (field; lra).
  destruct Hn as [Hn1 Hn2].
  assert (H1 : (m - q / p) * p <= (1 # 2) * p) by (apply Qmult_le_compat_r; lra).
  assert (H2 : - (1 # 2) * p <= (m - q / p) * p) by (apply Qmult_le_compat_r; lra).
  assert (E2 : (m - q / p) * p == m * p - q).
  { rewrite Eq' at 2. ring. }
  rewrite E2 in H1, H2. split; lra.
Qed.

(** The rounding on some values: 0.1; the ties at [2^53 + 1] and
    [2^53 + 3], which go to the even mantissa; half of the least subnormal
    and one and a half of it; and two subtractions of the source. *)
Example double_examples :
  Js.double (1 # 10) == 3602879701896397 # 2 ^ 55
  /\ Js.double (- (1 # 10)) == - (3602879701896397 # 2 ^ 55)
  /\ Js.double (inject_Z (2 ^ 53 + 1)) == inject_Z (2 ^ 53)
  /\ Js.double (inject_Z (2 ^ 53 + 3)) == inject_Z (2 ^ 53 + 4)
  /\ Js.double (1 # 2 ^ 1075) == 0
  /\ Js.double (3 # 2 ^ 1075) == 1 # 2 ^ 1073
  /\ Js.sub (3 # 10) (1 # 10) == 7205759403792793 # 2 ^ 55
  /\ Js.sub 100 80 == 20.
Proof. vm_compute. repeat split. Qed.

End Doubles.

Set Implicit Arguments.

(* ------------------------------------------------------------------------- *)
(** ** Card-number masking *)

Section Masking.
Import CardUtils.

Lemma stripNonDigits_digits s c : In c (stripNonDigits s) -> isDigit c = true.
Proof. unfold stripNonDigits. intro H. apply filter_In in H. tauto. Qed.

Lemma star_not_digit : isDigit star = false.
Proof. reflexivity. Qed.

Lemma maskCardNumber_length s :
  List.length (maskCardNumber s) = List.length (stripNonDigits s).
Proof.
  unfold maskCardNumber, sliceHead, sliceTail.
  destruct (List.length (stripNonDigits s) <? 10)%nat eqn:E; [reflexivity |].
  apply Nat.ltb_ge in E.
  rewrite !length_app, repeat_length, length_firstn, length_skipn. lia.
Qed.

(** C10.  [maskCardNumber] first drops every character that is not a digit.
    When at least ten digits remain, the result is the first six digits, one
    star for each of the [n - 10] middle digits, and the last four digits
    (so position by position: the digit up to index 5 and from index [n - 4],
    a star in between).  When fewer than ten digits remain, the result is the
    digit string itself, in which no star occurs. *)
Theorem maskCardNumber_spec (cardNumber : jsstring) :
  let clean := filter isDigit cardNumber in
  let n := List.length clean in
  (10 <= n ->
     maskCardNumber cardNumber
       = firstn 6 clean ++ repeat star (n - 10) ++ skipn (n - 4) clean
     /\ List.length (maskCardNumber cardNumber) = n
     /\ forall i, i < n ->
          nth_error (maskCardNumber cardNumber) i
          = if (i <? 6) || (n - 4 <=? i) then nth_error clean i else Some star)
  /\ (n < 10 ->
        maskCardNumber cardNumber = clean
        /\ ~ In star (maskCardNumber cardNumber)).
Proof.
  intros clean n. split.
  - intro Hn.
    assert (Heq : maskCardNumber cardNumber
                  = firstn 6 clean ++ repeat star (n - 10) ++ skipn (n - 4) clean).
    { unfold maskCardNumber, sliceHead, sliceTail, stripNonDigits.
      fold clean. fold n.
      destruct (n <? 10) eqn:E; [apply Nat.ltb_lt in E; lia | reflexivity]. }
    split; [exact Heq |].
    split; [apply maskCardNumber_length |].
    intros i Hi. rewrite Heq.
    destruct (i <? 6) eqn:E6; cbn [orb].
    + rewrite nth_error_app1
        by (apply Nat.ltb_lt in E6; rewrite length_firstn; fold n; lia).
      rewrite nth_error_firstn, E6. reflexivity.
    + apply Nat.ltb_ge in E6.
      rewrite nth_error_app2 by (rewrite length_firstn; fold n; lia).
      rewrite length_firstn. fold n. replace (Nat.min 6 n) with 6 by lia.
      destruct (n - 4 <=? i) eqn:E4.
      * apply Nat.leb_le in E4.
        rewrite nth_error_app2 by (rewrite repeat_length; lia).
        rewrite repeat_length, nth_error_skipn. f_equal. lia.
      * apply Nat.leb_gt in E4.
        rewrite nth_error_app1 by (rewrite repeat_length; lia).
        apply nth_error_repeat. lia.
  - intro Hn.
    assert (Heq : maskCardNumber cardNumber = clean).
    { unfold maskCardNumber, stripNonDigits. fold clean. fold n.
      destruct (n <? 10) eqn:E; [reflexivity | apply Nat.ltb_ge in E; lia]. }
    split; [exact Heq |].
    rewrite Heq. intro Hin.
    apply (stripNonDigits_digits cardNumber) in Hin.
    rewrite star_not_digit in Hin. discriminate.
Qed.

End Masking.

(* ------------------------------------------------------------------------- *)
(** ** Store lemmas *)

Section StoreFacts.
Import Store.

Lemma find_map_update {A} (key : A -> nat) (k : nat) (f : A -> A) (l : list A) :
  (forall a, key (f a) = key a) ->
  find (fun a => key a =? k)
       (map (fun a => if key a =? k then f a else a) l)
  = option_map f (find (fun a => key a =? k) l).
Proof.
  intro Hkey. induction l as [| a l IH]; [reflexivity |].
  cbn [map find].
  destruct (key a =? k) eqn:E.
  - rewrite Hkey, E. reflexivity.
  - rewrite E. exact IH.
Qed.

Lemma find_map_other {A} (key : A -> nat) (k k' : nat) (f : A -> A) (l : list A) :
  k <> k' ->
  (forall a, key (f a) = key a) ->
  find (fun a => key a =? k)
       (map (fun a => if key a =? k' then f a else a) l)
  = find (fun a => key a =? k) l.
Proof.
  intros Hne Hkey. induction l as [| a l IH]; [reflexivity |].
  cbn [map find].
  destruct (key a =? k') eqn:E'.
  - rewrite Hkey. apply Nat.eqb_eq in E'.
    destruct (key a =? k) eqn:E.
    + apply Nat.eqb_eq in E. congruence.
    + exact IH.
  - destruct (key a =? k); [reflexivity | exact IH].
Qed.

Lemma findPurchase_updatePurchase db pid f :
  (forall p, p_id (f p) = p_id p) ->
  findPurchase (updatePurchase db pid f) pid = option_map f (findPurchase db pid).
Proof. intro H. unfold findPurchase, updatePurchase. cbn. now apply find_map_update. Qed.

Lemma findPurchase_updatePurchase_other db pid pid' f :
  pid <> pid' ->
  (forall p, p_id (f p) = p_id p) ->
  findPurchase (updatePurchase db pid' f) pid = findPurchase db pid.
Proof.
  intros Hne H. unfold findPurchase, updatePurchase. cbn. now apply find_map_other.
Qed.

Lemma findClaim_updateClaim db cid f :
  (forall c, c_id (f c) = c_id c) ->
  findClaim (updateClaim db cid f) cid = option_map f (findClaim db cid).
Proof. intro H. unfold findClaim, updateClaim. cbn. now apply find_map_update. Qed.

Lemma find_some_key {A} (key : A -> nat) (k : nat) (l : list A) (a : A) :
  find (fun a => key a =? k) l = Some a -> key a = k.
Proof. intro H. apply find_some in H. destruct H as [_ H]. now apply Nat.eqb_eq. Qed.

End StoreFacts.

(* ------------------------------------------------------------------------- *)
(** ** Price monitoring *)

Section PriceChecks.
Import Store PriceMonitor.
Local Open Scope Q_scope.

(** *** Scraped prices are positive *)

Lemma keepaPrice_pos latest c : keepaPrice latest = Some c -> 0 < c.
Proof.
  unfold keepaPrice. destruct latest as [l |]; [| discriminate].
  destruct (Js.gtb l 0) eqn:E; [| discriminate].
  intro H. injection H as <-. apply Js_gtb_gt in E.
  apply Qlt_shift_div_l; lra.
Qed.

Lemma parsePrice_pos parsed c : parsePrice parsed = Some c -> 0 < c.
Proof.
  unfold parsePrice. destruct parsed as [q |]; [| discriminate].
  destruct (Js.gtb q 0) eqn:E; [| discriminate].
  intro H. injection H as <-. now apply Js_gtb_gt in E.
Qed.

Lemma trySelectors_pos ls price c :
  (forall q, price = Some q -> 0 < q) ->
  trySelectors ls price = Some c -> 0 < c.
Proof.
  revert price. induction ls as [| l ls IH]; intros price Hp H.
  - now apply Hp.
  - destruct l as [| | t]; cbn [trySelectors] in H; try (now apply (IH price)).
    destruct (Js.truthy (parsePrice t)).
    + now apply (parsePrice_pos t).
    + apply (IH (parsePrice t)); [| exact H].
      intros q Hq. now apply (parsePrice_pos t).
Qed.

Lemma tryGenericSelectors_pos ls price c :
  (forall q, price = Some q -> 0 < q) ->
  tryGenericSelectors ls price = Some c -> 0 < c.
Proof.
  revert price. induction ls as [| l ls IH]; intros price Hp H.
  - now apply Hp.
  - destruct l as [| | t]; cbn [tryGenericSelectors] in H; try (now apply (IH price)).
    match type of H with (if ?b then _ else _) = _ => destruct b end.
    + now apply (parsePrice_pos t).
    + apply (IH (parsePrice t)); [| exact H].
      intros q Hq. now apply (parsePrice_pos t).
Qed.

Lemma scrapePrice_pos env c : scrapePrice env = Some c -> 0 < c.
Proof.
  unfold scrapePrice.
  destruct (Js.truthy (if se_amazonAsin env then keepaPrice (se_keepaLatest env) else None)).
  - destruct (se_amazonAsin env); [apply keepaPrice_pos | discriminate].
  - destruct (se_pageFails env); [discriminate |].
    destruct (se_hasSelectors env).
    + apply trySelectors_pos. discriminate.
    + apply tryGenericSelectors_pos. discriminate.
Qed.

(** *** The purchase row after a check *)

Lemma check_success_row db now env pid purchase url c :
  findPurchase db pid = Some purchase ->
  Js.truthyString (p_productUrl purchase) = Some url ->
  scrapePrice env = Some c ->
  findPurchase (fst (checkPriceForPurchase db now env pid)) pid
  = Some (rowAfterCheck db now purchase c).
Proof.
  intros Hf Hu Hs. unfold checkPriceForPurchase. rewrite Hf, Hu, Hs. cbn [fst].
  rewrite findPurchase_updatePurchase.
  - replace (findPurchase _ pid) with (findPurchase db pid)
      by (destruct (Js.gtb _ _ && _); reflexivity).
    rewrite Hf. cbn [option_map]. unfold rowAfterCheck.
    destruct (Js.gtb _ _ && _); destruct (isNewLowest purchase c); reflexivity.
  - intro p. destruct (Js.gtb _ _ && _); destruct (isNewLowest purchase c); reflexivity.
Qed.

Lemma threshold_spec db purchase :
  Spec.thresholdsAccepted db ->
  threshold (findUser db (p_userId purchase)) = Spec.userThreshold db purchase
  /\ 1 <= Spec.userThreshold db purchase.
Proof.
  intro Hpos. unfold threshold, Spec.userThreshold.
  destruct (findUser db (p_userId purchase)) as [u |] eqn:Hu.
  - destruct (u_priceDropThreshold u) as [t |] eqn:Ht.
    + assert (1 <= t) as Ht1.
      { apply (Hpos u t); [| exact Ht]. unfold findUser in Hu.
        apply find_some in Hu. tauto. }
      assert (0 < t) as Ht0 by lra.
      unfold Js.or. rewrite (Js_truthy_pos Ht0). cbn. split; [reflexivity | exact Ht1].
    + cbn. split; [reflexivity | lra].
  - cbn. split; [reflexivity | lra].
Qed.

(** C5, as the code has it.  A price check that fetches a current price
    sets the purchase's status from the drop and the user's threshold (5
    when none is stored), both as the source has them, in doubles: [drop] is
    the difference of the two prices as doubles, rounded to a double, and
    the threshold is read as a double.  The status becomes CLAIM_ELIGIBLE
    when [drop >= threshold] and the protection window is active,
    PRICE_DROP_DETECTED when [drop >= threshold] and it is not, and stays
    as it was otherwise.  Stored thresholds are those the settings route
    accepts, from 1 up. *)
Theorem checkPrice_status_decision
        (db : DB) (now : instant) (env : ScrapeEnv) (pid : id)
        (purchase : Purchase) (url : string) (currentPrice : Q) :
  Spec.thresholdsAccepted db ->
  findPurchase db pid = Some purchase ->
  Js.truthyString (p_productUrl purchase) = Some url ->
  scrapePrice env = Some currentPrice ->
  let drop := Js.sub (p_purchasePrice purchase) currentPrice in
  let threshold := Js.double (Spec.userThreshold db purchase) in
  exists purchase',
    findPurchase (fst (checkPriceForPurchase db now env pid)) pid = Some purchase'
    /\ p_status purchase'
       = if Qle_bool threshold drop
         then (if Spec.windowActive purchase now
               then PurchaseStatus.CLAIM_ELIGIBLE
               else PurchaseStatus.PRICE_DROP_DETECTED)
         else p_status purchase.
Proof.
  intros Hpos Hf Hu Hs drop thr.
  exists (rowAfterCheck db now purchase currentPrice).
  split; [now apply (check_success_row db now env pid Hf Hu) |].
  destruct (threshold_spec purchase Hpos) as [Hthr Hthr1].
  pose proof (double_ge_one _ Hthr1) as Hthr0. fold thr in Hthr0.
  unfold rowAfterCheck. rewrite Hthr. fold drop. fold thr.
  change (isWithinProtection purchase now) with (Spec.windowActive purchase now).
  unfold Js.geb.
  destruct (Qle_bool thr drop) eqn:E.
  - apply Qle_bool_iff in E.
    assert (Js.gtb drop 0 = true) as -> by (apply Js_gtb_gt; lra).
    cbn [andb]. destruct (isNewLowest purchase currentPrice); reflexivity.
  - rewrite andb_false_r. destruct (isNewLowest purchase currentPrice); reflexivity.
Qed.

End PriceChecks.

Section PriceDropNotices.
Import Store PriceMonitor.
Local Open Scope Q_scope.

(** C5, exercised: the scenario of the specification (bought at 100.00,
    seen at 80.00, threshold 5.00, window open) ends CLAIM_ELIGIBLE. *)
Lemma checkPrice_status_decision_witness :
  exists purchase',
    findPurchase
      (fst (checkPriceForPurchase Samples.monitored 10%Z (Samples.pageShowing 80) 3%nat))
      3%nat
    = Some purchase'
    /\ p_status purchase' = PurchaseStatus.CLAIM_ELIGIBLE.
Proof.
  refine (@checkPrice_status_decision Samples.monitored 10%Z
            (Samples.pageShowing 80) 3%nat
            (Samples.purchase 100 PurchaseStatus.MONITORING (Some 1000%Z))
            "https://shop.example/headphones"%string 80 _ _ _ _).
  - intros u t [Hu | []] Ht. subst u. injection Ht as <-. discriminate.
  - reflexivity.
  - reflexivity.
  - reflexivity.
Defined.

(** C5, refuted as stated: bought at 8.20 and seen at 3.20, with the
    threshold at 5 and the protection window open.  The drop is 5.00, which
    is the threshold; the doubles nearest to 8.20 and 3.20 differ by
    4.999999999999999 (5 - 2^-50), so the check leaves the purchase
    MONITORING and writes no notification. *)
Lemma boundary_drop_is_not_eligible :
  let db := Samples.boughtAt (41 # 5) in
  let bought := Samples.purchaseAt (41 # 5) in
  let db' := fst (checkPriceForPurchase db 10%Z (Samples.pageShowing (16 # 5)) 3%nat) in
  findPurchase db 3%nat = Some bought
  /\ Spec.userThreshold db bought == 5
  /\ p_purchasePrice bought - (16 # 5) == 5
  /\ Spec.windowActive bought 10%Z = true
  /\ Js.sub (p_purchasePrice bought) (16 # 5) == 5 - (1 # 2 ^ 50)
  /\ option_map p_status (findPurchase db' 3%nat) = Some PurchaseStatus.MONITORING
  /\ notifications db' = notifications db.
Proof. vm_compute. repeat split. Qed.

(** The notification a qualifying check creates. *)
Lemma check_success_notifications db now env pid purchase url c :
  findPurchase db pid = Some purchase ->
  Js.truthyString (p_productUrl purchase) = Some url ->
  scrapePrice env = Some c ->
  notifications (fst (checkPriceForPurchase db now env pid))
  = (notifications db ++
     if Js.gtb (Js.sub (p_purchasePrice purchase) c) 0
        && Js.geb (Js.sub (p_purchasePrice purchase) c)
                  (Js.double (threshold (findUser db (p_userId purchase))))
     then [{| n_userId := p_userId purchase; n_type := PRICE_DROP;
              n_title := "Price Drop Detected!";
              n_purchaseId := Some pid; n_claimId := None |}]
     else [])%list.
Proof.
  intros Hf Hu Hs. unfold checkPriceForPurchase. rewrite Hf, Hu, Hs. cbn [fst].
  destruct (Js.gtb _ _ && _); cbn; [reflexivity | now rewrite app_nil_r].
Qed.

Lemma check_keeps_users db now env pid :
  users (fst (checkPriceForPurchase db now env pid)) = users db.
Proof.
  unfold checkPriceForPurchase.
  destruct (findPurchase db pid) as [p |]; [| reflexivity].
  destruct (Js.truthyString (p_productUrl p)); [| reflexivity].
  destruct (scrapePrice env); [| reflexivity].
  cbn [fst]. destruct (Js.gtb _ _ && _); reflexivity.
Qed.

Lemma rowAfterCheck_keeps db now purchase c :
  p_id (rowAfterCheck db now purchase c) = p_id purchase
  /\ p_userId (rowAfterCheck db now purchase c) = p_userId purchase
  /\ p_purchasePrice (rowAfterCheck db now purchase c) = p_purchasePrice purchase
  /\ p_productUrl (rowAfterCheck db now purchase c) = p_productUrl purchase
  /\ p_protectionEnds (rowAfterCheck db now purchase c) = p_protectionEnds purchase
  /\ p_currentPrice (rowAfterCheck db now purchase c) = Some c.
Proof.
  unfold rowAfterCheck.
  destruct (Js.gtb _ _ && _); destruct (isNewLowest purchase c); repeat split.
Qed.

(** C7, as the code has it.  Every price check that fetches a price whose
    drop qualifies ([drop > 0] and [drop >= threshold], on doubles as the
    source computes them) appends exactly one PRICE_DROP notification for
    the purchase, and a check whose drop does not qualify appends none;
    nothing compares the price with the one seen at the previous check, so a
    later check that fetches the same price qualifies again and appends one
    more notification. *)
Theorem checkPrice_notifies_each_qualifying_check
        (db : DB) (now : instant) (env : ScrapeEnv) (pid : id)
        (purchase : Purchase) (url : string) (c : Q) :
  findPurchase db pid = Some purchase ->
  Js.truthyString (p_productUrl purchase) = Some url ->
  scrapePrice env = Some c ->
  let db' := fst (checkPriceForPurchase db now env pid) in
  let drop := Js.sub (p_purchasePrice purchase) c in
  let qualifies :=
    Js.gtb drop 0
    && Js.geb drop (Js.double (threshold (findUser db (p_userId purchase)))) in
  (qualifies = true ->
     exists n, notifications db' = (notifications db ++ [n])%list
               /\ n_type n = PRICE_DROP /\ n_purchaseId n = Some pid)
  /\ (qualifies = false -> notifications db' = notifications db)
  /\ (qualifies = true ->
      forall now2 env2, scrapePrice env2 = Some c ->
        exists n2,
          notifications (fst (checkPriceForPurchase db' now2 env2 pid))
          = (notifications db' ++ [n2])%list
          /\ n_type n2 = PRICE_DROP /\ n_purchaseId n2 = Some pid).
Proof.
  intros Hf Hu Hs db' drop qualifies.
  pose proof (check_success_notifications db now env pid Hf Hu Hs) as Hn.
  fold db' in Hn. fold drop in Hn. fold qualifies in Hn.
  split; [| split].
  - intro Hq. rewrite Hq in Hn. eexists. split; [exact Hn |]. split; reflexivity.
  - intro Hq. rewrite Hq in Hn. now rewrite app_nil_r in Hn.
  - intros Hq now2 env2 Hs2.
    pose proof (check_success_row db now env pid Hf Hu Hs) as Hrow. fold db' in Hrow.
    destruct (rowAfterCheck_keeps db now purchase c)
      as (_ & Huid & Hprice & Hurl & _ & _).
    assert (Hurl' : Js.truthyString (p_productUrl (rowAfterCheck db now purchase c))
                    = Some url)
      by (now rewrite Hurl).
    pose proof (check_success_notifications db' now2 env2 pid Hrow Hurl' Hs2) as Hn2.
    rewrite Hprice, Huid in Hn2.
    assert (Husers : findUser db' (p_userId purchase) = findUser db (p_userId purchase)).
    { unfold findUser, db'. now rewrite check_keeps_users. }
    rewrite Husers in Hn2. fold drop in Hn2. fold qualifies in Hn2. rewrite Hq in Hn2.
    eexists. split; [exact Hn2 |]. split; reflexivity.
Qed.

(** C7, exercised on the sample purchase (bought at 100.00, seen at 80.00
    twice in a row). *)
Lemma checkPrice_notifies_each_qualifying_check_witness :
  exists n,
    notifications
      (fst (checkPriceForPurchase Samples.monitored 10%Z (Samples.pageShowing 80) 3%nat))
    = (notifications Samples.monitored ++ [n])%list
    /\ n_type n = PRICE_DROP /\ n_purchaseId n = Some 3%nat.
Proof.
  refine (proj1 (@checkPrice_notifies_each_qualifying_check Samples.monitored 10%Z
                   (Samples.pageShowing 80) 3%nat
                   (Samples.purchase 100 PurchaseStatus.MONITORING (Some 1000%Z))
                   "https://shop.example/headphones"%string 80 _ _ _) _);
    reflexivity.
Defined.

(** C7, refuted as stated: two checks in a row both see 80.00 (the price has
    not moved between them), and each of them leaves a notification. *)
Lemma unchanged_price_notified_again :
  let db1 := fst (checkPriceForPurchase Samples.monitored 10%Z (Samples.pageShowing 80) 3%nat) in
  let db2 := fst (checkPriceForPurchase db1 20%Z (Samples.pageShowing 80) 3%nat) in
  Spec.observedPrices db2 3%nat = [100; 80; 80]
  /\ List.length (Spec.priceDropNotices Samples.monitored 3%nat) = 0%nat
  /\ List.length (Spec.priceDropNotices db1 3%nat) = 1%nat
  /\ List.length (Spec.priceDropNotices db2 3%nat) = 2%nat.
Proof. vm_compute. repeat split. Qed.

End PriceDropNotices.

(* ------------------------------------------------------------------------- *)
(** ** The lowest price is the minimum of the observations *)

Section LowestPrice.
Import Store PriceMonitor.
Local Open Scope Q_scope.


Lemma check_failed db now env pid :
  fetched db env pid = None -> fst (checkPriceForPurchase db now env pid) = db.
Proof.
  unfold fetched, checkPriceForPurchase.
  destruct (findPurchase db pid) as [p |]; [| reflexivity].
  destruct (Js.truthyString (p_productUrl p)); [| reflexivity].
  destruct (scrapePrice env); [discriminate | reflexivity].
Qed.

Lemma fetched_inv db env pid purchase c :
  fetched db env pid = Some (purchase, c) ->
  findPurchase db pid = Some purchase
  /\ (exists url, Js.truthyString (p_productUrl purchase) = Some url)
  /\ scrapePrice env = Some c.
Proof.
  unfold fetched.
  destruct (findPurchase db pid) as [p |]; [| discriminate].
  destruct (Js.truthyString (p_productUrl p)) as [url |] eqn:Hu; [| discriminate].
  destruct (scrapePrice env) as [q |]; [| discriminate].
  intro H. injection H as <- <-. split; [reflexivity |]. split; [| reflexivity].
  now exists url.
Qed.

Lemma check_observedPrices db now env pid pid0 :
  Spec.observedPrices (fst (checkPriceForPurchase db now env pid)) pid0
  = (Spec.observedPrices db pid0 ++
     match fetched db env pid with
     | Some (_, c) => if (pid =? pid0)%nat then [c] else []
     | None => []
     end)%list.
Proof.
  destruct (fetched db env pid) as [[purchase c] |] eqn:Hf.
  - apply fetched_inv in Hf. destruct Hf as (Hp & [url Hu] & Hs).
    unfold checkPriceForPurchase. rewrite Hp, Hu, Hs. cbn [fst].
    unfold Spec.observedPrices, observations.
    replace (priceHistory (updatePurchase _ _ _))
      with (priceHistory db ++
            [{| ph_purchaseId := pid; ph_price := c;
                ph_source := orDefault (se_domain env) "web"%string;
                ph_checkedAt := now |}])%list
      by (destruct (Js.gtb _ _ && _); reflexivity).
    rewrite filter_app, map_app. f_equal. cbn.
    destruct (pid =? pid0)%nat; reflexivity.
  - rewrite check_failed by exact Hf. now rewrite app_nil_r.
Qed.

Lemma check_row_other db now env pid pid0 :
  pid0 <> pid ->
  findPurchase (fst (checkPriceForPurchase db now env pid)) pid0 = findPurchase db pid0.
Proof.
  intro Hne. unfold checkPriceForPurchase.
  destruct (findPurchase db pid) as [p |]; [| reflexivity].
  destruct (Js.truthyString (p_productUrl p)); [| reflexivity].
  destruct (scrapePrice env); [| reflexivity].
  cbn [fst]. rewrite findPurchase_updatePurchase_other.
  - destruct (Js.gtb _ _ && _); reflexivity.
  - exact Hne.
  - intro p0. destruct (Js.gtb _ _ && _); destruct (isNewLowest p q); reflexivity.
Qed.








End LowestPrice.

Section Seeding.
Import Store EmailParser.
Local Open Scope Q_scope.

Lemma find_app_l {A} (f : A -> bool) (l l' : list A) :
  find f (l ++ l') = match find f l with
                     | Some a => Some a
                     | None => find f l'
                     end.
Proof.
  induction l as [| a l IH]; [reflexivity |].
  cbn [app find]. destruct (f a); [reflexivity | exact IH].
Qed.













End Seeding.

Section LowestPriceClaim.
Import Store PriceMonitor EmailParser.
Local Open Scope Q_scope.



End LowestPriceClaim.

(* ------------------------------------------------------------------------- *)
(** ** Idempotent extraction *)

Section Idempotence.
Import Store EmailParser.

Lemma linked_found db uid eid :
  (exists p, In p (purchases db) /\ p_userId p = uid /\ p_sourceEmailId p = Some eid) ->
  exists p, findPurchaseBySourceEmail db uid eid = Some p.
Proof.
  intros (p & Hin & Hu & He). unfold findPurchaseBySourceEmail.
  destruct (find _ (purchases db)) as [q |] eqn:Hf; [now exists q |].
  exfalso. pose proof (find_none _ _ Hf p Hin) as Hn. cbn beta in Hn.
  rewrite Hu, He, Nat.eqb_refl in Hn. cbn in Hn. now rewrite String.eqb_refl in Hn.
Qed.

(** C3.  When the store already holds a purchase of the user whose
    sourceEmailId is the message's id, running either extraction strategy on
    that message again answers [null] and leaves the store as it was: no
    second purchase, no price history row, no card, no notification. *)
Theorem extraction_idempotent
        (defaults : SchemaDefaults) (db : DB) (now emailDate : instant)
        (aiResult : AiResult) (facts : EmailFacts) (userId : id) (emailId : string) :
  (exists p, In p (purchases db)
             /\ p_userId p = userId /\ p_sourceEmailId p = Some emailId) ->
  extractPurchaseWithAI db now emailDate aiResult userId emailId = (db, Ok None)
  /\ extractPurchaseFromEmail defaults db now facts userId emailId = (db, None).
Proof.
  intro Hlinked. destruct (@linked_found db userId emailId Hlinked) as [p Hp]. split.
  - unfold extractPurchaseWithAI. now rewrite Hp.
  - unfold extractPurchaseFromEmail.
    destruct (Js.truthyString (ef_retailer facts)); [| reflexivity].
    now rewrite Hp.
Qed.

(** C3, exercised: the message "msg-1" went through the AI strategy once;
    going through either strategy again changes nothing. *)
Lemma extraction_idempotent_witness :
  extractPurchaseWithAI (fst Samples.extracted) 6%Z 1%Z (Samples.receipt 100%Q) 1 "msg-1"
  = (fst Samples.extracted, Ok None)
  /\ extractPurchaseFromEmail Samples.schema (fst Samples.extracted) 6%Z
       Samples.confirmation 1 "msg-1"
     = (fst Samples.extracted, None).
Proof.
  refine (@extraction_idempotent Samples.schema (fst Samples.extracted) 6%Z 1%Z
            (Samples.receipt 100%Q) Samples.confirmation 1 "msg-1"%string _).
  exists (nth 0 (purchases (fst Samples.extracted))
              (Samples.purchase 0%Q PurchaseStatus.MONITORING None)).
  split; [left; reflexivity | split; reflexivity].
Defined.

(** The purchases a run of the AI strategy creates are stored under the
    user and the message's id. *)
Lemma processAiItem_linked now uid eid edate ai db created item db' created' :
  Forall (fun p => In p (purchases db)
                   /\ p_userId p = uid /\ p_sourceEmailId p = Some eid) created ->
  processAiItem now uid eid edate ai (db, created) item = (db', Ok created') ->
  Forall (fun p => In p (purchases db')
                   /\ p_userId p = uid /\ p_sourceEmailId p = Some eid) created'.
Proof.
  intro H. unfold processAiItem.
  destruct (negb (Js.nonEmpty (ai_productName item)) || priceLeqZero (ai_price item)).
  - intro E. injection E as <- <-. exact H.
  - destruct (priceColumn (ai_price item)) as [price |]; [| discriminate].
    cbn [createPurchase].
    destruct (hasToFixed (ai_price item)); [| discriminate].
    intro E. injection E as <- <-. apply Forall_app. split.
    + eapply Forall_impl; [| exact H]. cbn. intros p (Hin & Hu & He).
      split; [| now split]. apply in_or_app. now left.
    + constructor; [| constructor]. cbn. split; [| now split].
      apply in_or_app. right. now left.
Qed.

Lemma processAiItems_linked now uid eid edate ai items db created db' created' :
  Forall (fun p => In p (purchases db)
                   /\ p_userId p = uid /\ p_sourceEmailId p = Some eid) created ->
  processAiItems now uid eid edate ai items (db, created) = (db', Ok created') ->
  Forall (fun p => In p (purchases db')
                   /\ p_userId p = uid /\ p_sourceEmailId p = Some eid) created'.
Proof.
  revert db created.
  induction items as [| item items IH]; intros db created H Hrun.
  - cbn in Hrun. injection Hrun as <- <-. exact H.
  - cbn [processAiItems] in Hrun.
    destruct (processAiItem now uid eid edate ai (db, created) item)
      as [db1 [created1 | e]] eqn:Hstep; [| discriminate].
    pose proof (@processAiItem_linked _ _ _ _ _ _ _ _ _ _ H Hstep) as H1.
    exact (IH db1 created1 H1 Hrun).
Qed.

(** Running the AI strategy a second time on a message it created purchases
    from creates nothing, whatever the parser answers the second time. *)
Lemma extractPurchaseWithAI_twice
      db now edate ai uid eid db1 created now' edate' ai' :
  extractPurchaseWithAI db now edate ai uid eid = (db1, Ok (Some created)) ->
  extractPurchaseWithAI db1 now' edate' ai' uid eid = (db1, Ok None).
Proof.
  intro Hex. unfold extractPurchaseWithAI in Hex.
  destruct (findPurchaseBySourceEmail db uid eid); [discriminate |].
  destruct (negb (ai_isPurchase ai)); [discriminate |].
  destruct (processAiItems now uid eid edate ai (ai_items ai) (db, []))
    as [db' [created' | e]] eqn:Hrun; [| discriminate].
  pose proof (@processAiItems_linked _ _ _ _ _ _ _ _ _ _ (Forall_nil _) Hrun) as H.
  destruct created' as [| c0 cs]; [discriminate |].
  injection Hex as <- <-.
  inversion H as [| ? ? Hc0 _]; subst.
  destruct (@linked_found db' uid eid (ex_intro _ c0 Hc0)) as [p Hp].
  unfold extractPurchaseWithAI. now rewrite Hp.
Qed.

(** The same for the deterministic strategy. *)
Lemma extractPurchaseFromEmail_twice
      defaults db now facts uid eid db1 p now' facts' :
  extractPurchaseFromEmail defaults db now facts uid eid = (db1, Some p) ->
  extractPurchaseFromEmail defaults db1 now' facts' uid eid = (db1, None).
Proof.
  intro Hex. unfold extractPurchaseFromEmail in Hex.
  destruct (Js.truthyString (ef_retailer facts)) as [retailer |]; [| discriminate].
  destruct (findPurchaseBySourceEmail db uid eid); [discriminate |].
  destruct (candidatePrices (ef_prices facts)) as [| price0 rest]; [discriminate |].
  destruct (matchCardToUser defaults db uid (ef_cardLast4 facts)
                            (ef_detectedNetwork facts)) as [dbc matchedCard].
  cbn [createPurchase] in Hex. injection Hex as <- <-.
  match goal with
  | |- extractPurchaseFromEmail _ ?d _ _ _ _ = _ => set (db4 := d)
  end.
  assert (exists q, findPurchaseBySourceEmail db4 uid eid = Some q) as [q Hq].
  { apply linked_found. eexists. split; [| split].
    - cbn. apply in_or_app. right. left. reflexivity.
    - reflexivity.
    - reflexivity. }
  unfold extractPurchaseFromEmail.
  destruct (Js.truthyString (ef_retailer facts')); [| reflexivity].
  now rewrite Hq.
Qed.

End Idempotence.

(* ------------------------------------------------------------------------- *)
(** ** Card matching: the auto-provisioned card *)

Section CardMatcher.
Import Store EmailParser.

Lemma no_matching_card db userId last4 :
  (forall c, In c (creditCards db) -> cc_userId c = userId -> cc_lastFour c <> last4) ->
  find (fun card => String.eqb (cc_lastFour card) last4) (cardsOfUser db userId) = None.
Proof.
  intro H. unfold cardsOfUser.
  destruct (find _ _) as [c |] eqn:Hf; [| reflexivity].
  exfalso. apply find_some in Hf. destruct Hf as [Hin Heq].
  apply filter_In in Hin. destruct Hin as [Hin Hu].
  apply Nat.eqb_eq in Hu. apply String.eqb_eq in Heq.
  exact (H c Hin Hu Heq).
Qed.

(** C8, as the code has it.  When the last four digits match none of the
    user's cards and no network or issuer pattern matches the text, the
    matcher stores a new card with issuer "Unknown", network "unknown", card
    type OTHER, 90 days of protection (the [default] entry of
    DEFAULT_PROTECTION_DAYS), claim method EMAIL and autoClaimEnabled true;
    it passes no maximum claim amount, so the column takes the storage
    default. *)
Theorem unknown_hint_auto_provisioned_card
        (defaults : SchemaDefaults) (db : DB) (userId : id) (last4 : string) :
  last4 <> EmptyString ->
  (forall c, In c (creditCards db) -> cc_userId c = userId -> cc_lastFour c <> last4) ->
  exists card,
    snd (matchCardToUser defaults db userId (Some last4) None) = Some card
    /\ In card (creditCards (fst (matchCardToUser defaults db userId (Some last4) None)))
    /\ cc_userId card = userId
    /\ cc_lastFour card = last4
    /\ cc_issuer card = "Unknown"%string
    /\ cc_network card = Some "unknown"%string
    /\ cc_cardType card = OTHER
    /\ cc_protectionDays card = DEFAULT_PROTECTION_DAYS_default
    /\ cc_protectionDays card = 90%Z
    /\ cd_maxClaimAmount (autoCreatedCardData userId last4 None) = None
    /\ cc_maxClaimAmount card = default_maxClaimAmount defaults
    /\ cc_claimMethod card = EMAIL
    /\ cc_autoClaimEnabled card = true.
Proof.
  intros Hne Hnone.
  unfold matchCardToUser, Js.truthyString, Js.nonEmpty.
  assert (String.eqb last4 "" = false) as -> by (now apply String.eqb_neq).
  cbn [negb]. rewrite (no_matching_card db Hnone).
  cbn [createCreditCard fst snd]. eexists. split; [reflexivity |].
  split; [cbn; apply in_or_app; right; left; reflexivity |].
  repeat split.
Qed.

(** C8, exercised: user 1 has no card; a message shows "ending in 4242" and
    names no network. *)
Lemma unknown_hint_auto_provisioned_card_witness :
  exists card,
    snd (matchCardToUser Samples.schema emptyDB 1 (Some "4242"%string) None) = Some card
    /\ cc_issuer card = "Unknown"%string
    /\ cc_protectionDays card = 90%Z
    /\ cc_maxClaimAmount card = 500%Q
    /\ cc_autoClaimEnabled card = true.
Proof.
  destruct (@unknown_hint_auto_provisioned_card Samples.schema emptyDB 1 "4242"%string)
    as (card & Hc & _ & _ & _ & Hi & _ & _ & _ & Hd & _ & Hm & _ & Ha).
  - discriminate.
  - intros c [].
  - exists card. repeat split; assumption.
Defined.

(** C8, refuted as stated: for an unknown hint the auto-provisioned card
    carries 90 days of protection, not 60, and the matcher sets no $250 cap
    (it sets no cap at all). *)
Lemma unknown_hint_card_is_not_60_days :
  option_map cc_protectionDays
    (snd (matchCardToUser Samples.schema emptyDB 1 (Some "4242"%string) None))
  = Some 90%Z
  /\ 90%Z <> 60%Z
  /\ cd_maxClaimAmount (autoCreatedCardData 1 "4242" None) = None
  /\ option_map cc_issuer
       (snd (matchCardToUser Samples.schema emptyDB 1 (Some "4242"%string) None))
     = Some "Unknown"%string
  /\ option_map cc_autoClaimEnabled
       (snd (matchCardToUser Samples.schema emptyDB 1 (Some "4242"%string) None))
     = Some true.
Proof. repeat split. discriminate. Qed.

End CardMatcher.

(* ------------------------------------------------------------------------- *)
(** ** Claim creation: the claimed amount *)

Section ClaimAmount.
Import Store Filing.
Local Open Scope Q_scope.

(** Filing by e-mail rewrites claim rows without touching their amounts. *)
Lemma service_fileClaimViaEmail_claims db now env cid :
  exists g, Spec.keepsAmounts g
            /\ claims (store (AutoClaimService.fileClaimViaEmail db now env cid))
               = map g (claims db).
Proof.
  unfold AutoClaimService.fileClaimViaEmail.
  destruct (findClaim db cid) as [claim |];
    [| exists (fun c => c); split; [repeat split | now rewrite map_id]].
  destruct (cardOf db (c_creditCardId claim)) as [card |];
    [| exists (fun c => c); split; [repeat split | now rewrite map_id]].
  destruct (AutoClaimService.resolveClaimEmail env card) as [claimEmail |];
    [| exists (fun c => c); split; [repeat split | now rewrite map_id]].
  destruct (AutoClaimService.prepareAndSend env _) as [tried [[[doc shot] mid] | msg]].
  - eexists. split; [| cbn; reflexivity].
    intro c. cbn beta. destruct (c_id c =? cid)%nat; repeat split.
  - eexists. split; [| cbn; reflexivity].
    intro c. cbn beta. destruct (c_id c =? cid)%nat; repeat split.
Qed.

(** C2, as the code has it.  A claim created by the claims POST route or by
    [createAndFileClaim] stores
    [priceDifference = min(purchasePrice - newPrice, maxClaimAmount)], where
    [newPrice] is the purchase's lowest recorded price (in
    [createAndFileClaim]: the current price when no non-zero lowest price is
    stored); creation is refused with an error when
    [purchasePrice - newPrice] is not positive; and the stored
    [priceDifference] is positive whenever the card's [maxClaimAmount] is. *)
Theorem claim_amount_is_capped_difference :
  (forall db now user pid claim,
      snd (ClaimsRoute.post db now user pid) = Ok claim ->
      exists purchase card,
        findPurchaseOfUser db pid user = Some purchase
        /\ cardOf db (p_creditCardId purchase) = Some card
        /\ In claim (claims (fst (ClaimsRoute.post db now user pid)))
        /\ c_originalPrice claim = p_purchasePrice purchase
        /\ c_newPrice claim = p_lowestPrice purchase
        /\ c_priceDifference claim
           = Js.min (p_purchasePrice purchase - Js.toNumber (p_lowestPrice purchase))
                    (cc_maxClaimAmount card)
        /\ 0 < p_purchasePrice purchase - Js.toNumber (p_lowestPrice purchase)
        /\ (0 < cc_maxClaimAmount card -> 0 < c_priceDifference claim))
  /\ (forall db now user pid purchase,
         findPurchaseOfUser db pid user = Some purchase ->
         p_purchasePrice purchase - Js.toNumber (p_lowestPrice purchase) <= 0 ->
         exists e, ClaimsRoute.post db now user pid = (db, Err e))
  /\ (forall db now env pid cid purchase card,
         findPurchase db pid = Some purchase ->
         findCard db cid = Some card ->
         let newPrice := Js.or (p_lowestPrice purchase) (p_currentPrice purchase) in
         let diff := p_purchasePrice purchase - Js.toNumber newPrice in
         let run := AutoClaimService.createAndFileClaim db now env pid cid in
         (diff <= 0 ->
            run = {| store := db; attempts := [];
                     value := Err "No price drop to claim"%string |})
         /\ (0 < diff ->
             exists claim,
               In claim (claims (store run))
               /\ c_id claim = nextId db
               /\ c_purchaseId claim = p_id purchase
               /\ c_originalPrice claim = p_purchasePrice purchase
               /\ c_newPrice claim = newPrice
               /\ c_priceDifference claim = Js.min diff (cc_maxClaimAmount card)
               /\ (0 < cc_maxClaimAmount card -> 0 < c_priceDifference claim)
               /\ List.length (claims (store run)) = S (List.length (claims db)))).
Proof.
  split; [| split].
  - intros db now user pid claim H. unfold ClaimsRoute.post in H |- *.
    destruct (findPurchaseOfUser db pid user) as [purchase |]; [| discriminate].
    destruct (p_creditCardId purchase) as [ccid |] eqn:Hcc; [| discriminate].
    destruct (negb (ClaimsRoute.eligibleForClaim (p_status purchase))); [discriminate |].
    destruct (ClaimsRoute.protectionExpired purchase now); [discriminate |].
    destruct (Js.leb _ 0) eqn:Hdiff; [discriminate |].
    destruct (findCard db ccid) as [card |] eqn:Hcard; [| discriminate].
    destruct (findActiveClaim db pid); [discriminate |].
    cbn [createClaim fst snd] in H |- *. injection H as <-.
    apply Js_leb_gt in Hdiff.
    exists purchase, card. cbn.
    split; [reflexivity |]. split; [now rewrite Hcc |].
    split; [apply in_or_app; right; left; reflexivity |].
    repeat split; try assumption.
    intro Hcap. now apply Js_min_pos.
  - intros db now user pid purchase Hf Hdiff. unfold ClaimsRoute.post. rewrite Hf.
    destruct (p_creditCardId purchase); [| eexists; reflexivity].
    destruct (negb (ClaimsRoute.eligibleForClaim (p_status purchase)));
      [eexists; reflexivity |].
    destruct (ClaimsRoute.protectionExpired purchase now); [eexists; reflexivity |].
    apply Js_leb_le in Hdiff. rewrite Hdiff. eexists; reflexivity.
  - intros db now env pid cid purchase card Hp Hc newPrice diff run.
    subst run. unfold AutoClaimService.createAndFileClaim. rewrite Hp, Hc.
    fold newPrice. fold diff. split.
    + intro Hd. apply Js_leb_le in Hd. now rewrite Hd.
    + intro Hd. assert (Js.leb diff 0 = false) as -> by (now apply Js_leb_gt).
      cbn [createClaim].
      match goal with
      | |- context [AutoClaimService.fileClaimViaEmail ?d now env ?i] =>
          destruct (service_fileClaimViaEmail_claims d now env i) as (g & Hg & Hclaims)
      end.
      rewrite Hclaims. cbn [claims withNextId withClaims].
      rewrite map_app. cbn [map].
      match goal with
      | |- context [g ?c] => destruct (Hg c) as (H1 & H2 & H3 & H4 & H5); exists (g c)
      end.
      split; [apply in_or_app; right; left; reflexivity |].
      rewrite H1, H2, H3, H4, H5. cbn.
      repeat split.
      * intro Hcap. now apply Js_min_pos.
      * rewrite length_app, length_map. cbn. lia.
Qed.

End ClaimAmount.

Section ClaimAmountExamples.
Import Store Filing.
Local Open Scope Q_scope.

(** C2, exercised: bought at 100.00, lowest price 80.00, cap 500.00; the
    claim [createAndFileClaim] stores asks for 20.00. *)
Lemma claim_amount_is_capped_difference_witness :
  exists claim,
    In claim (claims (store (AutoClaimService.createAndFileClaim
                               (Samples.db 500 Samples.eligible []) 10%Z
                               Samples.allWorks 3%nat 2%nat)))
    /\ c_newPrice claim = Some 80
    /\ c_priceDifference claim = Js.min (100 - 80) 500
    /\ 0 < c_priceDifference claim.
Proof.
  destruct (proj2 (proj2 (proj2 claim_amount_is_capped_difference)
                     (Samples.db 500 Samples.eligible []) 10%Z Samples.allWorks
                     3%nat 2%nat Samples.eligible (Samples.card 500)
                     eq_refl eq_refl) eq_refl)
    as (claim & Hin & _ & _ & _ & Hnew & Hdiff & Hpos & _).
  exists claim. split; [exact Hin |]. split; [exact Hnew |]. split; [exact Hdiff |].
  apply Hpos. reflexivity.
Defined.

(** C2, refuted as stated: the card routes accept a [maxClaimAmount] of 0;
    for such a card the route creates a claim whose [priceDifference] is
    [min(100 - 80, 0) = 0], which is not positive. *)
Lemma zero_cap_claim_is_not_positive :
  match snd (ClaimsRoute.post (Samples.db 0 Samples.eligible []) 10%Z 1%nat 3%nat) with
  | Ok claim =>
      c_originalPrice claim = 100
      /\ c_newPrice claim = Some 80
      /\ c_priceDifference claim = 0
      /\ Qle_bool (c_priceDifference claim) 0 = true
  | Err _ => False
  end.
Proof. vm_compute. repeat split. Qed.

End ClaimAmountExamples.

(* ------------------------------------------------------------------------- *)
(** ** Claim creation: a single active claim per purchase *)

Section SingleActiveClaim.
Import Store Filing.
Local Open Scope Q_scope.




(** C1, at the failing input.  The purchase already has a DRAFT claim.  The
    route answers 409 and creates nothing; [createAndFileClaim] creates a
    second claim all the same, whether the mail goes out (the new claim is
    then EMAIL_SENT) or not (it stays DRAFT), so that two active claims are
    tied to the purchase. *)
Theorem createAndFileClaim_second_active_claim :
  let db := Samples.db 500 Samples.eligible [Samples.draftClaim] in
  List.length (activeClaims db 3%nat) = 1%nat
  /\ ClaimsRoute.post db 10%Z 1%nat 3%nat
     = (db, Err ("A claim already exists for this purchase"%string, 409%nat))
  /\ List.length
       (activeClaims
          (store (AutoClaimService.createAndFileClaim db 10%Z Samples.allWorks 3%nat 2%nat))
          3%nat) = 2%nat
  /\ map c_status
       (activeClaims
          (store (AutoClaimService.createAndFileClaim db 10%Z Samples.allWorks 3%nat 2%nat))
          3%nat) = [ClaimStatus.DRAFT; ClaimStatus.EMAIL_SENT]
  /\ map c_status
       (activeClaims
          (store (AutoClaimService.createAndFileClaim db 10%Z Samples.mailDown 3%nat 2%nat))
          3%nat) = [ClaimStatus.DRAFT; ClaimStatus.DRAFT].
Proof. vm_compute. repeat split. Qed.

End SingleActiveClaim.

(* ------------------------------------------------------------------------- *)
(** ** The channel cascade of automated filing *)

Section Cascade.
Import Store Filing.

(** The fallback through [claimService] tries its SMTP transport, once,
    when its own documents could be generated, and nothing otherwise. *)
Lemma claimService_attempts db now env hasEmail cid claim card :
  findClaim db cid = Some claim ->
  cardOf db (c_creditCardId claim) = Some card ->
  attempts (ClaimService.autoFileClaim db now env hasEmail cid)
  = match generateClaimDocumentation env with
    | Ok _ => [Smtp]
    | Err _ => []
    end.
Proof.
  intros Hclaim Hcard. unfold ClaimService.autoFileClaim. rewrite Hclaim, Hcard.
  destruct (generateClaimDocumentation env); [| reflexivity].
  destruct (if hasEmail then sendViaSmtp env else _); reflexivity.
Qed.

Lemma portal_fallback_attempts db now env hasEmail claim :
  attempts (PortalFiler.fileClaimViaEmail db now env hasEmail claim)
  = attempts (ClaimService.autoFileClaim db now env hasEmail (c_id claim)).
Proof.
  unfold PortalFiler.fileClaimViaEmail.
  destruct (value (ClaimService.autoFileClaim db now env hasEmail (c_id claim)));
    reflexivity.
Qed.

Lemma findClaim_id db cid claim : findClaim db cid = Some claim -> c_id claim = cid.
Proof.
  unfold findClaim. intro H. apply find_some in H. destruct H as [_ H].
  now apply Nat.eqb_eq in H.
Qed.

(** C6, as the code has it.  The two cited places are two revisions of
    [autoFileClaim], for a claim with a card.  In the portal revision a
    portal automation that reports success is the only channel tried: no
    claim e-mail is attempted; when the portal automation fails or throws,
    the fallback is the SMTP transport of [claimService], tried once after
    the portal (and not at all when the fallback cannot generate its
    documents), and neither the user's Gmail identity nor the SendGrid relay
    is tried; an issuer without a portal workflow goes to that fallback at
    once.  The e-mail revision has no portal step: it tries the user's Gmail
    identity first, and the SendGrid relay exactly when the Gmail send
    raised (Gmail not connected, or an error of the API). *)
Theorem channel_cascade_order
        (db : DB) (now : instant) (penv : PortalFiler.PortalEnv) (env : MailEnv)
        (hasEmail : bool) (toEmail : string) (cid : id)
        (claim : Claim) (card : CreditCard) :
  findClaim db cid = Some claim ->
  cardOf db (c_creditCardId claim) = Some card ->
  let portalRun := PortalFiler.autoFileClaim db now penv env hasEmail cid in
  let mailRun := MailFiler.autoFileClaim db now env toEmail cid in
  let fallback := match generateClaimDocumentation env with
                  | Ok _ => [Smtp]
                  | Err _ => []
                  end in
  (PortalFiler.portalReportsSuccess db penv cid = true ->
     attempts portalRun = [Portal]
     /\ Spec.noMailAttempt (attempts portalRun)
     /\ value portalRun = Ok {| success := true; method := "portal"; error := None |})
  /\ (PortalFiler.portalFails db penv cid = true ->
      attempts portalRun = Portal :: fallback)
  /\ (PortalFiler.CLAIM_PORTALS (cc_issuer card) = None ->
      attempts portalRun = fallback)
  /\ ~ In Gmail (attempts portalRun) /\ ~ In SendGrid (attempts portalRun)
  /\ attempts mailRun
     = match generateClaimDocumentation env with
       | Err _ => []
       | Ok _ => match sendViaGmail env with
                 | Ok _ => [Gmail]
                 | Err _ => [Gmail; SendGrid]
                 end
       end.
Proof.
  intros Hclaim Hcard portalRun mailRun fallback.
  assert (Hfb : attempts (PortalFiler.fileClaimViaEmail db now env hasEmail claim)
                = fallback).
  { rewrite portal_fallback_attempts.
    apply (@claimService_attempts db now env hasEmail (c_id claim) claim card);
      [| exact Hcard].
    now rewrite (findClaim_id _ _ Hclaim). }
  assert (Hnone : ~ In Gmail fallback /\ ~ In SendGrid fallback).
  { unfold fallback. destruct (generateClaimDocumentation env); cbn;
      split; intuition discriminate. }
  assert (Hpre : forall c, c = Gmail \/ c = SendGrid ->
                           ~ In c (Portal :: fallback)).
  { intros c Hc [H | H]; [destruct Hc; subst; discriminate |].
    destruct Hnone as [H1 H2]. destruct Hc; subst; tauto. }
  assert (Hmail : attempts mailRun
                  = match generateClaimDocumentation env with
                    | Err _ => []
                    | Ok _ => match sendViaGmail env with
                              | Ok _ => [Gmail]
                              | Err _ => [Gmail; SendGrid]
                              end
                    end).
  { unfold mailRun, MailFiler.autoFileClaim. rewrite Hclaim, Hcard.
    unfold MailFiler.prepareAndSend, MailFiler.sendClaimEmail.
    destruct (generateClaimDocumentation env); [| reflexivity].
    destruct (sendViaGmail env); [reflexivity |].
    destruct (sendViaSendGrid env); reflexivity. }
  unfold portalRun, PortalFiler.portalFails, PortalFiler.portalReportsSuccess,
    PortalFiler.autoFileClaim.
  rewrite Hclaim, Hcard.
  destruct (PortalFiler.CLAIM_PORTALS (cc_issuer card)) as [steps |].
  2:{ rewrite Hfb. split; [discriminate |]. split; [discriminate |].
      split; [reflexivity |]. destruct Hnone. now repeat split. }
  destruct (PortalFiler.launches penv); cbn [negb andb].
  2:{ assert (Hb : (match PortalFiler.documentation penv with
                    | Ok _ => false | Err _ => false end) = false)
        by (destruct (PortalFiler.documentation penv); reflexivity).
      rewrite Hb. cbn [negb attempts PortalFiler.prepend]. rewrite Hfb.
      split; [discriminate |]. split; [reflexivity |]. split; [discriminate |].
      split; [apply Hpre; now left |]. split; [apply Hpre; now right | exact Hmail]. }
  destruct (PortalFiler.documentation penv) as [doc | e]; cbn [negb].
  2:{ cbn [attempts PortalFiler.prepend]. rewrite Hfb.
      split; [discriminate |]. split; [reflexivity |]. split; [discriminate |].
      split; [apply Hpre; now left |]. split; [apply Hpre; now right | exact Hmail]. }
  destruct (PortalFiler.runSteps true steps (PortalFiler.outcomes penv) 0);
    cbn [negb].
  - cbn [attempts value].
    split.
    { intros _. split; [reflexivity |]. split; [| reflexivity].
      intros c [<- | []]. reflexivity. }
    split; [discriminate |]. split; [discriminate |].
    split; [intros [H | []]; discriminate |].
    split; [intros [H | []]; discriminate | exact Hmail].
  - cbn [attempts PortalFiler.prepend]. rewrite Hfb.
    split; [discriminate |]. split; [reflexivity |]. split; [discriminate |].
    split; [apply Hpre; now left |]. split; [apply Hpre; now right | exact Hmail].
Qed.

End Cascade.

Section CascadeExamples.
Import Store Filing.

(** C6, exercised on both revisions, for a claim on a Chase card: the
    browser cannot be started, so the portal revision goes on to the SMTP
    fallback; in the e-mail revision Gmail is not connected, so the claim
    goes out through SendGrid, after Gmail was tried. *)
Lemma channel_cascade_order_witness :
  attempts (PortalFiler.autoFileClaim Samples.withChaseDraft 10%Z Samples.browserDown
                                      Samples.gmailDown true 4)
  = [Portal; Smtp]
  /\ attempts (MailFiler.autoFileClaim Samples.withChaseDraft 10%Z Samples.gmailDown
                                       "claims@chase.example" 4)
     = [Gmail; SendGrid].
Proof.
  destruct (@channel_cascade_order Samples.withChaseDraft 10%Z Samples.browserDown
              Samples.gmailDown true "claims@chase.example"%string 4
              Samples.draftClaim Samples.chaseCard eq_refl eq_refl)
    as (_ & Hfail & _ & _ & _ & Hmail).
  split; [exact (Hfail eq_refl) | exact Hmail].
Defined.

(** C6, refuted as stated: the portal automation of a claim on a Chase card
    fails (the browser cannot be started) while every mail transport works.
    The claim goes out by e-mail through the SMTP transport; the user's
    Gmail identity, the primary channel, is not tried. *)
Lemma portal_failure_does_not_try_gmail :
  let run := PortalFiler.autoFileClaim Samples.withChaseDraft 10%Z Samples.browserDown
                                       Samples.allWorks true 4 in
  PortalFiler.portalFails Samples.withChaseDraft Samples.browserDown 4 = true
  /\ sendViaGmail Samples.allWorks = Ok "gmail-1"%string
  /\ attempts run = [Portal; Smtp]
  /\ ~ In Gmail (attempts run)
  /\ value run = Ok {| success := true; method := "email"; error := None |}.
Proof.
  cbv zeta. split; [reflexivity |]. split; [reflexivity |].
  split; [reflexivity |]. split; [| reflexivity].
  intros [H | [H | []]]; discriminate.
Qed.

End CascadeExamples.

(* ------------------------------------------------------------------------- *)
(** ** What a failed filing leaves behind *)

Section ResumableStatus.
Import Store Filing.

Lemma statusOf_updateClaim db cid f :
  (forall c, c_id (f c) = c_id c) ->
  Spec.statusOf (updateClaim db cid f) cid
  = option_map (fun c => c_status (f c)) (findClaim db cid).
Proof.
  intro H. unfold Spec.statusOf. rewrite findClaim_updateClaim by exact H.
  destruct (findClaim db cid); reflexivity.
Qed.

(** The e-mail revision of [autoFileClaim]: once the claim and its card are
    found the run always answers; a run that answers failure leaves the
    claim READY_TO_FILE, a run that answers success leaves it EMAIL_SENT. *)
Lemma mailFiler_outcome_status db now env toEmail cid claim card :
  findClaim db cid = Some claim ->
  cardOf db (c_creditCardId claim) = Some card ->
  exists o,
    value (MailFiler.autoFileClaim db now env toEmail cid) = Ok o
    /\ Spec.statusOf (store (MailFiler.autoFileClaim db now env toEmail cid)) cid
       = Some (if success o then ClaimStatus.EMAIL_SENT else ClaimStatus.READY_TO_FILE).
Proof.
  intros Hclaim Hcard. unfold MailFiler.autoFileClaim. rewrite Hclaim, Hcard.
  destruct (MailFiler.prepareAndSend env _) as [[[pdf shot] tried] [[mid m] | e]].
  - eexists. split; [reflexivity |]. cbn [store success].
    change (Spec.statusOf (createNotification (updatePurchase ?d ?p ?f) ?n) cid)
      with (Spec.statusOf d cid).
    rewrite statusOf_updateClaim by reflexivity. now rewrite Hclaim.
  - eexists. split; [reflexivity |]. cbn [store success].
    rewrite statusOf_updateClaim by reflexivity. now rewrite Hclaim.
Qed.

(** [claimService.autoFileClaim]: an answer of failure leaves the claim
    READY_TO_FILE; a rejection leaves the store as it was. *)
Lemma claimService_outcome_status db now env hasEmail cid claim :
  findClaim db cid = Some claim ->
  match value (ClaimService.autoFileClaim db now env hasEmail cid) with
  | Ok o =>
      Spec.statusOf (store (ClaimService.autoFileClaim db now env hasEmail cid)) cid
      = Some (if success o then ClaimStatus.FILED else ClaimStatus.READY_TO_FILE)
  | Err _ => store (ClaimService.autoFileClaim db now env hasEmail cid) = db
  end.
Proof.
  intro Hclaim. unfold ClaimService.autoFileClaim. rewrite Hclaim.
  destruct (cardOf db (c_creditCardId claim)); [| reflexivity].
  destruct (generateClaimDocumentation env); [| reflexivity].
  destruct (if hasEmail then sendViaSmtp env else _).
  - cbn [value store success].
    change (Spec.statusOf (createNotification (updatePurchase ?d ?p ?f) ?n) cid)
      with (Spec.statusOf d cid).
    rewrite statusOf_updateClaim by reflexivity. now rewrite Hclaim.
  - cbn [value store success].
    rewrite statusOf_updateClaim by reflexivity. now rewrite Hclaim.
Qed.

(** The fallback of the portal revision: it always answers, and an answer
    of failure leaves the claim READY_TO_FILE. *)
Lemma portal_fallback_outcome_status db now env hasEmail claim :
  findClaim db (c_id claim) = Some claim ->
  exists o,
    value (PortalFiler.fileClaimViaEmail db now env hasEmail claim) = Ok o
    /\ (success o = false ->
        Spec.statusOf (store (PortalFiler.fileClaimViaEmail db now env hasEmail claim))
                      (c_id claim)
        = Some ClaimStatus.READY_TO_FILE).
Proof.
  intro Hclaim.
  pose proof (claimService_outcome_status db now env hasEmail (c_id claim) Hclaim) as H.
  unfold PortalFiler.fileClaimViaEmail.
  destruct (value (ClaimService.autoFileClaim db now env hasEmail (c_id claim)))
    as [o | e].
  - eexists. split; [reflexivity |]. cbn [store success]. intro Hs.
    now rewrite Hs in H.
  - eexists. split; [reflexivity |]. cbn [store]. intros _.
    rewrite H, statusOf_updateClaim by reflexivity. now rewrite Hclaim.
Qed.

(** The portal revision of [autoFileClaim]: an answer of failure leaves the
    claim READY_TO_FILE. *)
Lemma portalFiler_failure_status db now penv env hasEmail cid claim card o :
  findClaim db cid = Some claim ->
  cardOf db (c_creditCardId claim) = Some card ->
  value (PortalFiler.autoFileClaim db now penv env hasEmail cid) = Ok o ->
  success o = false ->
  Spec.statusOf (store (PortalFiler.autoFileClaim db now penv env hasEmail cid)) cid
  = Some ClaimStatus.READY_TO_FILE.
Proof.
  intros Hclaim Hcard Ho Hs.
  assert (Hid : c_id claim = cid) by (exact (find_some_key c_id cid (claims db) Hclaim)).
  assert (Hclaim' : findClaim db (c_id claim) = Some claim) by (now rewrite Hid).
  destruct (@portal_fallback_outcome_status db now env hasEmail claim Hclaim')
    as (o' & Ho' & Hst).
  rewrite Hid in Hst.
  unfold PortalFiler.autoFileClaim in Ho |- *. rewrite Hclaim, Hcard in Ho |- *.
  assert (Hfall : forall r,
             r = PortalFiler.fileClaimViaEmail db now env hasEmail claim
             \/ r = PortalFiler.prepend Portal
                      (PortalFiler.fileClaimViaEmail db now env hasEmail claim) ->
             value r = Ok o ->
             Spec.statusOf (store r) cid = Some ClaimStatus.READY_TO_FILE).
  { intros r [-> | ->] Hr; cbn [PortalFiler.prepend value store] in Hr |- *;
      apply Hst; congruence. }
  destruct (PortalFiler.CLAIM_PORTALS (cc_issuer card)) as [steps |];
    [| now apply Hfall; [left |]].
  destruct (negb (PortalFiler.launches penv)); [now apply Hfall; [right |] |].
  destruct (PortalFiler.documentation penv); [| now apply Hfall; [right |]].
  destruct (PortalFiler.runSteps true steps (PortalFiler.outcomes penv) 0);
    [| now apply Hfall; [right |]].
  cbn in Ho. injection Ho as <-. discriminate.
Qed.

(** [autoClaimService.fileClaimViaEmail]: when the run is rejected, the
    status stored for the claim is the one it had before. *)
Lemma service_failure_keeps_status db now env cid e :
  value (AutoClaimService.fileClaimViaEmail db now env cid) = Err e ->
  Spec.statusOf (store (AutoClaimService.fileClaimViaEmail db now env cid)) cid
  = Spec.statusOf db cid.
Proof.
  unfold AutoClaimService.fileClaimViaEmail.
  destruct (findClaim db cid) as [claim |] eqn:Hclaim; [| reflexivity].
  destruct (cardOf db (c_creditCardId claim)) as [card |]; [| reflexivity].
  destruct (AutoClaimService.resolveClaimEmail env card); [| reflexivity].
  destruct (AutoClaimService.prepareAndSend env _) as [tried [[[doc shot] mid] | msg]].
  - discriminate.
  - intros _. cbn [store].
    rewrite statusOf_updateClaim by reflexivity.
    unfold Spec.statusOf. now rewrite Hclaim.
Qed.

(** C9, at the failing input.  The claim is DRAFT and no mail transport is
    configured.  [autoClaimService.fileClaimViaEmail] tries SendGrid, is
    rejected, logs an ERROR entry in the status history, and leaves the
    claim DRAFT; on the same input the e-mail revision of [autoFileClaim]
    and the fallback of the portal revision both leave it READY_TO_FILE. *)
Theorem service_failure_leaves_draft :
  let run := AutoClaimService.fileClaimViaEmail Samples.withDraft 10%Z Samples.mailDown 4 in
  value run = Err "SendGrid not configured"%string
  /\ attempts run = [SendGrid]
  /\ Spec.statusOf Samples.withDraft 4 = Some ClaimStatus.DRAFT
  /\ Spec.statusOf (store run) 4 = Some ClaimStatus.DRAFT
  /\ option_map (fun c => map h_status (c_statusHistory c)) (findClaim (store run) 4)
     = Some ["ERROR"%string]
  /\ Spec.statusOf
       (store (MailFiler.autoFileClaim Samples.withDraft 10%Z Samples.mailDown
                                       "claims@acmebank.example" 4)) 4
     = Some ClaimStatus.READY_TO_FILE
  /\ Spec.statusOf
       (store (PortalFiler.fileClaimViaEmail Samples.withDraft 10%Z Samples.mailDown
                                             true Samples.draftClaim)) 4
     = Some ClaimStatus.READY_TO_FILE.
Proof. vm_compute. repeat split. Qed.

End ResumableStatus.

(* ========================================================================= *)
(** * Part III: further properties of the code

    The statements below cover functions the ones above do not reach: the
    rest of the card utilities and the card routes, the sweep and the cron
    jobs, the other claim routes, and effects of the filers the statements
    above leave open. *)

Unset Implicit Arguments.

(* ------------------------------------------------------------------------- *)
(** ** Card numbers: the Luhn check and issuer detection *)

Section Luhn.
Import CardUtils CardIssuer Notions.

Lemma luhnLoop_acc l e s : luhnLoop l e s = s + luhnLoop l e 0.
Proof.
  revert e s. induction l as [|c l IH]; intros e s; simpl.
  - lia.
  - rewrite (IH (negb e) (s + luhnDigit e c)).
    rewrite (IH (negb e) (luhnDigit e c)). lia.
Qed.

Lemma luhnLoop_app l1 l2 e s :
  luhnLoop (l1 ++ l2) e s = luhnLoop l2 (flips l1 e) (luhnLoop l1 e s).
Proof.
  revert e s. induction l1 as [|c l1 IH]; intros e s; simpl.
  - reflexivity.
  - apply IH.
Qed.

Lemma isDigit_value c : isDigit c = true -> nat_of_ascii c = 48 + digitValue c /\ digitValue c < 10.
Proof.
  unfold isDigit, digitValue. intros H.
  apply andb_true_iff in H. destruct H as [H1 H2].
  apply Nat.leb_le in H1. apply Nat.leb_le in H2. lia.
Qed.

Lemma luhnDigit_lt e c : isDigit c = true -> luhnDigit e c < 10.
Proof.
  intros H. destruct (isDigit_value c H) as [_ Hlt].
  unfold luhnDigit. destruct e; [|exact Hlt].
  cbv zeta. destruct (Nat.ltb_spec 9 (digitValue c * 2)); lia.
Qed.

Lemma luhnDigit_inj e a b :
  isDigit a = true -> isDigit b = true -> luhnDigit e a = luhnDigit e b -> a = b.
Proof.
  intros Ha Hb H.
  destruct (isDigit_value a Ha) as [Ea La].
  destruct (isDigit_value b Hb) as [Eb Lb].
  assert (Hv : digitValue a = digitValue b).
  { unfold luhnDigit in H. destruct e; [|exact H].
    cbv zeta in H.
    destruct (Nat.ltb_spec 9 (digitValue a * 2));
      destruct (Nat.ltb_spec 9 (digitValue b * 2)); lia. }
  rewrite <- (ascii_nat_embedding a), <- (ascii_nat_embedding b).
  f_equal. lia.
Qed.

(** The sum the loop computes for [pre ++ d :: post], split at [d]. *)
Lemma luhn_sum_split pre post :
  exists K e,
    forall x, luhnLoop (rev (pre ++ x :: post)) false 0 = K + luhnDigit e x.
Proof.
  exists (luhnLoop (rev post) false 0
          + luhnLoop (rev pre) (negb (flips (rev post) false)) 0),
         (flips (rev post) false).
  intros x. rewrite rev_app_distr. simpl rev. rewrite <- app_assoc. simpl app.
  rewrite luhnLoop_app. simpl luhnLoop. rewrite luhnLoop_acc. lia.
Qed.

Lemma stripNonDigits_split pre c post :
  isDigit c = true ->
  stripNonDigits (pre ++ c :: post)
  = stripNonDigits pre ++ c :: stripNonDigits post.
Proof.
  intros H. unfold stripNonDigits. rewrite filter_app. simpl. now rewrite H.
Qed.

Lemma luhnCheck_split pre c post :
  isDigit c = true ->
  luhnCheck (pre ++ c :: post)
  = (luhnLoop (rev (stripNonDigits pre ++ c :: stripNonDigits post)) false 0 mod 10 =? 0).
Proof.
  intros H. unfold luhnCheck. rewrite (stripNonDigits_split pre c post H).
  destruct (stripNonDigits pre); reflexivity.
Qed.

(** X1.  [luhnCheck] catches every single-digit error: if a number passes
    the check, the number obtained by replacing one of its digits by a
    different digit fails it, whatever separators the text carries. *)
Theorem luhnCheck_detects_single_digit_error
        (pre post : jsstring) (a b : ascii) :
  isDigit a = true -> isDigit b = true -> a <> b ->
  luhnCheck (pre ++ a :: post) = true ->
  luhnCheck (pre ++ b :: post) = false.
Proof.
  intros Ha Hb Hab Hok.
  rewrite (luhnCheck_split pre a post Ha) in Hok.
  rewrite (luhnCheck_split pre b post Hb).
  destruct (luhn_sum_split (stripNonDigits pre) (stripNonDigits post))
    as (K & e & Hsum).
  rewrite (Hsum a) in Hok. rewrite (Hsum b).
  apply Nat.eqb_eq in Hok. apply Nat.eqb_neq. intros Hb0.
  apply Hab. apply (luhnDigit_inj e a b Ha Hb).
  pose proof (luhnDigit_lt e a Ha) as La.
  pose proof (luhnDigit_lt e b Hb) as Lb.
  pose proof (Nat.div_mod_eq (K + luhnDigit e a) 10) as Da.
  pose proof (Nat.div_mod_eq (K + luhnDigit e b) 10) as Db.
  rewrite Hok in Da. rewrite Hb0 in Db. lia.
Qed.

Lemma luhnCheck_detects_single_digit_error_witness :
  luhnCheck (list_ascii_of_string "4111 1111 1111 111" ++ "1"%char :: []) = true
  /\ luhnCheck (list_ascii_of_string "4111 1111 1111 111" ++ "7"%char :: []) = false.
Proof.
  split; [reflexivity|].
  apply (luhnCheck_detects_single_digit_error
           (list_ascii_of_string "4111 1111 1111 111") [] "1"%char "7"%char);
    [reflexivity | reflexivity | discriminate | reflexivity].
Defined.

End Luhn.

Section Detection.
Import Store CardUtils CardIssuer Notions.

Lemma stripNonDigits_idem s : stripNonDigits (stripNonDigits s) = stripNonDigits s.
Proof.
  unfold stripNonDigits. induction s as [|c s IH]; simpl.
  - reflexivity.
  - destruct (isDigit c) eqn:E; simpl; [rewrite E|]; now rewrite ?IH.
Qed.

Lemma luhnCheck_clean s : luhnCheck (stripNonDigits s) = luhnCheck s.
Proof. unfold luhnCheck. now rewrite stripNonDigits_idem. Qed.

Lemma sliceTail_length n (s : jsstring) :
  n <= List.length s -> List.length (sliceTail n s) = n.
Proof. intros H. unfold sliceTail. rewrite length_skipn. lia. Qed.

(** X2.  What [detectCardIssuer] answers depends on the digits of the text
    only.  With fewer than 13 digits it answers the error; otherwise it
    answers a detection whose [isValid] is the Luhn check of the number
    (whatever the network), whose [lastFour] are the last four digits, and
    whose masked number has as many characters as there are digits and keeps
    the first six and the last four of them. *)
Theorem detectCardIssuer_answer (cardNumber : jsstring) :
  let clean := stripNonDigits cardNumber in
  let n := List.length clean in
  detectCardIssuer clean = detectCardIssuer cardNumber
  /\ (n < 13 -> detectCardIssuer cardNumber = InvalidCardNumber)
  /\ (13 <= n ->
      exists d,
        detectCardIssuer cardNumber = Detected d
        /\ d_isValid d = luhnCheck cardNumber
        /\ d_lastFour d = skipn (n - 4) clean
        /\ List.length (d_lastFour d) = 4
        /\ d_maskedNumber d = firstn 6 clean ++ repeat star (n - 10) ++ skipn (n - 4) clean
        /\ List.length (d_maskedNumber d) = n).
Proof.
  intros clean n. split; [|split].
  - unfold detectCardIssuer, clean. now rewrite stripNonDigits_idem.
  - intros Hn. unfold detectCardIssuer. fold clean. fold n.
    apply Nat.ltb_lt in Hn. now rewrite Hn.
  - intros Hn. unfold detectCardIssuer. fold clean. fold n.
    assert (Hlt : (n <? 13) = false) by (apply Nat.ltb_ge; exact Hn).
    rewrite Hlt.
    assert (Hmask : maskCardNumber clean
                    = firstn 6 clean ++ repeat star (n - 10) ++ skipn (n - 4) clean).
    { assert (Hc : stripNonDigits clean = clean)
        by (unfold clean; apply stripNonDigits_idem).
      unfold maskCardNumber. rewrite !Hc. fold n.
      assert (H10 : (n <? 10) = false) by (apply Nat.ltb_ge; lia).
      rewrite H10. reflexivity. }
    assert (Hlen : List.length (maskCardNumber clean) = n).
    { rewrite maskCardNumber_length. unfold clean. now rewrite stripNonDigits_idem. }
    assert (Hl4 : List.length (sliceTail 4 clean) = 4).
    { apply sliceTail_length. fold n. lia. }
    destruct (find (accepts clean) CARD_ISSUERS) as [issuer|];
      eexists; (split; [reflexivity|]); cbn [d_isValid d_lastFour d_maskedNumber];
      (split; [apply luhnCheck_clean|]);
      (split; [reflexivity|]);
      (split; [exact Hl4|]);
      (split; [exact Hmask | exact Hlen]).
Qed.

Lemma test_head class pattern s :
  test (class :: pattern) s = true ->
  exists c rest, s = c :: rest /\ In c class.
Proof.
  destruct s as [|c rest]; simpl; [discriminate|].
  intros H. apply andb_true_iff in H. destruct H as [H _].
  apply existsb_exists in H. destruct H as (x & Hin & Hx).
  apply Ascii.eqb_eq in Hx. subst x. now exists c, rest.
Qed.

Lemma accepts_leading clean issuer :
  In issuer CARD_ISSUERS ->
  accepts clean issuer = true ->
  exists c rest, clean = c :: rest /\ In c (leadingDigits issuer).
Proof.
  intros Hin H. unfold accepts in H.
  apply existsb_exists in H. destruct H as (pattern & Hp & H).
  apply andb_true_iff in H. destruct H as [H _].
  assert (Hne : exists class tl, pattern = class :: tl).
  { simpl in Hin.
    destruct Hin as [<-|[<-|[<-|[<-|[]]]]]; simpl in Hp;
      repeat (destruct Hp as [<-|Hp]; [now eexists; eexists|]); destruct Hp. }
  destruct Hne as (class & tl & ->).
  destruct (test_head _ _ _ H) as (c & rest & -> & Hc).
  exists c, rest. split; [reflexivity|].
  unfold leadingDigits. apply in_flat_map. now exists (class :: tl).
Qed.

Lemma accepts_exclusive clean i j :
  In i CARD_ISSUERS -> In j CARD_ISSUERS ->
  accepts clean i = true -> accepts clean j = true -> i = j.
Proof.
  intros Hi Hj Ai Aj.
  destruct (accepts_leading clean i Hi Ai) as (c & rest & E & Hc).
  destruct (accepts_leading clean j Hj Aj) as (c' & rest' & E' & Hc').
  rewrite E in E'. injection E' as <- <-.
  simpl in Hi, Hj.
  destruct Hi as [<-|[<-|[<-|[<-|[]]]]];
    destruct Hj as [<-|[<-|[<-|[<-|[]]]]];
    try reflexivity; exfalso; simpl in Hc, Hc';
    repeat (destruct Hc as [<-|Hc]; [simpl in Hc'; intuition discriminate|]);
    exact Hc.
Qed.

(** X3.  The rules of the four networks exclude one another, so the order
    of the table plays no part: a number of at least 13 digits is detected as
    a network exactly when that network's rule accepts its digits, and then
    carries that network's name, card type and price-protection terms; it is
    detected as Unknown, without terms, exactly when no rule accepts it. *)
Theorem detectCardIssuer_network (cardNumber : jsstring) :
  13 <= List.length (stripNonDigits cardNumber) ->
  (forall issuer,
      In issuer CARD_ISSUERS ->
      accepts (stripNonDigits cardNumber) issuer = true ->
      exists d, detectCardIssuer cardNumber = Detected d
                /\ d_issuerKey d = i_key issuer
                /\ d_issuer d = i_shortName issuer
                /\ d_cardType d = i_cardType issuer
                /\ d_priceProtection d = Some (i_priceProtection issuer))
  /\ ((forall issuer, In issuer CARD_ISSUERS ->
                      accepts (stripNonDigits cardNumber) issuer = false) ->
      exists d, detectCardIssuer cardNumber = Detected d
                /\ d_issuer d = "Unknown"%string
                /\ d_cardType d = OTHER
                /\ d_priceProtection d = None)
  /\ (forall d, detectCardIssuer cardNumber = Detected d ->
                d_priceProtection d = None
                \/ exists issuer, In issuer CARD_ISSUERS
                                  /\ accepts (stripNonDigits cardNumber) issuer = true
                                  /\ d_issuerKey d = i_key issuer).
Proof.
  intros Hn.
  assert (Hlt : (List.length (stripNonDigits cardNumber) <? 13) = false)
    by (apply Nat.ltb_ge; exact Hn).
  split; [|split].
  - intros issuer Hin Hacc. unfold detectCardIssuer. rewrite Hlt.
    destruct (find (accepts (stripNonDigits cardNumber)) CARD_ISSUERS) as [i|] eqn:F.
    + apply find_some in F. destruct F as [Fin Facc].
      rewrite (accepts_exclusive _ issuer i Hin Fin Hacc Facc).
      eexists. split; [reflexivity|]. repeat split.
    + exfalso. pose proof (find_none _ _ F issuer Hin) as Hno.
      rewrite Hacc in Hno. discriminate.
  - intros Hnone. unfold detectCardIssuer. rewrite Hlt.
    destruct (find (accepts (stripNonDigits cardNumber)) CARD_ISSUERS) as [i|] eqn:F.
    + apply find_some in F. destruct F as [Fin Facc].
      rewrite (Hnone i Fin) in Facc. discriminate.
    + eexists. split; [reflexivity|]. repeat split.
  - intros d. unfold detectCardIssuer. rewrite Hlt.
    destruct (find (accepts (stripNonDigits cardNumber)) CARD_ISSUERS) as [i|] eqn:F;
      intros [= <-].
    + right. apply find_some in F. destruct F as [Fin Facc]. now exists i.
    + now left.
Qed.

Lemma detectCardIssuer_network_witness :
  exists d,
    detectCardIssuer (list_ascii_of_string "3782-822463-10005") = Detected d
    /\ d_issuerKey d = "amex"%string
    /\ d_issuer d = "Amex"%string
    /\ d_cardType d = AMEX
    /\ d_priceProtection d = Some (i_priceProtection amex).
Proof.
  refine (proj1 (detectCardIssuer_network
                   (list_ascii_of_string "3782-822463-10005") _) amex _ _).
  - vm_compute. lia.
  - simpl. now left.
  - reflexivity.
Defined.

End Detection.
(* ------------------------------------------------------------------------- *)
(** ** The Luhn check and transposed digits *)

Section LuhnTransposition.
Import CardUtils CardIssuer Notions.

Lemma luhn_sum_split2 pre post :
  exists K e,
    forall x y,
      luhnLoop (rev (pre ++ x :: y :: post)) false 0
      = K + luhnDigit e y + luhnDigit (negb e) x.
Proof.
  exists (luhnLoop (rev post) false 0
          + luhnLoop (rev pre) (negb (negb (flips (rev post) false))) 0),
         (flips (rev post) false).
  intros x y. rewrite rev_app_distr. simpl rev. rewrite <- !app_assoc. simpl app.
  rewrite luhnLoop_app. simpl luhnLoop. rewrite luhnLoop_acc. lia.
Qed.

Lemma luhnCheck_split2 pre a b post :
  isDigit a = true -> isDigit b = true ->
  luhnCheck (pre ++ a :: b :: post)
  = (luhnLoop (rev (stripNonDigits pre ++ a :: b :: stripNonDigits post)) false 0
       mod 10 =? 0).
Proof.
  intros Ha Hb. unfold luhnCheck.
  rewrite (stripNonDigits_split pre a (b :: post) Ha).
  change (b :: post) with ([] ++ b :: post).
  rewrite (stripNonDigits_split [] b post Hb). cbn [stripNonDigits filter app].
  destruct (stripNonDigits pre); reflexivity.
Qed.

(** The weights of two digits that trade places cancel only for equal
    digits and for the pair 0 and 9. *)
Lemma luhn_swap_digits e da db :
  da < 10 -> db < 10 ->
  let w := fun (even : bool) d =>
             if even then (if 9 <? d * 2 then d * 2 - 9 else d * 2) else d in
  (w e db + w (negb e) da) mod 10 = (w e da + w (negb e) db) mod 10 ->
  da = db \/ (da = 0 /\ db = 9) \/ (da = 9 /\ db = 0).
Proof.
  intros Ha Hb. cbv zeta.
  destruct e; cbn [negb];
    do 10 (destruct da as [|da];
           [do 10 (destruct db as [|db];
                   [cbn; intros H; try discriminate H; auto|]); lia|]); lia.
Qed.

(** X4.  [luhnCheck] catches two adjacent digits written in the wrong
    order, except for the pair 0 and 9: if a number passes the check, the
    number with two different neighbouring digits exchanged fails it, unless
    the two digits are 0 and 9. *)
Theorem luhnCheck_detects_adjacent_transposition
        (pre post : jsstring) (a b : ascii) :
  isDigit a = true -> isDigit b = true -> a <> b ->
  ~ (digitValue a = 0 /\ digitValue b = 9) ->
  ~ (digitValue a = 9 /\ digitValue b = 0) ->
  luhnCheck (pre ++ a :: b :: post) = true ->
  luhnCheck (pre ++ b :: a :: post) = false.
Proof.
  intros Ha Hb Hab H09 H90 Hok.
  rewrite (luhnCheck_split2 pre a b post Ha Hb) in Hok.
  rewrite (luhnCheck_split2 pre b a post Hb Ha).
  destruct (luhn_sum_split2 (stripNonDigits pre) (stripNonDigits post))
    as (K & e & Hsum).
  rewrite (Hsum a b) in Hok. rewrite (Hsum b a).
  apply Nat.eqb_eq in Hok. apply Nat.eqb_neq. intros Hswapped.
  destruct (isDigit_value a Ha) as [Ea La].
  destruct (isDigit_value b Hb) as [Eb Lb].
  assert (Hmod : (luhnDigit e b + luhnDigit (negb e) a) mod 10
                 = (luhnDigit e a + luhnDigit (negb e) b) mod 10).
  { pose proof (luhnDigit_lt e a Ha). pose proof (luhnDigit_lt e b Hb).
    pose proof (luhnDigit_lt (negb e) a Ha). pose proof (luhnDigit_lt (negb e) b Hb).
    pose proof (Nat.div_mod_eq (K + luhnDigit e b + luhnDigit (negb e) a) 10) as D1.
    pose proof (Nat.div_mod_eq (K + luhnDigit e a + luhnDigit (negb e) b) 10) as D2.
    pose proof (Nat.div_mod_eq (luhnDigit e b + luhnDigit (negb e) a) 10) as D3.
    pose proof (Nat.div_mod_eq (luhnDigit e a + luhnDigit (negb e) b) 10) as D4.
    pose proof (Nat.mod_upper_bound (luhnDigit e b + luhnDigit (negb e) a) 10) as U3.
    pose proof (Nat.mod_upper_bound (luhnDigit e a + luhnDigit (negb e) b) 10) as U4.
    rewrite Hok in D1. rewrite Hswapped in D2. lia. }
  destruct (luhn_swap_digits e (digitValue a) (digitValue b) La Lb Hmod)
    as [Heq|[H1|H2]].
  - apply Hab.
    rewrite <- (ascii_nat_embedding a), <- (ascii_nat_embedding b).
    f_equal. lia.
  - now apply H09.
  - now apply H90.
Qed.

Lemma luhnCheck_detects_adjacent_transposition_witness :
  luhnCheck (list_ascii_of_string "40128888888818" ++ "1"%char :: "8"%char :: []) = false
  /\ luhnCheck (list_ascii_of_string "40128888888818" ++ "8"%char :: "1"%char :: [])
     = true.
Proof.
  split; [|reflexivity].
  apply (luhnCheck_detects_adjacent_transposition
           (list_ascii_of_string "40128888888818") [] "8"%char "1"%char);
    [reflexivity | reflexivity | discriminate
     | intros [H _]; discriminate H | intros [H _]; discriminate H | reflexivity].
Defined.

End LuhnTransposition.
(* ------------------------------------------------------------------------- *)
(** ** The card routes *)

Section CardRoutes.
Import Store CardUtils CardIssuer CardsRoute Notions.
Local Open Scope Q_scope.

Lemma detectCardIssuer_cases cardNumber :
  let clean := stripNonDigits cardNumber in
  ((List.length clean < 13)%nat -> detectCardIssuer cardNumber = InvalidCardNumber)
  /\ ((13 <= List.length clean)%nat ->
      exists d, detectCardIssuer cardNumber = Detected d
                /\ d_isValid d = luhnCheck cardNumber
                /\ d_lastFour d = skipn (List.length clean - 4) clean).
Proof.
  cbv zeta. unfold detectCardIssuer. split.
  - intros Hn. apply Nat.ltb_lt in Hn. now rewrite Hn.
  - intros Hn. apply Nat.ltb_ge in Hn. rewrite Hn.
    destruct (find (accepts (stripNonDigits cardNumber)) CARD_ISSUERS);
      eexists; (split; [reflexivity|]); cbn [d_isValid d_lastFour];
      (split; [apply luhnCheck_clean | reflexivity]).
Qed.

Lemma detected_terms_positive cardNumber d :
  detectCardIssuer cardNumber = Detected d ->
  let protection := match d_priceProtection d with
                    | Some terms => terms
                    | None => getPriceProtectionInfo (d_issuer d)
                    end in
  (0 < t_protectionDays protection)%Z /\ 0 < t_maxClaimAmount protection.
Proof.
  unfold detectCardIssuer.
  destruct (List.length (stripNonDigits cardNumber) <? 13)%nat; [discriminate|].
  destruct (find (accepts (stripNonDigits cardNumber)) CARD_ISSUERS) as [i|] eqn:F;
    intros [= <-]; cbn [d_priceProtection d_issuer].
  - apply find_some in F. destruct F as [Fin _]. simpl in Fin.
    destruct Fin as [<-|[<-|[<-|[<-|[]]]]]; split; reflexivity.
  - split; reflexivity.
Qed.

(** X5.  Quick-add stores a card only for a number of at least 13 digits
    that passes the Luhn check; any other number is answered 400 "Invalid
    card number".  A stored card is appended to the user's cards with the
    last four digits of the number, automatic claiming switched off, and a
    positive protection period and claim cap; every refusal leaves the store
    as it was. *)
Theorem quickAdd_stores_only_valid_cards
        (defaults : SchemaDefaults) (db : DB) (reqUser : id)
        (cardNumber : jsstring) (nickname : option string) :
  let clean := stripNonDigits cardNumber in
  let answer := quickAdd defaults db reqUser cardNumber nickname in
  ((List.length clean < 13)%nat \/ luhnCheck cardNumber = false ->
     answer = (db, Err ("Invalid card number"%string, 400%nat)))
  /\ (forall card, snd answer = Ok card ->
        (13 <= List.length clean)%nat
        /\ luhnCheck cardNumber = true
        /\ creditCards (fst answer) = (creditCards db ++ [card])%list
        /\ cc_id card = nextId db
        /\ cc_userId card = reqUser
        /\ list_ascii_of_string (cc_lastFour card)
           = skipn (List.length clean - 4) clean
        /\ cc_autoClaimEnabled card = false
        /\ (0 < cc_protectionDays card)%Z
        /\ 0 < cc_maxClaimAmount card
        /\ purchases (fst answer) = purchases db
        /\ claims (fst answer) = claims db)
  /\ (forall e, snd answer = Err e -> fst answer = db).
Proof.
  intros clean answer.
  destruct (detectCardIssuer_cases cardNumber) as (Hshort & Hlong).
  fold clean in Hshort, Hlong.
  destruct (Nat.lt_ge_cases (List.length clean) 13) as [Hn|Hn].
  - (* fewer than 13 digits *)
    assert (Ha : answer = (db, Err ("Invalid card number"%string, 400%nat))).
    { unfold answer, quickAdd. now rewrite (Hshort Hn). }
    split; [|split].
    + intros _. exact Ha.
    + intros card. rewrite Ha. discriminate.
    + intros e _. now rewrite Ha.
  - destruct (Hlong Hn) as (d & Hd & Hvalid & Hlast).
    pose proof (detected_terms_positive cardNumber d Hd) as Hpos.
    cbv zeta in Hpos. destruct Hpos as [Hdays Hcap].
    unfold answer, quickAdd. rewrite Hd, Hvalid.
    destruct (luhnCheck cardNumber) eqn:Hluhn; cbn [negb].
    + destruct (findDuplicate db reqUser (string_of_list_ascii (d_lastFour d))
                              (d_issuer d)) as [dup|] eqn:Hdup.
      * split; [|split].
        -- intros [Hlt|Hf]; [lia|discriminate].
        -- intros card. discriminate.
        -- reflexivity.
      * unfold createCreditCard. cbn [fst snd].
        split; [|split].
        -- intros [Hlt|Hf]; [lia|discriminate].
        -- intros card [= <-]. cbn.
           repeat split; try assumption.
           ++ rewrite list_ascii_of_string_of_list_ascii. exact Hlast.
           ++ destruct (Z.eqb_spec
                          (t_protectionDays
                             match d_priceProtection d with
                             | Some terms => terms
                             | None => getPriceProtectionInfo (d_issuer d)
                             end) 0); [reflexivity | exact Hdays].
           ++ unfold Js.or, Js.truthy.
              destruct (Qeq_bool _ 0) eqn:E; cbn [negb Js.toNumber].
              ** reflexivity.
              ** exact Hcap.
        -- intros e. discriminate.
    + split; [|split].
      * reflexivity.
      * intros card. discriminate.
      * reflexivity.
Qed.

Lemma findDuplicate_none db uid lastFour issuer :
  findDuplicate db uid lastFour issuer = None ->
  ~ In (uid, lastFour, issuer) (map cardKey (creditCards db)).
Proof.
  unfold findDuplicate. intros Hnone Hin.
  apply in_map_iff in Hin. destruct Hin as (c & Hk & Hc).
  pose proof (find_none _ _ Hnone c Hc) as Hf. cbv beta in Hf.
  unfold cardKey in Hk. injection Hk as E1 E2 E3.
  rewrite E1, E2, E3, Nat.eqb_refl, !String.eqb_refl in Hf. discriminate.
Qed.

Lemma distinctCards_snoc db db' card :
  distinctCards db ->
  creditCards db' = (creditCards db ++ [card])%list ->
  ~ In (cardKey card) (map cardKey (creditCards db)) ->
  distinctCards db'.
Proof.
  unfold distinctCards. intros Hd -> Hnew.
  rewrite map_app. simpl.
  apply NoDup_app_remove_l with (l := []). simpl.
  apply NoDup_rev in Hd.
  rewrite <- (rev_involutive (map cardKey (creditCards db) ++ [cardKey card])).
  apply NoDup_rev. rewrite rev_app_distr. simpl.
  constructor; [|exact Hd].
  intros Hin. apply Hnew. now apply in_rev.
Qed.

(** X6.  No operation that creates a card creates a second card with the
    same owner, last four digits and issuer: quick-add, the add-card route
    and the card matcher of the e-mail parser each keep the cards of the
    store pairwise distinct in these three columns. *)
Theorem card_creation_keeps_cards_distinct
        (defaults : SchemaDefaults) (db : DB) (reqUser : id) :
  distinctCards db ->
  (forall cardNumber nickname,
      distinctCards (fst (quickAdd defaults db reqUser cardNumber nickname)))
  /\ (forall body, distinctCards (fst (addCard defaults db reqUser body)))
  /\ (forall cardLast4 detectedNetwork,
         distinctCards
           (fst (EmailParser.matchCardToUser defaults db reqUser cardLast4
                                             detectedNetwork))).
Proof.
  intros Hd. split; [|split].
  - intros cardNumber nickname. unfold quickAdd.
    destruct (detectCardIssuer cardNumber) as [|d]; [exact Hd|].
    destruct (negb (d_isValid d)); [exact Hd|].
    destruct (findDuplicate db reqUser (string_of_list_ascii (d_lastFour d))
                            (d_issuer d)) eqn:Hdup; [exact Hd|].
    unfold createCreditCard. cbn [fst].
    eapply distinctCards_snoc; [exact Hd | reflexivity |].
    apply findDuplicate_none in Hdup. exact Hdup.
  - intros body. unfold addCard.
    destruct (findDuplicate db reqUser (b_lastFour body) (b_issuer body)) eqn:Hdup;
      [exact Hd|].
    unfold createCreditCard. cbn [fst].
    eapply distinctCards_snoc; [exact Hd | reflexivity |].
    apply findDuplicate_none in Hdup. exact Hdup.
  - intros cardLast4 detectedNetwork. unfold EmailParser.matchCardToUser.
    destruct (Js.truthyString cardLast4) as [last4|]; [|exact Hd].
    destruct (find (fun card => String.eqb (cc_lastFour card) last4)
                   (cardsOfUser db reqUser)) eqn:Hfind; [exact Hd|].
    unfold createCreditCard, createNotification. cbn [fst].
    eapply distinctCards_snoc; [exact Hd | reflexivity |].
    cbn [cardKey cc_userId cc_lastFour cc_issuer
         EmailParser.autoCreatedCardData cd_userId cd_lastFour cd_issuer].
    intros Hin. apply in_map_iff in Hin. destruct Hin as (c & Hk & Hc).
    unfold cardKey in Hk. injection Hk as E1 E2 _.
    assert (Hc' : In c (cardsOfUser db reqUser)).
    { unfold cardsOfUser. apply filter_In. split; [exact Hc|].
      now apply Nat.eqb_eq. }
    pose proof (find_none _ _ Hfind c Hc') as Hf. cbv beta in Hf.
    rewrite E2, String.eqb_refl in Hf. discriminate.
Qed.

Lemma card_creation_keeps_cards_distinct_witness :
  distinctCards
    (fst (quickAdd Samples.schema (Samples.db 500 Samples.eligible []) 1%nat
                   (list_ascii_of_string "4111 1111 1111 1111") None))
  /\ List.length
       (creditCards
          (fst (quickAdd Samples.schema (Samples.db 500 Samples.eligible []) 1%nat
                         (list_ascii_of_string "4111 1111 1111 1111") None)))
     = 2%nat.
Proof.
  split; [|reflexivity].
  refine (proj1 (card_creation_keeps_cards_distinct
                   Samples.schema (Samples.db 500 Samples.eligible []) 1%nat _) _ _).
  unfold distinctCards. simpl. constructor; [intros []|constructor].
Defined.

Lemma findCard_filter_other db cardId k :
  k <> cardId ->
  findCard (withCreditCards
              (filter (fun c => negb (cc_id c =? cardId)%nat) (creditCards db)) db) k
  = findCard db k.
Proof.
  intros Hne. unfold findCard. cbn [creditCards withCreditCards].
  induction (creditCards db) as [|c l IH]; simpl; [reflexivity|].
  destruct (Nat.eqb_spec (cc_id c) cardId) as [E|E]; simpl.
  - destruct (Nat.eqb_spec (cc_id c) k) as [E'|E']; [congruence | exact IH].
  - destruct (Nat.eqb_spec (cc_id c) k); [reflexivity | exact IH].
Qed.

(** X7.  The delete route never removes a card that a claim refers to: such
    a request is answered 400 and changes nothing.  When it does delete, the
    card is gone, every other card stays as it was, no claim is touched, and
    every claim that named a card of the store still names one. *)
Theorem deleteCard_keeps_claimed_cards (db : DB) (reqUser cardId : id) :
  let answer := deleteCard db reqUser cardId in
  ((exists claim, In claim (claims db) /\ c_creditCardId claim = Some cardId) ->
     exists e, answer = (db, Err e))
  /\ (forall e, snd answer = Err e -> fst answer = db)
  /\ (snd answer = Ok tt ->
      findCard (fst answer) cardId = None
      /\ (forall k, k <> cardId -> findCard (fst answer) k = findCard db k)
      /\ claims (fst answer) = claims db)
  /\ (claimCardsExist db -> claimCardsExist (fst answer)).
Proof.
  intros answer.
  assert (Hreferred :
            forall claim, In claim (claims db) -> c_creditCardId claim = Some cardId ->
                          (0 <? List.length (claimsOfCard db cardId))%nat = true).
  { intros claim Hin Hc. apply Nat.ltb_lt.
    assert (Hin' : In claim (claimsOfCard db cardId)).
    { unfold claimsOfCard. apply filter_In. split; [exact Hin|].
      rewrite Hc. apply Nat.eqb_refl. }
    destruct (claimsOfCard db cardId); [destruct Hin' | simpl; lia]. }
  unfold answer, deleteCard.
  destruct (find (fun c => (cc_id c =? cardId)%nat && (cc_userId c =? reqUser)%nat)
                 (creditCards db)) as [card|] eqn:Hfind.
  - destruct (0 <? List.length (claimsOfCard db cardId))%nat eqn:Hcount.
    + split; [|split; [|split]].
      * intros _. eexists. reflexivity.
      * reflexivity.
      * discriminate.
      * trivial.
    + cbn [fst snd]. split; [|split; [|split]].
      * intros (claim & Hin & Hc). pose proof (Hreferred claim Hin Hc) as Ht.
        congruence.
      * discriminate.
      * intros _. split; [|split].
        -- unfold findCard. cbn [creditCards withCreditCards].
           destruct (find _ (filter _ _)) as [c|] eqn:F; [|reflexivity].
           apply find_some in F. destruct F as [Fin Fid].
           apply filter_In in Fin. destruct Fin as [_ Fne].
           rewrite Fid in Fne. discriminate.
        -- intros k Hk. now apply findCard_filter_other.
        -- reflexivity.
      * intros Hex claim k Hin Hc. cbn [claims withCreditCards] in Hin.
        destruct (Hex claim k Hin Hc) as (c & Hfc).
        exists c. rewrite findCard_filter_other; [exact Hfc|].
        intros ->. pose proof (Hreferred claim Hin Hc) as Ht. congruence.
  - split; [|split; [|split]].
    + intros _. eexists. reflexivity.
    + reflexivity.
    + discriminate.
    + trivial.
Qed.

End CardRoutes.
(* ------------------------------------------------------------------------- *)
(** ** The scheduled sweep and the expiry job *)

Section Sweep.
Import Store PriceMonitor PriceSweep CronJobs.
Local Open Scope Q_scope.

(** The checks a sweep runs, as a series of checks. *)
Lemma sweepLoop_store db world todo results :
  fst (sweepLoop db world todo results)
  = checkMany db (map (fun p => (p_id p, fst (world (p_id p)), snd (world (p_id p))))
                      todo).
Proof.
  revert db results. induction todo as [|p todo IH]; intros db results; simpl.
  - reflexivity.
  - destruct (checkPriceForPurchase db (fst (world (p_id p))) (snd (world (p_id p)))
                                    (p_id p)) as [db1 result] eqn:E.
    rewrite IH. cbn [fst]. reflexivity.
Qed.

Lemma sweepLoop_counts db world todo results :
  let results' := snd (sweepLoop db world todo results) in
  checked results' = (checked results + List.length todo)%nat
  /\ (priceDrops results <= priceDrops results')%nat
  /\ (priceDrops results' <= priceDrops results + List.length todo)%nat
  /\ errors results' = errors results.
Proof.
  revert db results. induction todo as [|p todo IH]; intros db results; simpl.
  - repeat split; lia.
  - destruct (checkPriceForPurchase db (fst (world (p_id p))) (snd (world (p_id p)))
                                    (p_id p)) as [db1 result].
    specialize (IH db1 {| checked := S (checked results);
                          priceDrops := if reportsDrop result
                                        then S (priceDrops results)
                                        else priceDrops results;
                          errors := errors results |}).
    cbv zeta in IH. cbn [checked priceDrops errors] in IH.
    destruct IH as (H1 & H2 & H3 & H4).
    destruct (reportsDrop result); repeat split; lia.
Qed.

Lemma insertAsc_In updatedAt p l x :
  In x (insertAsc updatedAt p l) <-> x = p \/ In x l.
Proof.
  induction l as [|q l IH]; simpl.
  - intuition.
  - destruct (updatedAt (p_id p) <? updatedAt (p_id q))%Z; simpl.
    + intuition.
    + rewrite IH. intuition.
Qed.

Lemma orderByUpdatedAt_In updatedAt l x :
  In x (orderByUpdatedAt updatedAt l) <-> In x l.
Proof.
  unfold orderByUpdatedAt. induction l as [|q l IH]; simpl.
  - tauto.
  - rewrite insertAsc_In, IH. intuition.
Qed.

Lemma insertAsc_length updatedAt p l :
  List.length (insertAsc updatedAt p l) = S (List.length l).
Proof.
  induction l as [|q l IH]; simpl; [reflexivity|].
  destruct (updatedAt (p_id p) <? updatedAt (p_id q))%Z; simpl; [reflexivity|].
  now rewrite IH.
Qed.

Lemma orderByUpdatedAt_length updatedAt l :
  List.length (orderByUpdatedAt updatedAt l) = List.length l.
Proof.
  unfold orderByUpdatedAt. induction l as [|q l IH]; simpl; [reflexivity|].
  now rewrite insertAsc_length, IH.
Qed.

Lemma firstn_incl {A} n (l : list A) x : In x (firstn n l) -> In x l.
Proof.
  revert l. induction n as [|n IH]; intros [|y l]; simpl; try tauto.
  intros [H|H]; [now left | right; now apply IH].
Qed.

Lemma selected_eligible db now updatedAt maxChecks p :
  In p (selected db now updatedAt maxChecks) ->
  In p (purchases db) /\ sweepWhere now p = true.
Proof.
  unfold selected. intros H. apply firstn_incl in H.
  apply orderByUpdatedAt_In in H. now apply filter_In in H.
Qed.

Lemma check_notices_other db now env pid pid0 :
  pid0 <> pid ->
  Spec.priceDropNotices (fst (checkPriceForPurchase db now env pid)) pid0
  = Spec.priceDropNotices db pid0.
Proof.
  intros Hne. destruct (fetched db env pid) as [[purchase c]|] eqn:F.
  - destruct (@fetched_inv db env pid purchase c F) as (Hp & (url & Hu) & Hs).
    unfold Spec.priceDropNotices.
    rewrite (@check_success_notifications db now env pid purchase url c Hp Hu Hs).
    rewrite filter_app.
    destruct (Js.gtb (Js.sub (p_purchasePrice purchase) c) 0
              && Js.geb (Js.sub (p_purchasePrice purchase) c)
                        (Js.double (threshold (findUser db (p_userId purchase)))));
      simpl.
    + destruct (Nat.eqb_spec pid pid0); [congruence|]. now rewrite app_nil_r.
    + now rewrite app_nil_r.
  - now rewrite (@check_failed db now env pid F).
Qed.

Lemma check_frame db now env pid :
  users (fst (checkPriceForPurchase db now env pid)) = users db
  /\ creditCards (fst (checkPriceForPurchase db now env pid)) = creditCards db
  /\ claims (fst (checkPriceForPurchase db now env pid)) = claims db.
Proof.
  unfold checkPriceForPurchase.
  destruct (findPurchase db pid) as [purchase|]; [|now repeat split].
  destruct (Js.truthyString (p_productUrl purchase)); [|now repeat split].
  destruct (scrapePrice env); [|now repeat split].
  cbv zeta.
  destruct (Js.gtb _ 0 && Js.geb _ _); now repeat split.
Qed.

Lemma checkMany_frame runs db pid0 :
  ~ In pid0 (map (fun r => fst (fst r)) runs) ->
  findPurchase (checkMany db runs) pid0 = findPurchase db pid0
  /\ Spec.observedPrices (checkMany db runs) pid0 = Spec.observedPrices db pid0
  /\ Spec.priceDropNotices (checkMany db runs) pid0 = Spec.priceDropNotices db pid0.
Proof.
  revert db. induction runs as [|[[pid now] env] runs IH]; intros db Hnot; simpl.
  - now repeat split.
  - simpl in Hnot.
    assert (Hne : pid0 <> pid) by (intros ->; apply Hnot; now left).
    assert (Hrest : ~ In pid0 (map (fun r => fst (fst r)) runs))
      by (intros H; apply Hnot; now right).
    destruct (IH (fst (checkPriceForPurchase db now env pid)) Hrest)
      as (H1 & H2 & H3).
    rewrite H1, H2, H3. split; [|split].
    + now apply check_row_other.
    + rewrite check_observedPrices.
      destruct (fetched db env pid) as [[? ?]|]; [|now rewrite app_nil_r].
      destruct (Nat.eqb_spec pid pid0); [congruence | now rewrite app_nil_r].
    + now apply check_notices_other.
Qed.

Lemma checkMany_tables runs db :
  users (checkMany db runs) = users db
  /\ creditCards (checkMany db runs) = creditCards db
  /\ claims (checkMany db runs) = claims db.
Proof.
  revert db. induction runs as [|[[pid now] env] runs IH]; intros db; simpl.
  - now repeat split.
  - destruct (IH (fst (checkPriceForPurchase db now env pid))) as (H1 & H2 & H3).
    destruct (check_frame db now env pid) as (F1 & F2 & F3).
    rewrite H1, H2, H3. now repeat split.
Qed.

Lemma sweep_frame db now updatedAt maxChecks world pid :
  (forall p, In p (purchases db) -> p_id p = pid -> sweepWhere now p = false) ->
  let db' := fst (checkAllEligiblePurchases db now updatedAt maxChecks world) in
  findPurchase db' pid = findPurchase db pid
  /\ Spec.observedPrices db' pid = Spec.observedPrices db pid
  /\ Spec.priceDropNotices db' pid = Spec.priceDropNotices db pid.
Proof.
  intros Hnone. cbv zeta. unfold checkAllEligiblePurchases.
  rewrite sweepLoop_store.
  apply checkMany_frame. rewrite map_map. cbn [fst].
  intros Hin. apply in_map_iff in Hin. destruct Hin as (p & Hid & Hp).
  apply selected_eligible in Hp. destruct Hp as [Hp Hw].
  rewrite (Hnone p Hp Hid) in Hw. discriminate.
Qed.

(** X8.  A sweep checks only purchases its query selects: at most the
    configured number (1000 when the limit is unset or 0), each one
    MONITORING or PRICE_DROP_DETECTED with a product URL and a protection
    window that has not ended.  It counts every one of them as checked, never
    counts an error, and counts at most as many price drops as checks.  A
    purchase none of whose rows the query selects keeps its row, its recorded
    observations and its price-drop notifications; users, cards and claims
    are left as they are. *)
Theorem sweep_checks_only_selected_purchases
        (db : DB) (now : instant) (updatedAt : id -> instant)
        (maxChecks : option nat) (world : id -> instant * ScrapeEnv) :
  let answer := checkAllEligiblePurchases db now updatedAt maxChecks world in
  let eligible := filter (sweepWhere now) (purchases db) in
  checked (snd answer) = Nat.min (takeLimit maxChecks) (List.length eligible)
  /\ (0 < takeLimit maxChecks)%nat
  /\ (priceDrops (snd answer) <= checked (snd answer))%nat
  /\ errors (snd answer) = 0%nat
  /\ (forall pid,
         (forall p, In p (purchases db) -> p_id p = pid -> sweepWhere now p = false) ->
         findPurchase (fst answer) pid = findPurchase db pid
         /\ Spec.observedPrices (fst answer) pid = Spec.observedPrices db pid
         /\ Spec.priceDropNotices (fst answer) pid = Spec.priceDropNotices db pid)
  /\ users (fst answer) = users db
  /\ creditCards (fst answer) = creditCards db
  /\ claims (fst answer) = claims db.
Proof.
  intros answer eligible. unfold answer, checkAllEligiblePurchases.
  pose proof (sweepLoop_counts db world (selected db now updatedAt maxChecks)
                {| checked := 0; priceDrops := 0; errors := 0 |}) as Hc.
  cbv zeta in Hc. cbn [checked priceDrops errors] in Hc.
  destruct Hc as (C1 & C2 & C3 & C4).
  assert (Hlen : List.length (selected db now updatedAt maxChecks)
                 = Nat.min (takeLimit maxChecks) (List.length eligible)).
  { unfold selected. rewrite length_firstn, orderByUpdatedAt_length. reflexivity. }
  split; [|split; [|split; [|split; [|split]]]].
  - rewrite C1, Hlen. reflexivity.
  - unfold takeLimit. destruct maxChecks as [[|n]|]; lia.
  - rewrite C1. lia.
  - exact C4.
  - intros pid Hnone.
    exact (sweep_frame db now updatedAt maxChecks world pid Hnone).
  - rewrite sweepLoop_store. apply checkMany_tables.
Qed.


End Sweep.
(* ------------------------------------------------------------------------- *)
(** ** What the AI strategy creates, and what the sweep makes of it *)

Section AiRows.
Import Store EmailParser Notions.
Local Open Scope Q_scope.

Lemma seededFrom_refl uid eid db : seededFrom uid eid db db [] [].
Proof.
  unfold seededFrom. simpl. rewrite app_nil_r, Nat.add_0_r.
  repeat split; try constructor.
  - exists []. now rewrite app_nil_r.
  - exists []. rewrite app_nil_r. repeat split. constructor.
Qed.

Lemma seededFrom_trans uid eid db db1 db2 items1 items2 new1 new2 :
  seededFrom uid eid db db1 items1 new1 ->
  seededFrom uid eid db1 db2 items2 new2 ->
  seededFrom uid eid db db2 (items1 ++ items2) (new1 ++ new2).
Proof.
  unfold seededFrom.
  intros (P1 & I1 & N1 & A1 & F1 & (hs1 & H1 & HI1 & HP1) & (ns1 & M1 & MI1 & MF1)
          & X1 & U1 & C1 & L1)
         (P2 & I2 & N2 & A2 & F2 & (hs2 & H2 & HI2 & HP2) & (ns2 & M2 & MI2 & MF2)
          & X2 & U2 & C2 & L2).
  rewrite !map_app, length_app, seq_app.
  split; [rewrite P2, P1; now rewrite app_assoc|].
  split; [rewrite I1, I2, X1; reflexivity|].
  split; [now rewrite N1, N2|].
  split; [now rewrite A1, A2|].
  split; [apply Forall_app; now split|].
  split.
  { exists (hs1 ++ hs2)%list. rewrite H2, H1, !map_app, app_assoc.
    repeat split; congruence. }
  split.
  { exists (ns1 ++ ns2)%list. rewrite M2, M1, !map_app, app_assoc.
    repeat split; [congruence | apply Forall_app; now split]. }
  split; [rewrite X2, X1; lia|].
  repeat split; congruence.
Qed.

(** A turn of the loop that does not raise: the item is not malformed, and
    the turn creates the rows of the item when it is valid, and nothing
    otherwise. *)
Lemma processAiItem_ok_inv now uid eid edate ai db created item db' created' :
  processAiItem now uid eid edate ai (db, created) item = (db', Ok created') ->
  malformedAiItem item = false
  /\ exists new,
       created' = (created ++ new)%list
       /\ seededFrom uid eid db db' (filter validAiItem [item]) new.
Proof.
  unfold processAiItem, validAiItem, malformedAiItem. cbn [filter].
  destruct (Js.nonEmpty (ai_productName item)); cbn [negb orb andb].
  2:{ intros H. injection H as <- <-. split; [reflexivity|].
      exists []. split; [now rewrite app_nil_r | apply seededFrom_refl]. }
  destruct (ai_price item) as [price | asNumber asColumn] eqn:Hprice;
    cbn [priceLeqZero priceColumn hasToFixed negb andb].
  - destruct (Js.leb price 0); cbn [negb].
    + intros H. injection H as <- <-. split; [reflexivity|].
      exists []. split; [now rewrite app_nil_r | apply seededFrom_refl].
    + unfold createPurchase, createPriceHistory, createNotification.
      intros H. injection H as <- <-. split; [reflexivity|].
      eexists. split; [reflexivity|].
      unfold seededFrom. cbn. rewrite Nat.add_1_r, Hprice.
      repeat split.
      * constructor; [now repeat split | constructor].
      * eexists. split; [reflexivity|]. now split.
      * eexists. split; [reflexivity|]. split; [reflexivity|].
        constructor; [now split | constructor].
  - destruct asNumber as [n|]; [destruct (Js.leb n 0); cbn [negb]|];
      try (destruct asColumn; discriminate).
    intros H. injection H as <- <-. split; [reflexivity|].
    exists []. split; [now rewrite app_nil_r | apply seededFrom_refl].
Qed.



Lemma processAiItems_ok_inv now uid eid edate ai items db created db' created' :
  processAiItems now uid eid edate ai items (db, created) = (db', Ok created') ->
  forallb (fun item => negb (malformedAiItem item)) items = true
  /\ exists new,
       created' = (created ++ new)%list
       /\ seededFrom uid eid db db' (filter validAiItem items) new.
Proof.
  revert db created. induction items as [|item items IH]; intros db created Hrun.
  - cbn in Hrun. injection Hrun as <- <-. split; [reflexivity|].
    exists []. split; [now rewrite app_nil_r | apply seededFrom_refl].
  - cbn [processAiItems] in Hrun.
    destruct (processAiItem now uid eid edate ai (db, created) item)
      as [db1 [created1|e]] eqn:Hstep; [|discriminate].
    destruct (processAiItem_ok_inv now uid eid edate ai db created item db1 created1
                Hstep) as (Hm & new1 & E1 & S1).
    destruct (IH db1 created1 Hrun) as (Hall & new2 & E2 & S2).
    split; [cbn [forallb]; now rewrite Hm, Hall|].
    exists (new1 ++ new2)%list. split.
    + rewrite E2, E1. now rewrite app_assoc.
    + change (filter validAiItem (item :: items))
        with (filter validAiItem ([item] ++ items)).
      rewrite filter_app. eapply seededFrom_trans; eassumption.
Qed.



(** What a run that returns leaves: the rows of the valid items. *)
Lemma extractPurchaseWithAI_shape db now emailDate aiResult userId emailId db1 answer :
  findPurchaseBySourceEmail db userId emailId = None ->
  ai_isPurchase aiResult = true ->
  extractPurchaseWithAI db now emailDate aiResult userId emailId = (db1, Ok answer) ->
  exists new,
    seededFrom userId emailId db db1 (filter validAiItem (ai_items aiResult)) new
    /\ answer = match new with [] => None | _ => Some new end.
Proof.
  intros Hnew Hp. unfold extractPurchaseWithAI. rewrite Hnew, Hp. cbn [negb].
  destruct (processAiItems now userId emailId emailDate aiResult
              (ai_items aiResult) (db, [])) as [db' [created|e]] eqn:Hrun;
    [|discriminate].
  intros H. injection H as <- <-.
  destruct (processAiItems_ok_inv now userId emailId emailDate aiResult
              (ai_items aiResult) db [] db' created Hrun) as (_ & new & E & S).
  simpl in E. subst created. exists new. now split.
Qed.



End AiRows.
Section SweepAndStatus.
Import Store PriceMonitor PriceSweep CronJobs EmailParser Notions.
Local Open Scope Q_scope.

(** X11.  A check that writes a notification takes the purchase out of the
    sweep: the notification is a PRICE_DROP notice about the purchase
    checked, the row the check writes is CLAIM_ELIGIBLE, or
    PRICE_DROP_DETECTED with a window that had ended by the time of the
    check, and the query of a sweep that runs later does not select that
    row. *)
Theorem notified_purchase_leaves_the_sweep
        (db : DB) (now : instant) (env : ScrapeEnv) (pid : id) (n : Notification) :
  notifications (fst (checkPriceForPurchase db now env pid))
  = (notifications db ++ [n])%list ->
  exists purchase row,
    findPurchase db pid = Some purchase
    /\ findPurchase (fst (checkPriceForPurchase db now env pid)) pid = Some row
    /\ n_type n = PRICE_DROP /\ n_purchaseId n = Some pid
    /\ p_status row = (if isWithinProtection purchase now
                       then PurchaseStatus.CLAIM_ELIGIBLE
                       else PurchaseStatus.PRICE_DROP_DETECTED)
    /\ forall later, (now < later)%Z -> sweepWhere later row = false.
Proof.
  intros Hn.
  destruct (fetched db env pid) as [[purchase c]|] eqn:F.
  2:{ exfalso. rewrite (@check_failed db now env pid F) in Hn.
      apply (f_equal (@List.length Notification)) in Hn.
      rewrite length_app in Hn. cbn in Hn. lia. }
  destruct (@fetched_inv db env pid purchase c F) as (Hp & (url & Hu) & Hs).
  rewrite (@check_success_notifications db now env pid purchase url c Hp Hu Hs) in Hn.
  destruct (Js.gtb (Js.sub (p_purchasePrice purchase) c) 0
            && Js.geb (Js.sub (p_purchasePrice purchase) c)
                      (Js.double (threshold (findUser db (p_userId purchase)))))
    eqn:Hq.
  2:{ exfalso. apply (f_equal (@List.length Notification)) in Hn.
      rewrite !length_app in Hn. cbn in Hn. lia. }
  apply app_inv_head in Hn. injection Hn as <-.
  exists purchase, (rowAfterCheck db now purchase c).
  split; [exact Hp|].
  split; [exact (@check_success_row db now env pid purchase url c Hp Hu Hs)|].
  split; [reflexivity|]. split; [reflexivity|].
  unfold rowAfterCheck. rewrite Hq.
  split.
  - now destruct (isNewLowest purchase c).
  - intros later Hlater. unfold sweepWhere.
    destruct (isWithinProtection purchase now) eqn:W.
    + now destruct (isNewLowest purchase c).
    + assert (Hends : match p_protectionEnds purchase with
                      | Some ends => (later <=? ends)%Z
                      | None => false
                      end = false).
      { unfold isWithinProtection in W.
        destruct (p_protectionEnds purchase) as [ends|]; [|reflexivity].
        apply Z.ltb_ge in W. apply Z.leb_gt. lia. }
      destruct (isNewLowest purchase c); cbn; rewrite Hends;
        now rewrite andb_false_r.
Qed.

Lemma notified_purchase_leaves_the_sweep_witness :
  exists row,
    findPurchase
      (fst (checkPriceForPurchase Samples.monitored 10%Z (Samples.pageShowing 80) 3%nat))
      3%nat = Some row
    /\ p_status row = PurchaseStatus.CLAIM_ELIGIBLE
    /\ forall later, (10 < later)%Z -> sweepWhere later row = false.
Proof.
  destruct (notified_purchase_leaves_the_sweep
              Samples.monitored 10%Z (Samples.pageShowing 80) 3%nat
              {| n_userId := 1%nat; n_type := PRICE_DROP;
                 n_title := "Price Drop Detected!"%string;
                 n_purchaseId := Some 3%nat; n_claimId := None |}
              eq_refl)
    as (purchase & row & Hp & Hrow & _ & _ & Hstatus & Hsweep).
  exists row. split; [exact Hrow|]. split; [|exact Hsweep].
  rewrite Hstatus. vm_compute in Hp. injection Hp as <-. reflexivity.
Defined.

Lemma find_map_same {A} (f : A -> bool) (g : A -> A) (l : list A) :
  (forall a, f (g a) = f a) ->
  find f (map g l) = option_map g (find f l).
Proof.
  intros H. induction l as [|a l IH]; simpl; [reflexivity|].
  rewrite H. destruct (f a); [reflexivity | exact IH].
Qed.

(** X12.  The expiry job marks EXPIRED exactly the purchases still
    MONITORING, PRICE_DROP_DETECTED or CLAIM_ELIGIBLE whose window ended
    before the job's instant, and changes nothing but their status; a
    purchase without a protection end date is never expired.  Afterwards
    nothing is left to expire (a second run at the same instant counts 0 and
    changes nothing), and the claims route refuses to open a claim for a
    purchase the job expired. *)
Theorem expirePurchases_effect (db : DB) (now : instant) :
  let db' := fst (expirePurchases db now) in
  (forall p, In p (purchases db') -> expiryWhere now p = false)
  /\ expirePurchases db' now = (db', 0%nat)
  /\ (forall pid p,
         findPurchase db pid = Some p ->
         findPurchase db' pid
         = Some (if expiryWhere now p
                 then Set_.purchaseStatus PurchaseStatus.EXPIRED p else p))
  /\ (forall p, p_protectionEnds p = None -> expiryWhere now p = false)
  /\ (forall user pid p later,
         findPurchaseOfUser db pid user = Some p ->
         expiryWhere now p = true ->
         exists e, ClaimsRoute.post db' later user pid = (db', Err e))
  /\ users db' = users db /\ creditCards db' = creditCards db
  /\ claims db' = claims db /\ priceHistory db' = priceHistory db
  /\ notifications db' = notifications db.
Proof.
  intros db'. unfold db', expirePurchases. cbn [fst].
  set (g := fun p => if expiryWhere now p
                     then Set_.purchaseStatus PurchaseStatus.EXPIRED p else p).
  assert (Hg : forall p, expiryWhere now (g p) = false).
  { intros p. unfold g. destruct (expiryWhere now p) eqn:E; [|exact E].
    unfold expiryWhere. cbn. now rewrite andb_false_r. }
  assert (Hid : forall p, p_id (g p) = p_id p).
  { intros p. unfold g. now destruct (expiryWhere now p). }
  assert (Hleft : forall p, In p (map g (purchases db)) -> expiryWhere now p = false).
  { intros p Hin. apply in_map_iff in Hin. destruct Hin as (q & <- & _). apply Hg. }
  split; [exact Hleft|].
  split.
  { cbn [purchases withPurchases].
    assert (Hmap : map g (map g (purchases db)) = map g (purchases db)).
    { rewrite map_map. apply map_ext. intros p. unfold g at 1. now rewrite Hg. }
    assert (Hcount : forall l, filter (expiryWhere now) (map g l) = []).
    { induction l as [|p l IH]; simpl; [reflexivity|]. now rewrite Hg. }
    rewrite Hmap, Hcount. reflexivity. }
  split.
  { intros pid p Hp. unfold findPurchase in *. cbn [purchases withPurchases].
    rewrite find_map_same.
    - rewrite Hp. reflexivity.
    - intros a. now rewrite Hid. }
  split.
  { intros p Hp. unfold expiryWhere. now rewrite Hp. }
  split.
  { intros user pid p later Hp Hexp. unfold ClaimsRoute.post.
    unfold findPurchaseOfUser in *. cbn [purchases withPurchases].
    rewrite find_map_same.
    2:{ intros a. rewrite Hid. unfold g.
        now destruct (expiryWhere now a). }
    rewrite Hp. cbn [option_map]. unfold g. rewrite Hexp.
    cbn [p_creditCardId Set_.purchaseStatus p_status].
    destruct (p_creditCardId p); eexists; reflexivity. }
  now repeat split.
Qed.

Lemma seededFrom_rows uid eid db db' items new q :
  Spec.idsBelowCounter db ->
  seededFrom uid eid db db' items new ->
  In q (purchases db') -> (nextId db <= p_id q)%nat -> In q new.
Proof.
  intros [Hids _] (P & _) Hin Hge. rewrite P in Hin.
  apply in_app_or in Hin. destruct Hin as [Hold|Hnew]; [|exact Hnew].
  rewrite Forall_forall in Hids. specialize (Hids q Hold). lia.
Qed.

Lemma seededFrom_fresh uid eid db db' items new p :
  seededFrom uid eid db db' items new -> In p new -> (nextId db <= p_id p)%nat.
Proof.
  intros (_ & I & _) Hin.
  assert (Hid : In (p_id p) (map p_id new)) by now apply in_map.
  rewrite I in Hid. apply in_seq in Hid. lia.
Qed.

(** X13.  A purchase created by the AI strategy has no protection end date
    and no card.  As created, it is selected by no sweep and by no run of
    the expiry job, so that every sweep of the store leaves its row and its
    observations as they are, and it is refused by the claims route. *)
Theorem ai_purchase_waits_for_a_card
        (db : DB) (now emailDate : instant) (aiResult : AiResult)
        (userId : id) (emailId : string)
        (db1 : DB) (created : list Purchase) (p : Purchase) :
  Spec.idsBelowCounter db ->
  extractPurchaseWithAI db now emailDate aiResult userId emailId
  = (db1, Ok (Some created)) ->
  In p created ->
  (forall t, sweepWhere t p = false /\ expiryWhere t p = false)
  /\ (forall t updatedAt maxChecks world,
         let db2 := fst (checkAllEligiblePurchases db1 t updatedAt maxChecks world) in
         findPurchase db2 (p_id p) = findPurchase db1 (p_id p)
         /\ Spec.observedPrices db2 (p_id p) = Spec.observedPrices db1 (p_id p))
  /\ (forall t user, exists e, ClaimsRoute.post db1 t user (p_id p) = (db1, Err e)).
Proof.
  intros Hids Hrun Hin.
  assert (Hpre : findPurchaseBySourceEmail db userId emailId = None
                 /\ ai_isPurchase aiResult = true).
  { unfold extractPurchaseWithAI in Hrun.
    destruct (findPurchaseBySourceEmail db userId emailId); [discriminate|].
    destruct (ai_isPurchase aiResult); [now split | discriminate]. }
  destruct Hpre as [Hnew Hp].
  destruct (extractPurchaseWithAI_shape db now emailDate aiResult userId emailId
              db1 (Some created) Hnew Hp Hrun) as (new & S & Hans).
  assert (Hc : created = new).
  { destruct new; [discriminate | now injection Hans]. }
  subst new.
  assert (Hrow : forall q, In q created ->
                           p_creditCardId q = None /\ p_protectionEnds q = None).
  { intros q Hq. destruct S as (_ & _ & _ & _ & F & _).
    rewrite Forall_forall in F. specialize (F q Hq). tauto. }
  assert (Hsame : forall q, In q (purchases db1) -> p_id q = p_id p -> In q created).
  { intros q Hq Hid. apply (seededFrom_rows _ _ _ _ _ _ q Hids S Hq).
    rewrite Hid. eapply seededFrom_fresh; eassumption. }
  assert (Hsw : forall t q, In q created -> sweepWhere t q = false).
  { intros t q Hq. unfold sweepWhere. destruct (Hrow q Hq) as [_ ->].
    now rewrite andb_false_r. }
  split; [|split].
  - intros t. split; [now apply Hsw|].
    unfold expiryWhere. now destruct (Hrow p Hin) as [_ ->].
  - intros t updatedAt maxChecks world db2.
    destruct (sweep_frame db1 t updatedAt maxChecks world (p_id p)) as (H1 & H2 & _).
    + intros q Hq Hid. apply Hsw. now apply Hsame.
    + split; assumption.
  - intros t user. unfold ClaimsRoute.post.
    destruct (findPurchaseOfUser db1 (p_id p) user) as [q|] eqn:Hq;
      [|eexists; reflexivity].
    unfold findPurchaseOfUser in Hq. apply find_some in Hq.
    destruct Hq as [Hq Hk]. apply andb_true_iff in Hk. destruct Hk as [Hk _].
    apply Nat.eqb_eq in Hk.
    destruct (Hrow q (Hsame q Hq Hk)) as [-> _]. eexists. reflexivity.
Qed.

End SweepAndStatus.
(* ------------------------------------------------------------------------- *)
(** ** The routes that follow a claim *)

Section ClaimRoutes.
Import Store Filing ClaimActions Notions.
Local Open Scope Q_scope.

Lemma findClaimOfUser_inv db cid u c :
  findClaimOfUser db cid u = Some c ->
  c_id c = cid /\ c_userId c = u /\ In c (claims db).
Proof.
  unfold findClaimOfUser. intros H. apply find_some in H. destruct H as [Hin Hk].
  apply andb_true_iff in Hk. destruct Hk as [H1 H2].
  apply Nat.eqb_eq in H1. apply Nat.eqb_eq in H2. now repeat split.
Qed.

Lemma findClaimOfUser_updateClaim db cid u k f :
  (forall c, c_id (f c) = c_id c) -> (forall c, c_userId (f c) = c_userId c) ->
  findClaimOfUser (updateClaim db k f) cid u
  = option_map (fun c => if (c_id c =? k)%nat then f c else c)
               (findClaimOfUser db cid u).
Proof.
  intros Hid Hu. unfold findClaimOfUser, updateClaim. cbn [claims withClaims].
  apply find_map_same. intros a.
  destruct (c_id a =? k)%nat; [now rewrite Hid, Hu | reflexivity].
Qed.

Lemma setIfGiven_keeps set v c :
  (forall x c0, c_id (set x c0) = c_id c0 /\ c_userId (set x c0) = c_userId c0
                /\ c_status (set x c0) = c_status c0
                /\ c_purchaseId (set x c0) = c_purchaseId c0
                /\ c_creditCardId (set x c0) = c_creditCardId c0
                /\ c_originalPrice (set x c0) = c_originalPrice c0
                /\ c_newPrice (set x c0) = c_newPrice c0
                /\ c_priceDifference (set x c0) = c_priceDifference c0
                /\ c_filedAt (set x c0) = c_filedAt c0) ->
  c_id (setIfGiven set v c) = c_id c /\ c_userId (setIfGiven set v c) = c_userId c
  /\ c_status (setIfGiven set v c) = c_status c
  /\ c_purchaseId (setIfGiven set v c) = c_purchaseId c
  /\ c_creditCardId (setIfGiven set v c) = c_creditCardId c
  /\ c_originalPrice (setIfGiven set v c) = c_originalPrice c
  /\ c_newPrice (setIfGiven set v c) = c_newPrice c
  /\ c_priceDifference (setIfGiven set v c) = c_priceDifference c
  /\ c_filedAt (setIfGiven set v c) = c_filedAt c.
Proof.
  intros H. unfold setIfGiven. destruct (Js.truthyString v); [apply H|].
  now repeat split.
Qed.

Lemma setIfGiven_claimNumber v c :
  c_id (setIfGiven Set_.claimNumber v c) = c_id c
  /\ c_userId (setIfGiven Set_.claimNumber v c) = c_userId c
  /\ c_status (setIfGiven Set_.claimNumber v c) = c_status c
  /\ c_purchaseId (setIfGiven Set_.claimNumber v c) = c_purchaseId c
  /\ c_creditCardId (setIfGiven Set_.claimNumber v c) = c_creditCardId c
  /\ c_originalPrice (setIfGiven Set_.claimNumber v c) = c_originalPrice c
  /\ c_newPrice (setIfGiven Set_.claimNumber v c) = c_newPrice c
  /\ c_priceDifference (setIfGiven Set_.claimNumber v c) = c_priceDifference c
  /\ c_filedAt (setIfGiven Set_.claimNumber v c) = c_filedAt c.
Proof. apply setIfGiven_keeps. intros. now repeat split. Qed.

Lemma setIfGiven_responseNotes v c :
  c_id (setIfGiven Set_.responseNotes v c) = c_id c
  /\ c_userId (setIfGiven Set_.responseNotes v c) = c_userId c
  /\ c_status (setIfGiven Set_.responseNotes v c) = c_status c
  /\ c_purchaseId (setIfGiven Set_.responseNotes v c) = c_purchaseId c
  /\ c_creditCardId (setIfGiven Set_.responseNotes v c) = c_creditCardId c
  /\ c_originalPrice (setIfGiven Set_.responseNotes v c) = c_originalPrice c
  /\ c_newPrice (setIfGiven Set_.responseNotes v c) = c_newPrice c
  /\ c_priceDifference (setIfGiven Set_.responseNotes v c) = c_priceDifference c
  /\ c_filedAt (setIfGiven Set_.responseNotes v c) = c_filedAt c.
Proof. apply setIfGiven_keeps. intros. now repeat split. Qed.

(** The data [file] writes to the claim. *)
Lemma file_data now v c :
  let c' := setIfGiven Set_.claimNumber v
              (Set_.filedAt (Some now) (Set_.status ClaimStatus.FILED c)) in
  c_id c' = c_id c /\ c_userId c' = c_userId c
  /\ c_status c' = ClaimStatus.FILED /\ c_filedAt c' = Some now
  /\ c_purchaseId c' = c_purchaseId c
  /\ c_originalPrice c' = c_originalPrice c
  /\ c_newPrice c' = c_newPrice c
  /\ c_priceDifference c' = c_priceDifference c.
Proof.
  cbv zeta.
  destruct (setIfGiven_claimNumber v
              (Set_.filedAt (Some now) (Set_.status ClaimStatus.FILED c)))
    as (H1 & H2 & H3 & H4 & H5 & H6 & H7 & H8 & H9).
  rewrite H1, H2, H3, H4, H6, H7, H8, H9. now repeat split.
Qed.

(** X14.  A claim is marked as filed at most once.  The route accepts a
    claim of the user that is DRAFT or READY_TO_FILE: the claim becomes FILED
    with [filedAt] set, its amounts untouched, its purchase becomes
    CLAIM_FILED and one notification is created.  Any further request to file
    the same claim is answered 400 and changes nothing, as is a request for a
    claim in any other status. *)
Theorem file_marks_a_claim_filed_once
        (db : DB) (now : instant) (reqUser claimId : id)
        (claimNumber : option string) (claim : Claim) :
  findClaimOfUser db claimId reqUser = Some claim ->
  let answer := file db now reqUser claimId claimNumber in
  (fileable (c_status claim) = false ->
     answer = (db, Err ("Claim cannot be filed in current status"%string, 400%nat)))
  /\ (fileable (c_status claim) = true ->
      exists filed,
        snd answer = Ok filed
        /\ findClaimOfUser (fst answer) claimId reqUser = Some filed
        /\ c_status filed = ClaimStatus.FILED
        /\ c_filedAt filed = Some now
        /\ c_originalPrice filed = c_originalPrice claim
        /\ c_newPrice filed = c_newPrice claim
        /\ c_priceDifference filed = c_priceDifference claim
        /\ (forall p, findPurchase db (c_purchaseId claim) = Some p ->
                      findPurchase (fst answer) (c_purchaseId claim)
                      = Some (Set_.purchaseStatus PurchaseStatus.CLAIM_FILED p))
        /\ List.length (notifications (fst answer))
           = S (List.length (notifications db))
        /\ forall later number,
             file (fst answer) later reqUser claimId number
             = (fst answer,
                Err ("Claim cannot be filed in current status"%string, 400%nat))).
Proof.
  intros Hfind answer. unfold answer, file. rewrite Hfind.
  destruct (findClaimOfUser_inv db claimId reqUser claim Hfind) as (Hid & Hu & Hin).
  split.
  - intros Hf. now rewrite Hf.
  - intros Hf. rewrite Hf. cbn [negb fst snd].
    set (data := fun c => setIfGiven Set_.claimNumber claimNumber
                            (Set_.filedAt (Some now)
                                          (Set_.status ClaimStatus.FILED c))).
    pose proof (file_data now claimNumber) as Hdata. cbv zeta in Hdata.
    fold data in Hdata.
    assert (Hfound : findClaimOfUser
                       (createNotification
                          (updatePurchase (updateClaim db (c_id claim) data)
                             (c_purchaseId claim)
                             (Set_.purchaseStatus PurchaseStatus.CLAIM_FILED))
                          {| n_userId := reqUser; n_type := CLAIM_STATUS_UPDATE;
                             n_title := "Claim Filed Successfully";
                             n_purchaseId := None; n_claimId := Some (c_id claim) |})
                       claimId reqUser = Some (data claim)).
    { change (findClaimOfUser (updateClaim db (c_id claim) data) claimId reqUser
              = Some (data claim)).
      rewrite findClaimOfUser_updateClaim.
      - rewrite Hfind. cbn [option_map]. now rewrite Nat.eqb_refl.
      - intros c. apply Hdata.
      - intros c. apply Hdata. }
    exists (data claim).
    destruct (Hdata claim) as (D1 & D2 & D3 & D4 & D5 & D6 & D7 & D8).
    split; [reflexivity|].
    split; [exact Hfound|].
    repeat (split; [assumption|]).
    split.
    { intros p Hp.
      change (findPurchase
                (updatePurchase (updateClaim db (c_id claim) data) (c_purchaseId claim)
                                (Set_.purchaseStatus PurchaseStatus.CLAIM_FILED))
                (c_purchaseId claim)
              = Some (Set_.purchaseStatus PurchaseStatus.CLAIM_FILED p)).
      rewrite findPurchase_updatePurchase by reflexivity.
      change (findPurchase (updateClaim db (c_id claim) data) (c_purchaseId claim))
        with (findPurchase db (c_purchaseId claim)).
      now rewrite Hp. }
    split.
    { cbn. rewrite length_app. simpl. lia. }
    intros later number. rewrite Hfound. cbv beta iota.
    replace (c_status (data claim)) with ClaimStatus.FILED by (symmetry; exact D3).
    reflexivity.
Qed.

Lemma file_marks_a_claim_filed_once_witness :
  exists filed,
    snd (file Samples.withDraft 10%Z 1%nat 4%nat (Some "PP-2291"%string)) = Ok filed
    /\ c_status filed = ClaimStatus.FILED
    /\ c_claimNumber filed = Some "PP-2291"%string
    /\ file (fst (file Samples.withDraft 10%Z 1%nat 4%nat (Some "PP-2291"%string)))
            20%Z 1%nat 4%nat None
       = (fst (file Samples.withDraft 10%Z 1%nat 4%nat (Some "PP-2291"%string)),
          Err ("Claim cannot be filed in current status"%string, 400%nat)).
Proof.
  destruct (proj2 (file_marks_a_claim_filed_once
                     Samples.withDraft 10%Z 1%nat 4%nat (Some "PP-2291"%string)
                     Samples.draftClaim eq_refl) eq_refl)
    as (filed & H1 & _ & H3 & _ & _ & _ & _ & _ & _ & H10).
  exists filed. split; [exact H1|]. split; [exact H3|]. split.
  - vm_compute in H1. injection H1 as <-. reflexivity.
  - apply H10.
Defined.

Lemma post_ok_inv db now u pid claim :
  snd (ClaimsRoute.post db now u pid) = Ok claim ->
  exists purchase k card,
    findPurchaseOfUser db pid u = Some purchase
    /\ p_creditCardId purchase = Some k
    /\ ClaimsRoute.eligibleForClaim (p_status purchase) = true
    /\ ClaimsRoute.protectionExpired purchase now = false
    /\ Js.leb (p_purchasePrice purchase - Js.toNumber (p_lowestPrice purchase)) 0 = false
    /\ findCard db k = Some card
    /\ findActiveClaim db pid = None
    /\ c_id claim = nextId db /\ c_userId claim = u /\ c_purchaseId claim = pid
    /\ c_status claim = ClaimStatus.DRAFT
    /\ c_priceDifference claim
       = Js.min (p_purchasePrice purchase - Js.toNumber (p_lowestPrice purchase))
                (cc_maxClaimAmount card)
    /\ fst (ClaimsRoute.post db now u pid)
       = updatePurchase
           (withNextId (S (nextId db)) (withClaims (claims db ++ [claim]) db)) pid
           (Set_.purchaseStatus PurchaseStatus.CLAIM_ELIGIBLE).
Proof.
  unfold ClaimsRoute.post.
  destruct (findPurchaseOfUser db pid u) as [purchase|]; [|discriminate].
  destruct (p_creditCardId purchase) as [k|] eqn:Hk; [|discriminate].
  destruct (ClaimsRoute.eligibleForClaim (p_status purchase)) eqn:He;
    [|discriminate].
  destruct (ClaimsRoute.protectionExpired purchase now) eqn:Hx; [discriminate|].
  cbn [negb].
  destruct (Js.leb (p_purchasePrice purchase - Js.toNumber (p_lowestPrice purchase)) 0)
    eqn:Hd; [discriminate|].
  destruct (findCard db k) as [card|] eqn:Hc; [|discriminate].
  destruct (findActiveClaim db pid) eqn:Ha; [discriminate|].
  unfold createClaim. cbn [fst snd]. intros [= <-].
  exists purchase, k, card. now repeat split.
Qed.

Lemma find_app_fresh {A} (f : A -> bool) (l : list A) (a : A) :
  (forall x, In x l -> f x = false) -> f a = true ->
  find f (l ++ [a]) = Some a /\ filter (fun x => negb (f x)) (l ++ [a]) = l.
Proof.
  intros Hl Ha. induction l as [|x l IH]; simpl.
  - now rewrite Ha.
  - rewrite (Hl x (or_introl eq_refl)). cbn [negb].
    destruct IH as [I1 I2]; [intros y Hy; apply Hl; now right|].
    now rewrite I1, I2.
Qed.

(** X15.  Only a DRAFT claim can be deleted, and deleting the claim the
    route has just created undoes the creation: the table of claims is as it
    was before, and the purchase is left PRICE_DROP_DETECTED (also when it
    was CLAIM_ELIGIBLE before), so that the route accepts a new claim for it,
    for the same amount. *)
Theorem deleteClaim_undoes_post
        (db : DB) (now : instant) (reqUser purchaseId : id) (claim : Claim) :
  claimIdsBelowCounter db ->
  snd (ClaimsRoute.post db now reqUser purchaseId) = Ok claim ->
  let db1 := fst (ClaimsRoute.post db now reqUser purchaseId) in
  let answer := deleteClaim db1 reqUser (c_id claim) in
  snd answer = Ok tt
  /\ claims (fst answer) = claims db
  /\ findPurchase (fst answer) purchaseId
     = option_map (Set_.purchaseStatus PurchaseStatus.PRICE_DROP_DETECTED)
                  (findPurchase db purchaseId)
  /\ (exists again,
        snd (ClaimsRoute.post (fst answer) now reqUser purchaseId) = Ok again
        /\ c_priceDifference again = c_priceDifference claim)
  /\ (forall other c,
         findClaimOfUser db other reqUser = Some c ->
         c_status c <> ClaimStatus.DRAFT ->
         deleteClaim db reqUser other
         = (db, Err ("Only draft claims can be deleted"%string, 400%nat))).
Proof.
  intros Hids Hpost.
  destruct (post_ok_inv db now reqUser purchaseId claim Hpost)
    as (purchase & k & card & Hp & Hk & He & Hx & Hd & Hc & Ha
        & Cid & Cu & Cp & Cs & Cdiff & Hdb1).
  cbv zeta. rewrite Hdb1.
  set (pred := fun c => (c_id c =? c_id claim)%nat && (c_userId c =? reqUser)%nat).
  assert (Hold : forall x, In x (claims db) -> (c_id x =? c_id claim)%nat = false).
  { intros x Hin. unfold claimIdsBelowCounter in Hids.
    rewrite Forall_forall in Hids. specialize (Hids x Hin).
    apply Nat.eqb_neq. lia. }
  assert (Hfound : findClaimOfUser
                     (updatePurchase
                        (withNextId (S (nextId db))
                                    (withClaims (claims db ++ [claim]) db))
                        purchaseId
                        (Set_.purchaseStatus PurchaseStatus.CLAIM_ELIGIBLE))
                     (c_id claim) reqUser = Some claim).
  { unfold findClaimOfUser. cbn [claims updatePurchase withPurchases withNextId withClaims].
    apply (find_app_fresh pred).
    - intros x Hin. unfold pred. now rewrite (Hold x Hin).
    - unfold pred. now rewrite Nat.eqb_refl, Cu, Nat.eqb_refl. }
  assert (Hfilter : filter (fun c => negb (c_id c =? c_id claim)%nat)
                           (claims db ++ [claim]) = claims db).
  { apply (find_app_fresh (fun c => (c_id c =? c_id claim)%nat)).
    - exact Hold.
    - apply Nat.eqb_refl. }
  unfold deleteClaim. rewrite Hfound, Cs. cbn [ClaimStatus.eqb negb fst snd].
  unfold deleteClaimRow.
  cbn [claims updatePurchase withPurchases withNextId withClaims purchases].
  rewrite Hfilter, Cp.
  split; [reflexivity|]. split; [reflexivity|].
  set (g := fun p => if (p_id p =? purchaseId)%nat
                     then Set_.purchaseStatus PurchaseStatus.PRICE_DROP_DETECTED p
                     else p).
  assert (Hdb2 : updatePurchase
                    (withClaims (claims db)
                       (updatePurchase
                          (withNextId (S (nextId db))
                                      (withClaims (claims db ++ [claim]) db))
                          purchaseId
                          (Set_.purchaseStatus PurchaseStatus.CLAIM_ELIGIBLE)))
                    purchaseId
                    (Set_.purchaseStatus PurchaseStatus.PRICE_DROP_DETECTED)
                 = {| users := users db; creditCards := creditCards db;
                      purchases := map g (purchases db); claims := claims db;
                      priceHistory := priceHistory db;
                      notifications := notifications db;
                      nextId := S (nextId db) |}).
  { unfold updatePurchase, withPurchases, withClaims, withNextId.
    cbn [users creditCards purchases claims priceHistory notifications nextId].
    rewrite map_map. f_equal. apply map_ext. intros p. unfold g.
    destruct (p_id p =? purchaseId)%nat eqn:E; cbn [p_id Set_.purchaseStatus].
    - now rewrite E.
    - now rewrite E. }
  rewrite Hdb2.
  assert (Hgid : forall p, p_id (g p) = p_id p /\ p_userId (g p) = p_userId p).
  { intros p. unfold g. now destruct (p_id p =? purchaseId)%nat. }
  split.
  { unfold findPurchase. cbn [purchases].
    rewrite find_map_same by (intros a; now rewrite (proj1 (Hgid a))).
    destruct (find (fun p => (p_id p =? purchaseId)%nat) (purchases db)) as [p|] eqn:F;
      [|reflexivity].
    cbn [option_map]. unfold g. apply find_some in F. destruct F as [_ F].
    now rewrite F. }
  split.
  { unfold ClaimsRoute.post.
    assert (Hp2 : findPurchaseOfUser
                    {| users := users db; creditCards := creditCards db;
                       purchases := map g (purchases db); claims := claims db;
                       priceHistory := priceHistory db;
                       notifications := notifications db;
                       nextId := S (nextId db) |} purchaseId reqUser
                  = Some (Set_.purchaseStatus PurchaseStatus.PRICE_DROP_DETECTED
                                              purchase)).
    { unfold findPurchaseOfUser in *. cbn [purchases].
      rewrite find_map_same.
      - rewrite Hp. cbn [option_map]. unfold g.
        apply find_some in Hp. destruct Hp as [_ Hp].
        apply andb_true_iff in Hp. destruct Hp as [Hp _]. now rewrite Hp.
      - intros a. destruct (Hgid a) as [-> ->]. reflexivity. }
    rewrite Hp2.
    unfold ClaimsRoute.protectionExpired in *.
    cbn [p_creditCardId Set_.purchaseStatus p_status p_purchasePrice p_lowestPrice
         p_protectionEnds].
    rewrite Hk. cbn [ClaimsRoute.eligibleForClaim PurchaseStatus.eqb orb negb].
    rewrite Hx, Hd.
    change (findCard _ k) with (findCard db k). rewrite Hc.
    change (findActiveClaim _ purchaseId) with (findActiveClaim db purchaseId).
    rewrite Ha. unfold createClaim. cbn [fst snd].
    eexists. split; [reflexivity|]. cbn [c_priceDifference]. now rewrite Cdiff. }
  intros other c Hf Hs. unfold deleteClaim. rewrite Hf.
  destruct (c_status c); try reflexivity. now elim Hs.
Qed.

Lemma deleteClaim_undoes_post_witness :
  let db := Samples.db 500 Samples.eligible [] in
  exists claim,
    snd (ClaimsRoute.post db 10%Z 1%nat 3%nat) = Ok claim
    /\ claims (fst (deleteClaim (fst (ClaimsRoute.post db 10%Z 1%nat 3%nat))
                                1%nat (c_id claim))) = claims db.
Proof.
  cbv zeta.
  destruct (ClaimsRoute.post (Samples.db 500 Samples.eligible []) 10%Z 1%nat 3%nat)
    as [db1 [claim|e]] eqn:E; [|discriminate E].
  exists claim. split; [reflexivity|].
  assert (Hsnd : snd (ClaimsRoute.post (Samples.db 500 Samples.eligible [])
                                       10%Z 1%nat 3%nat) = Ok claim)
    by now rewrite E.
  pose proof (deleteClaim_undoes_post
                (Samples.db 500 Samples.eligible []) 10%Z 1%nat 3%nat claim
                (Forall_nil _) Hsnd) as H.
  cbv zeta in H. rewrite E in H. cbn [fst] in H. apply H.
Defined.

End ClaimRoutes.
Section ClaimRoutesAndFilers.
Import Store Filing ClaimActions Notions.
Local Open Scope Q_scope.

Lemma findClaimOfUser_ext db1 db2 cid u :
  claims db1 = claims db2 -> findClaimOfUser db1 cid u = findClaimOfUser db2 cid u.
Proof. unfold findClaimOfUser. now intros ->. Qed.

Lemma findClaimOfUser_found db cid u claim f :
  (forall c, c_id (f c) = c_id c) -> (forall c, c_userId (f c) = c_userId c) ->
  findClaimOfUser db cid u = Some claim ->
  findClaimOfUser (updateClaim db cid f) cid u = Some (f claim).
Proof.
  intros Hid Hu Hfind. rewrite findClaimOfUser_updateClaim by assumption.
  rewrite Hfind. cbn [option_map].
  destruct (findClaimOfUser_inv db cid u claim Hfind) as (-> & _).
  now rewrite Nat.eqb_refl.
Qed.

Lemma findClaimOfUser_after db db' cid u claim f :
  claims db' = claims (updateClaim db cid f) ->
  (forall c, c_id (f c) = c_id c) -> (forall c, c_userId (f c) = c_userId c) ->
  findClaimOfUser db cid u = Some claim ->
  findClaimOfUser db' cid u = Some (f claim).
Proof.
  intros Hc Hid Hu Hfind.
  rewrite (findClaimOfUser_ext db' (updateClaim db cid f) cid u Hc).
  now apply findClaimOfUser_found.
Qed.

(** X16.  The auto-file route runs the filer only for a claim that is DRAFT
    or READY_TO_FILE; for any other status it answers 400 without trying a
    channel or touching the store.  With the e-mail filer behind it: once a
    request has sent the claim, every further request for it is refused in
    that way, whereas after a request whose sending failed the claim is
    READY_TO_FILE and the next request runs the filer again. *)
Theorem autoFile_route_files_at_most_once
        (db : DB) (now : instant) (env : MailEnv) (toEmail : string)
        (reqUser claimId : id) (claim : Claim) :
  findClaimOfUser db claimId reqUser = Some claim ->
  let refused := fun store0 =>
    {| af_store := store0; af_attempts := [];
       af_value := Err ("Claim has already been filed or processed"%string,
                        400%nat) |} in
  let answer :=
    autoFile db (fun store0 cid => MailFiler.autoFileClaim store0 now env toEmail cid)
             reqUser claimId in
  (fileable (c_status claim) = false ->
     forall filer, autoFile db filer reqUser claimId = refused db)
  /\ (fileable (c_status claim) = true ->
      forall outcome, af_value answer = Ok outcome ->
        (success outcome = true ->
           forall filer,
             autoFile (af_store answer) filer reqUser claimId
             = refused (af_store answer))
        /\ (success outcome = false ->
            exists claim',
              findClaimOfUser (af_store answer) claimId reqUser = Some claim'
              /\ c_status claim' = ClaimStatus.READY_TO_FILE
              /\ fileable (c_status claim') = true)).
Proof.
  intros Hfind refused answer.
  destruct (findClaimOfUser_inv db claimId reqUser claim Hfind) as (Hid & Hu & Hin).
  split.
  - intros Hf filer. unfold autoFile. now rewrite Hfind, Hf.
  - intros Hf outcome. unfold answer, autoFile. rewrite Hfind, Hf.
    cbn [negb af_value af_store]. rewrite Hid.
    unfold MailFiler.autoFileClaim.
    destruct (findClaim db claimId) as [claim0|]; [|discriminate].
    destruct (cardOf db (c_creditCardId claim0)) as [card|]; [|discriminate].
    destruct (MailFiler.prepareAndSend env (findPurchase db (c_purchaseId claim0)))
      as [[[pdf shot] tried] [[messageId sendMethod]|message]];
      cbn [value store]; intros [= <-]; cbn [success]; split; try discriminate.
    + intros _ filer. unfold autoFile.
      match goal with
      | |- context [findClaimOfUser ?d claimId reqUser] =>
          assert (Hnew : exists c', findClaimOfUser d claimId reqUser = Some c'
                                    /\ c_status c' = ClaimStatus.EMAIL_SENT)
            by (eexists; split;
                [eapply (findClaimOfUser_after db d claimId reqUser claim);
                 [reflexivity | reflexivity | reflexivity | exact Hfind]
                | reflexivity])
      end.
      destruct Hnew as (c' & H1 & H2). rewrite H1. cbv beta iota. rewrite H2.
      reflexivity.
    + intros _. eexists. split.
      * eapply (findClaimOfUser_after db _ claimId reqUser claim);
          [reflexivity | reflexivity | reflexivity | exact Hfind].
      * now split.
Qed.

Lemma autoFile_route_files_at_most_once_witness :
  let answer :=
    autoFile Samples.withDraft
             (fun store0 cid =>
                MailFiler.autoFileClaim store0 10%Z Samples.gmailDown
                                        "claims@acmebank.example" cid)
             1%nat 4%nat in
  af_attempts answer = [Gmail; SendGrid]
  /\ forall filer,
       autoFile (af_store answer) filer 1%nat 4%nat
       = {| af_store := af_store answer; af_attempts := [];
            af_value := Err ("Claim has already been filed or processed"%string,
                             400%nat) |}.
Proof.
  cbv zeta. split; [reflexivity|].
  exact (proj1 (proj2 (autoFile_route_files_at_most_once
                         Samples.withDraft 10%Z Samples.gmailDown
                         "claims@acmebank.example" 1%nat 4%nat
                         Samples.draftClaim eq_refl)
                      eq_refl
                      {| success := true; method := "email"; error := None |}
                      eq_refl)
               eq_refl).
Defined.

(** X17.  generate-docs makes a claim READY_TO_FILE whatever its status
    was: after it, the route that marks a claim as filed accepts the claim
    again, also when the claim had been FILED, APPROVED or paid before.  The
    amounts of the claim are not changed. *)
Theorem generateDocs_reopens_any_claim
        (db : DB) (url : string) (reqUser claimId : id) (claim : Claim) :
  findClaimOfUser db claimId reqUser = Some claim ->
  let db1 := fst (generateDocs db (Ok url) reqUser claimId) in
  exists claim1,
    findClaimOfUser db1 claimId reqUser = Some claim1
    /\ c_status claim1 = ClaimStatus.READY_TO_FILE
    /\ c_proofDocumentUrl claim1 = Some url
    /\ c_priceDifference claim1 = c_priceDifference claim
    /\ forall now number,
         exists filed,
           snd (file db1 now reqUser claimId number) = Ok filed
           /\ c_status filed = ClaimStatus.FILED
           /\ c_filedAt filed = Some now.
Proof.
  intros Hfind. cbv zeta. unfold generateDocs. rewrite Hfind. cbn [fst].
  destruct (findClaimOfUser_inv db claimId reqUser claim Hfind) as (Hid & Hu & Hin).
  rewrite Hid.
  set (f := fun c => Set_.status ClaimStatus.READY_TO_FILE
                       (Set_.proofDocumentUrl (Some url) c)).
  assert (Hfound : findClaimOfUser (updateClaim db claimId f) claimId reqUser
                   = Some (f claim)).
  { apply findClaimOfUser_found; [reflexivity|reflexivity|exact Hfind]. }
  exists (f claim). split; [exact Hfound|].
  split; [reflexivity|]. split; [reflexivity|]. split; [reflexivity|].
  intros now number. unfold file. rewrite Hfound.
  cbn [f c_status Set_.status fileable ClaimStatus.eqb orb negb snd].
  eexists. split; [reflexivity|].
  destruct (file_data now number (f claim)) as (_ & _ & H3 & H4 & _).
  now split.
Qed.

Lemma generateDocs_reopens_any_claim_witness :
  let filedDb := fst (file Samples.withDraft 10%Z 1%nat 4%nat None) in
  Spec.statusOf filedDb 4%nat = Some ClaimStatus.FILED
  /\ exists claim1,
       findClaimOfUser (fst (generateDocs filedDb (Ok "claim_4.pdf"%string) 1%nat 4%nat))
                       4%nat 1%nat = Some claim1
       /\ c_status claim1 = ClaimStatus.READY_TO_FILE.
Proof.
  cbv zeta. split; [reflexivity|].
  destruct (generateDocs_reopens_any_claim
              (fst (file Samples.withDraft 10%Z 1%nat 4%nat None))
              "claim_4.pdf"%string 1%nat 4%nat
              (Set_.filedAt (Some 10%Z)
                            (Set_.status ClaimStatus.FILED Samples.draftClaim))
              eq_refl)
    as (claim1 & H1 & H2 & _).
  exists claim1. now split.
Defined.

Lemma patch_data status number notes c :
  let c' := setIfGiven Set_.responseNotes notes
              (setIfGiven Set_.claimNumber number (Set_.status status c)) in
  c_id c' = c_id c /\ c_userId c' = c_userId c /\ c_status c' = status
  /\ c_purchaseId c' = c_purchaseId c
  /\ c_priceDifference c' = c_priceDifference c.
Proof.
  cbv zeta.
  destruct (setIfGiven_responseNotes notes
              (setIfGiven Set_.claimNumber number (Set_.status status c)))
    as (A1 & A2 & A3 & A4 & _ & _ & _ & A8 & _).
  destruct (setIfGiven_claimNumber number (Set_.status status c))
    as (B1 & B2 & B3 & B4 & _ & _ & _ & B8 & _).
  rewrite A1, A2, A3, A4, A8, B1, B2, B3, B4, B8. now repeat split.
Qed.

(** X18.  The status route records a resolution without looking at the
    status the claim has: any of the five tracked statuses is written to any
    claim of the user, and any other value is answered 400.  APPROVED marks
    the purchase CLAIM_APPROVED and DENIED marks it CLAIM_DENIED; the other
    three leave every purchase alone.  After a denial the claim no longer
    counts as active, yet the claims route refuses a new claim for the
    purchase, whose status is then CLAIM_DENIED. *)
Theorem patchStatus_records_a_resolution
        (db : DB) (reqUser claimId : id) (status : ClaimStatus.t)
        (number notes : option string) (claim : Claim) :
  findClaimOfUser db claimId reqUser = Some claim ->
  let answer := patchStatus db reqUser claimId status number notes in
  (trackable status = false ->
     answer = (db, Err ("Validation failed"%string, 400%nat)))
  /\ (trackable status = true ->
      exists claim',
        snd answer = Ok claim'
        /\ findClaimOfUser (fst answer) claimId reqUser = Some claim'
        /\ c_status claim' = status
        /\ c_priceDifference claim' = c_priceDifference claim
        /\ findPurchase (fst answer) (c_purchaseId claim)
           = option_map
               (match status with
                | ClaimStatus.APPROVED =>
                    Set_.purchaseStatus PurchaseStatus.CLAIM_APPROVED
                | ClaimStatus.DENIED =>
                    Set_.purchaseStatus PurchaseStatus.CLAIM_DENIED
                | _ => fun p => p
                end)
               (findPurchase db (c_purchaseId claim))
        /\ (status <> ClaimStatus.APPROVED -> status <> ClaimStatus.DENIED ->
            purchases (fst answer) = purchases db)
        /\ List.length (notifications (fst answer))
           = S (List.length (notifications db)))
  /\ (status = ClaimStatus.DENIED ->
      ~ In claimId (map c_id (activeClaims (fst answer) (c_purchaseId claim)))
      /\ forall now user,
           exists e,
             ClaimsRoute.post (fst answer) now user (c_purchaseId claim)
             = (fst answer, Err e)).
Proof.
  intros Hfind answer.
  destruct (findClaimOfUser_inv db claimId reqUser claim Hfind) as (Hid & Hu & Hin).
  unfold answer, patchStatus.
  split; [intros Ht; now rewrite Ht|].
  set (data := fun c => setIfGiven Set_.responseNotes notes
                          (setIfGiven Set_.claimNumber number (Set_.status status c))).
  pose proof (patch_data status number notes) as Hdata. cbv zeta in Hdata.
  fold data in Hdata.
  split.
  - intros Ht. rewrite Ht, Hfind. cbn [negb fst snd]. rewrite Hid.
    exists (data claim).
    destruct (Hdata claim) as (D1 & D2 & D3 & D4 & D5).
    split; [reflexivity|]. split.
    { eapply (findClaimOfUser_after _ _ claimId reqUser claim data).
      - destruct status; reflexivity.
      - intros c. apply Hdata.
      - intros c. apply Hdata.
      - exact Hfind. }
    split; [exact D3|]. split; [exact D5|]. split.
    { destruct status; try reflexivity;
        unfold findPurchase; cbn [purchases createNotification withNotifications
                                   updateClaim withClaims updatePurchase withPurchases];
        try (apply find_map_update; reflexivity);
        now destruct (find _ (purchases db)). }
    split.
    { intros H1 H2. destruct status; try reflexivity; contradiction. }
    destruct status; cbn; rewrite length_app; cbn; lia.
  - intros ->. cbn [trackable negb]. rewrite Hfind. cbn [fst]. rewrite Hid.
    split.
    + unfold activeClaims.
      cbn [claims createNotification withNotifications updateClaim withClaims
           updatePurchase withPurchases].
      intros Hact. apply in_map_iff in Hact. destruct Hact as (c & Hcid & Hc).
      apply filter_In in Hc. destruct Hc as [Hc Hq].
      apply in_map_iff in Hc. destruct Hc as (c0 & <- & Hc0).
      destruct (Nat.eqb_spec (c_id c0) claimId) as [E|E].
      * apply andb_true_iff in Hq. destruct Hq as [_ Hq].
        try unfold data in Hq.
        destruct (patch_data ClaimStatus.DENIED number notes c0)
          as (_ & _ & P3 & _).
        rewrite P3 in Hq. discriminate.
      * contradiction.
    + intros now user. unfold ClaimsRoute.post.
      unfold findPurchaseOfUser.
      cbn [purchases createNotification withNotifications updateClaim withClaims
           updatePurchase withPurchases].
      rewrite find_map_same.
      2:{ intros a. destruct (p_id a =? c_purchaseId claim)%nat eqn:E;
          cbn [p_id p_userId Set_.purchaseStatus]; now rewrite ?E. }
      destruct (find _ (purchases db)) as [p|] eqn:F;
        [|eexists; reflexivity].
      cbn [option_map]. apply find_some in F. destruct F as [_ F].
      apply andb_true_iff in F. destruct F as [F _]. rewrite F.
      cbn [p_creditCardId Set_.purchaseStatus p_status].
      destruct (p_creditCardId p); eexists; reflexivity.
Qed.

Lemma patchStatus_records_a_resolution_witness :
  exists claim',
    snd (patchStatus Samples.withDraft 1%nat 4%nat ClaimStatus.DENIED None
                     (Some "Not covered"%string)) = Ok claim'
    /\ c_status claim' = ClaimStatus.DENIED
    /\ c_responseNotes claim' = Some "Not covered"%string.
Proof.
  destruct (proj1 (proj2 (patchStatus_records_a_resolution
                            Samples.withDraft 1%nat 4%nat ClaimStatus.DENIED None
                            (Some "Not covered"%string) Samples.draftClaim eq_refl))
                  eq_refl)
    as (claim' & H1 & _ & H3 & _).
  exists claim'. split; [exact H1|]. split; [exact H3|].
  vm_compute in H1. injection H1 as <-. reflexivity.
Defined.

End ClaimRoutesAndFilers.
(* ------------------------------------------------------------------------- *)
(** ** Amounts of a claim are written once *)

Section ClaimAmountsKept.
Import Store Filing ClaimActions Notions.
Local Open Scope Q_scope.

Lemma keepsAmounts_id : Spec.keepsAmounts (fun c => c).
Proof. intros c0. now repeat split. Qed.

Lemma keepsAmounts_compose g1 g2 :
  Spec.keepsAmounts g1 -> Spec.keepsAmounts g2 ->
  Spec.keepsAmounts (fun c => g2 (g1 c)).
Proof.
  intros H1 H2 c.
  destruct (H1 c) as (A1 & A2 & A3 & A4 & A5).
  destruct (H2 (g1 c)) as (B1 & B2 & B3 & B4 & B5).
  repeat split; congruence.
Qed.

Lemma keepsAmounts_update k f :
  Spec.keepsAmounts f ->
  Spec.keepsAmounts (fun c => if (c_id c =? k)%nat then f c else c).
Proof.
  intros H c. destruct (c_id c =? k)%nat; [apply H | now repeat split].
Qed.

Lemma keepsAmounts_setIfGiven_claimNumber v : Spec.keepsAmounts (setIfGiven Set_.claimNumber v).
Proof.
  intros c. destruct (setIfGiven_claimNumber v c) as (H1 & _ & _ & H4 & _ & H6 & H7 & H8 & _).
  now repeat split.
Qed.

Lemma keepsAmounts_setIfGiven_responseNotes v :
  Spec.keepsAmounts (setIfGiven Set_.responseNotes v).
Proof.
  intros c.
  destruct (setIfGiven_responseNotes v c) as (H1 & _ & _ & H4 & _ & H6 & H7 & H8 & _).
  now repeat split.
Qed.

Lemma rewritesClaims_refl db db' : claims db' = claims db -> rewritesClaims db db'.
Proof.
  intros H. exists (fun c => c). split; [apply keepsAmounts_id|].
  now rewrite map_id.
Qed.

Lemma rewritesClaims_update db db' k f :
  Spec.keepsAmounts f -> claims db' = claims (updateClaim db k f) ->
  rewritesClaims db db'.
Proof.
  intros Hf H. exists (fun c => if (c_id c =? k)%nat then f c else c).
  split; [now apply keepsAmounts_update | exact H].
Qed.

Lemma rewritesClaims_trans db db1 db2 :
  rewritesClaims db db1 -> rewritesClaims db1 db2 -> rewritesClaims db db2.
Proof.
  intros (g1 & K1 & E1) (g2 & K2 & E2).
  exists (fun c => g2 (g1 c)). split; [now apply keepsAmounts_compose|].
  now rewrite E2, E1, map_map.
Qed.

Lemma claimService_rewrites db now env hasEmail cid :
  rewritesClaims db (store (ClaimService.autoFileClaim db now env hasEmail cid)).
Proof.
  unfold ClaimService.autoFileClaim.
  destruct (findClaim db cid) as [claim|]; [|now apply rewritesClaims_refl].
  destruct (cardOf db (c_creditCardId claim)); [|now apply rewritesClaims_refl].
  destruct (generateClaimDocumentation env); [|now apply rewritesClaims_refl].
  destruct (if hasEmail then sendViaSmtp env else _); cbn [store];
    (eapply rewritesClaims_update; [|reflexivity]); intros c0; now repeat split.
Qed.

Lemma portalFallback_rewrites db now env hasEmail claim :
  rewritesClaims db (store (PortalFiler.fileClaimViaEmail db now env hasEmail claim)).
Proof.
  unfold PortalFiler.fileClaimViaEmail.
  pose proof (claimService_rewrites db now env hasEmail (c_id claim)) as H.
  destruct (value (ClaimService.autoFileClaim db now env hasEmail (c_id claim)));
    cbn [store]; [exact H|].
  eapply rewritesClaims_trans; [exact H|].
  eapply rewritesClaims_update; [|reflexivity]. intros c0. now repeat split.
Qed.

Lemma portalFiler_rewrites db now penv env hasEmail cid :
  rewritesClaims db (store (PortalFiler.autoFileClaim db now penv env hasEmail cid)).
Proof.
  unfold PortalFiler.autoFileClaim.
  destruct (findClaim db cid) as [claim|]; [|now apply rewritesClaims_refl].
  destruct (cardOf db (c_creditCardId claim)) as [card|];
    [|now apply rewritesClaims_refl].
  destruct (PortalFiler.CLAIM_PORTALS (cc_issuer card));
    [|apply portalFallback_rewrites].
  destruct (PortalFiler.launches penv); cbn [negb];
    [|apply portalFallback_rewrites].
  destruct (PortalFiler.documentation penv); [|apply portalFallback_rewrites].
  destruct (PortalFiler.runSteps true l (PortalFiler.outcomes penv) 0);
    [|apply portalFallback_rewrites].
  cbn [store]. eapply rewritesClaims_update; [|reflexivity].
  intros c0. now repeat split.
Qed.

Lemma mailFiler_rewrites db now env toEmail cid :
  rewritesClaims db (store (MailFiler.autoFileClaim db now env toEmail cid)).
Proof.
  unfold MailFiler.autoFileClaim.
  destruct (findClaim db cid) as [claim|]; [|now apply rewritesClaims_refl].
  destruct (cardOf db (c_creditCardId claim)) as [card|];
    [|now apply rewritesClaims_refl].
  destruct (MailFiler.prepareAndSend env (findPurchase db (c_purchaseId claim)))
    as [[[pdf shot] tried] [[messageId sendMethod]|message]]; cbn [store];
    (eapply rewritesClaims_update; [|reflexivity]); intros c0; now repeat split.
Qed.

(** X19.  The amounts of a claim are written once, when it is created: no
    handler that follows a claim (generate-docs, mark as filed, the status
    route) and no filer (the e-mail filer, the portal filer with its
    fallback, the claim service) adds or removes a claim or changes the id,
    the purchase, the original price, the new price or the claimed
    difference of any claim. *)
Theorem claim_amounts_are_never_rewritten (db : DB) (now : instant) :
  (forall docUrl user cid,
      rewritesClaims db (fst (generateDocs db docUrl user cid)))
  /\ (forall user cid number, rewritesClaims db (fst (file db now user cid number)))
  /\ (forall user cid status number notes,
         rewritesClaims db (fst (patchStatus db user cid status number notes)))
  /\ (forall env toEmail cid,
         rewritesClaims db (store (MailFiler.autoFileClaim db now env toEmail cid)))
  /\ (forall penv env hasEmail cid,
         rewritesClaims db
           (store (PortalFiler.autoFileClaim db now penv env hasEmail cid)))
  /\ (forall env hasEmail cid,
         rewritesClaims db (store (ClaimService.autoFileClaim db now env hasEmail cid))).
Proof.
  split; [|split; [|split; [|split; [|split]]]].
  - intros docUrl user cid. unfold generateDocs.
    destruct (findClaimOfUser db cid user); [|now apply rewritesClaims_refl].
    destruct docUrl; [|now apply rewritesClaims_refl].
    cbn [fst]. eapply rewritesClaims_update; [|reflexivity].
    intros c0. now repeat split.
  - intros user cid number. unfold file.
    destruct (findClaimOfUser db cid user) as [c|]; [|now apply rewritesClaims_refl].
    destruct (negb (fileable (c_status c))); [now apply rewritesClaims_refl|].
    cbn [fst]. eapply rewritesClaims_update; [|reflexivity].
    apply (keepsAmounts_compose
             (fun c0 => Set_.filedAt (Some now) (Set_.status ClaimStatus.FILED c0))
             (setIfGiven Set_.claimNumber number)).
    + intros c0. now repeat split.
    + apply keepsAmounts_setIfGiven_claimNumber.
  - intros user cid status number notes. unfold patchStatus.
    destruct (negb (trackable status)); [now apply rewritesClaims_refl|].
    destruct (findClaimOfUser db cid user) as [c|]; [|now apply rewritesClaims_refl].
    cbn [fst].
    apply (rewritesClaims_update db _ (c_id c)
             (fun c0 => setIfGiven Set_.responseNotes notes
                          (setIfGiven Set_.claimNumber number
                                      (Set_.status status c0)))).
    + apply (keepsAmounts_compose
               (fun c0 => setIfGiven Set_.claimNumber number (Set_.status status c0))
               (setIfGiven Set_.responseNotes notes)).
      * apply (keepsAmounts_compose (Set_.status status)
                                    (setIfGiven Set_.claimNumber number)).
        -- intros c0. now repeat split.
        -- apply keepsAmounts_setIfGiven_claimNumber.
      * apply keepsAmounts_setIfGiven_responseNotes.
    + now destruct status.
  - intros env toEmail cid. apply mailFiler_rewrites.
  - intros penv env hasEmail cid. apply portalFiler_rewrites.
  - intros env hasEmail cid. apply claimService_rewrites.
Qed.

End ClaimAmountsKept.
(* ------------------------------------------------------------------------- *)
(** ** The claim jobs *)

Section CatchUp.
Import Store Filing ClaimJobs Notions.
Local Open Scope Q_scope.

Lemma behaves_noop db db' cid :
  claims db' = claims db ->
  exists f,
    claims db' = map (fun c => if (c_id c =? cid)%nat then f c else c) (claims db)
    /\ Spec.keepsAmounts f
    /\ forall c, activeStatus (c_status c) = true ->
                 activeStatus (c_status (f c)) = true.
Proof.
  intros H. exists (fun c => c). split; [|split].
  - rewrite H. rewrite <- (map_id (claims db)) at 1. apply map_ext.
    intros c. now destruct (c_id c =? cid)%nat.
  - apply keepsAmounts_id.
  - trivial.
Qed.

Lemma behaves_update db db' cid f :
  claims db' = claims (updateClaim db cid f) ->
  Spec.keepsAmounts f ->
  (forall c, activeStatus (c_status (f c)) = true) ->
  exists f,
    claims db' = map (fun c => if (c_id c =? cid)%nat then f c else c) (claims db)
    /\ Spec.keepsAmounts f
    /\ forall c, activeStatus (c_status c) = true ->
                 activeStatus (c_status (f c)) = true.
Proof.
  intros H K A. exists f. split; [exact H|]. split; [exact K|]. intros c _. apply A.
Qed.


Lemma claimService_behaves now env hasEmail :
  filerBehaves (fun db cid => ClaimService.autoFileClaim db now env hasEmail cid).
Proof.
  intros db cid. cbv zeta. unfold ClaimService.autoFileClaim.
  destruct (findClaim db cid) as [claim|];
    [|repeat (split; [reflexivity|]); now apply behaves_noop].
  destruct (cardOf db (c_creditCardId claim)) as [card|];
    [|repeat (split; [reflexivity|]); now apply behaves_noop].
  destruct (generateClaimDocumentation env);
    [|repeat (split; [reflexivity|]); now apply behaves_noop].
  destruct (if hasEmail then sendViaSmtp env else _); cbn [store];
    repeat (split; [reflexivity|]);
    (eapply behaves_update; [reflexivity | intros c0; now repeat split | reflexivity]).
Qed.

Lemma portalFallback_behaves db now env hasEmail claim :
  let db' := store (PortalFiler.fileClaimViaEmail db now env hasEmail claim) in
  nextId db' = nextId db
  /\ users db' = users db
  /\ creditCards db' = creditCards db
  /\ exists f,
       claims db' = map (fun c => if (c_id c =? c_id claim)%nat then f c else c)
                        (claims db)
       /\ Spec.keepsAmounts f
       /\ forall c, activeStatus (c_status c) = true ->
                    activeStatus (c_status (f c)) = true.
Proof.
  cbv zeta. unfold PortalFiler.fileClaimViaEmail.
  pose proof (claimService_behaves now env hasEmail db (c_id claim)) as H.
  cbv beta zeta in H. destruct H as (N & U & C & f1 & E1 & K1 & A1).
  destruct (value (ClaimService.autoFileClaim db now env hasEmail (c_id claim)));
    cbn [store].
  - repeat (split; [assumption|]). now exists f1.
  - cbn [nextId users creditCards updateClaim withClaims].
    repeat (split; [assumption|]).
    exists (fun c => Set_.responseNotes
                       (Some ("Auto-filing failed (both portal and email). Error: "
                              ++ e ++ ". Please file manually.")%string)
                       (Set_.status ClaimStatus.READY_TO_FILE (f1 c))).
    split; [|split].
    + unfold updateClaim. cbn [claims withClaims]. rewrite E1, map_map. apply map_ext. intros c.
      destruct (c_id c =? c_id claim)%nat eqn:Eid.
      * destruct (K1 c) as (Kid & _). rewrite Kid, Eid. reflexivity.
      * now rewrite Eid.
    + intros c. destruct (K1 c) as (K11 & K12 & K13 & K14 & K15).
      now repeat split.
    + reflexivity.
Qed.

Lemma portalFiler_behaves now penv env hasEmail :
  filerBehaves (fun db cid => PortalFiler.autoFileClaim db now penv env hasEmail cid).
Proof.
  intros db cid. cbv zeta. unfold PortalFiler.autoFileClaim.
  destruct (findClaim db cid) as [claim|] eqn:Hfind;
    [|repeat (split; [reflexivity|]); now apply behaves_noop].
  assert (Hid : c_id claim = cid).
  { unfold findClaim in Hfind. apply find_some in Hfind.
    now apply Nat.eqb_eq. }
  pose proof (portalFallback_behaves db now env hasEmail claim) as Hfb.
  cbv zeta in Hfb. rewrite Hid in Hfb.
  destruct (cardOf db (c_creditCardId claim)) as [card|];
    [|repeat (split; [reflexivity|]); now apply behaves_noop].
  destruct (PortalFiler.CLAIM_PORTALS (cc_issuer card)); [|exact Hfb].
  destruct (PortalFiler.launches penv); cbn [negb]; [|exact Hfb].
  destruct (PortalFiler.documentation penv); [|exact Hfb].
  destruct (PortalFiler.runSteps true l (PortalFiler.outcomes penv) 0);
    [|exact Hfb].
  cbn [store]. repeat (split; [reflexivity|]).
  eapply behaves_update; [reflexivity | intros c0; now repeat split | reflexivity].
Qed.









End CatchUp.
Section ProcessAutoClaims.
Import Store Filing ClaimJobs Notions.
Local Open Scope Q_scope.

Lemma service_claims_exact db now env cid :
  exists f,
    claims (store (AutoClaimService.fileClaimViaEmail db now env cid))
    = map (fun c => if (c_id c =? cid)%nat then f c else c) (claims db)
    /\ Spec.keepsAmounts f.
Proof.
  assert (Hnoop : forall db', claims db' = claims db ->
            exists f, claims db'
                      = map (fun c => if (c_id c =? cid)%nat then f c else c) (claims db)
                      /\ Spec.keepsAmounts f).
  { intros db' H. destruct (behaves_noop db db' cid H) as (f & E & K & _).
    now exists f. }
  unfold AutoClaimService.fileClaimViaEmail.
  destruct (findClaim db cid) as [claim|]; [|now apply Hnoop].
  destruct (cardOf db (c_creditCardId claim)) as [card|]; [|now apply Hnoop].
  destruct (AutoClaimService.resolveClaimEmail env card); [|now apply Hnoop].
  destruct (AutoClaimService.prepareAndSend env (findPurchase db (c_purchaseId claim)))
    as [tried [[[docUrl shot] messageId]|message]]; cbn [store];
    (eexists; split; [reflexivity|]); intros c0; now repeat split.
Qed.

Lemma NoDup_map_inj {A B} (f : A -> B) (l : list A) x y :
  NoDup (map f l) -> In x l -> In y l -> f x = f y -> x = y.
Proof.
  induction l as [|a l IH]; intros Hnd Hx Hy Hf; [destruct Hx|].
  cbn [map] in Hnd. inversion Hnd as [|? ? Hnotin Hnd']; subst.
  destruct Hx as [<-|Hx], Hy as [<-|Hy].
  - reflexivity.
  - exfalso. apply Hnotin. rewrite Hf. now apply in_map.
  - exfalso. apply Hnotin. rewrite <- Hf. now apply in_map.
  - now apply IH.
Qed.

(** One turn of the loop: the claims are rewritten row by row, at most one
    claim is counted and one result added, and every claim the turn does not
    pass to the filer is still there. *)
Lemma processTurn_effect read world acc claim :
  let acc' := processTurn read world acc claim in
  rewritesClaims (fst (fst acc)) (fst (fst acc'))
  /\ (snd (fst acc) <= snd (fst acc') <= S (snd (fst acc)))%nat
  /\ (List.length (snd acc') <= S (List.length (snd acc)))%nat
  /\ (snd (fst acc') - snd (fst acc) <= List.length (snd acc') - List.length (snd acc))%nat
  /\ (forall c, In c (claims (fst (fst acc))) ->
                (c_id c <> c_id claim
                 \/ cardOf read (c_creditCardId claim) = None
                 \/ exists card, cardOf read (c_creditCardId claim) = Some card
                                 /\ cc_autoClaimEnabled card = false) ->
                In c (claims (fst (fst acc')))).
Proof.
  destruct acc as [[db filed0] results0]. cbv zeta. unfold processTurn.
  cbn [fst snd].
  assert (Hsame : rewritesClaims db db
                  /\ (filed0 <= filed0 <= S filed0)%nat
                  /\ (List.length results0 <= S (List.length results0))%nat
                  /\ (filed0 - filed0 <= List.length results0 - List.length results0)%nat
                  /\ (forall c, In c (claims db) ->
                        (c_id c <> c_id claim
                         \/ cardOf read (c_creditCardId claim) = None
                         \/ exists card,
                              cardOf read (c_creditCardId claim) = Some card
                              /\ cc_autoClaimEnabled card = false) ->
                        In c (claims db))).
  { split; [now apply rewritesClaims_refl|]. repeat split; try lia. trivial. }
  destruct (cardOf read (c_creditCardId claim)) as [card|] eqn:Hcard;
    [|exact Hsame].
  destruct (cc_autoClaimEnabled card) eqn:Hen; cbn [negb]; [|exact Hsame].
  clear Hsame.
  destruct (service_claims_exact db (fst (world (c_id claim)))
                                 (snd (world (c_id claim))) (c_id claim))
    as (f & E & K).
  assert (Hrw : rewritesClaims
                  db (store (AutoClaimService.fileClaimViaEmail
                               db (fst (world (c_id claim)))
                               (snd (world (c_id claim))) (c_id claim)))).
  { exists (fun c => if (c_id c =? c_id claim)%nat then f c else c).
    split; [now apply keepsAmounts_update | exact E]. }
  assert (Hkeep : forall c, In c (claims db) ->
            (c_id c <> c_id claim
             \/ Some card = None
             \/ exists card0, Some card = Some card0
                              /\ cc_autoClaimEnabled card0 = false) ->
            In c (claims (store (AutoClaimService.fileClaimViaEmail
                                   db (fst (world (c_id claim)))
                                   (snd (world (c_id claim))) (c_id claim))))).
  { intros c Hin [Hne|[Hn|(card0 & Hc0 & Hd)]].
    - rewrite E. apply in_map_iff. exists c. split; [|exact Hin].
      destruct (Nat.eqb_spec (c_id c) (c_id claim)); [contradiction | reflexivity].
    - discriminate.
    - injection Hc0 as <-. congruence. }
  destruct (value (AutoClaimService.fileClaimViaEmail _ _ _ _));
    cbn [fst snd]; rewrite length_app; cbn [List.length];
    (split; [exact Hrw|]); repeat split; try lia; exact Hkeep.
Qed.

Lemma process_fold_effect read world todo acc :
  let acc' := fold_left (processTurn read world) todo acc in
  rewritesClaims (fst (fst acc)) (fst (fst acc'))
  /\ (snd (fst acc') <= snd (fst acc) + List.length todo)%nat
  /\ (List.length (snd acc') <= List.length (snd acc) + List.length todo)%nat
  /\ (forall c, In c (claims (fst (fst acc))) ->
                (forall claim, In claim todo ->
                   c_id c <> c_id claim
                   \/ cardOf read (c_creditCardId claim) = None
                   \/ exists card, cardOf read (c_creditCardId claim) = Some card
                                   /\ cc_autoClaimEnabled card = false) ->
                In c (claims (fst (fst acc')))).
Proof.
  revert acc. induction todo as [|claim todo IH]; intros acc; cbn [fold_left].
  - cbv zeta. split; [now apply rewritesClaims_refl|].
    repeat split; try lia. trivial.
  - pose proof (processTurn_effect read world acc claim) as Ht. cbv zeta in Ht.
    destruct Ht as (T1 & T2 & T3 & _ & T5).
    specialize (IH (processTurn read world acc claim)). cbv zeta in IH.
    destruct IH as (I1 & I2 & I3 & I4). cbv zeta. cbn [List.length].
    split; [eapply rewritesClaims_trans; eassumption|].
    split; [lia|]. split; [lia|].
    intros c Hin Hall. apply I4.
    + apply T5; [exact Hin|]. apply Hall. now left.
    + intros claim' Hin'. apply Hall. now right.
Qed.

(** X21.  [processAutoClaimsForUser] does nothing, and counts nothing, for
    a user that does not exist or has automatic filing switched off.
    Otherwise it files at most the claims its query selected, adds and
    removes no claim and changes no amount; and, the ids of the claims being
    distinct, it leaves untouched every claim it does not pass to the filer:
    the claims of other users, the claims its query does not select, and the
    claims whose card has automatic claiming switched off. *)
Theorem processAutoClaimsForUser_effect
        (db : DB) (now : instant) (world : id -> instant * MailEnv) (userId : id) :
  let answer := processAutoClaimsForUser db now world userId in
  ((findUser db userId = None
    \/ exists user, findUser db userId = Some user
                    /\ u_autoFileClaimsEnabled user = false) ->
   answer = (db, {| processed := 0; filed := 0; results := [] |}))
  /\ (filed (snd answer) <= processed (snd answer))%nat
  /\ (List.length (results (snd answer)) <= processed (snd answer))%nat
  /\ (processed (snd answer)
      <= List.length (filter (autoClaimWhere db now userId) (claims db)))%nat
  /\ rewritesClaims db (fst answer)
  /\ (NoDup (map c_id (claims db)) ->
      forall c, In c (claims db) ->
        (c_userId c <> userId
         \/ autoClaimWhere db now userId c = false
         \/ cardOf db (c_creditCardId c) = None
         \/ exists card, cardOf db (c_creditCardId c) = Some card
                         /\ cc_autoClaimEnabled card = false) ->
        In c (claims (fst answer))).
Proof.
  intros answer. unfold answer, processAutoClaimsForUser.
  assert (Hzero : let a := (db, {| processed := 0%nat; filed := 0%nat; results := [] |}) in
                  (filed (snd a) <= processed (snd a))%nat
                  /\ (List.length (results (snd a)) <= processed (snd a))%nat
                  /\ (processed (snd a)
                      <= List.length (filter (autoClaimWhere db now userId)
                                             (claims db)))%nat
                  /\ rewritesClaims db (fst a)
                  /\ (NoDup (map c_id (claims db)) ->
                      forall c, In c (claims db) ->
                        (c_userId c <> userId
                         \/ autoClaimWhere db now userId c = false
                         \/ cardOf db (c_creditCardId c) = None
                         \/ exists card, cardOf db (c_creditCardId c) = Some card
                                         /\ cc_autoClaimEnabled card = false) ->
                        In c (claims (fst a)))).
  { cbv zeta. cbn [fst snd processed filed results List.length].
    repeat split; try lia.
    - now apply rewritesClaims_refl.
    - trivial. }
  destruct (findUser db userId) as [user|] eqn:Huser.
  - destruct (u_autoFileClaimsEnabled user) eqn:Hen; cbn [negb].
    + pose proof (process_fold_effect db world
                    (filter (autoClaimWhere db now userId) (claims db))
                    (db, 0%nat, [])) as Hf.
      cbv zeta in Hf.
      destruct (fold_left (processTurn db world)
                          (filter (autoClaimWhere db now userId) (claims db))
                          (db, 0%nat, [])) as [[db' filed'] results'].
      cbn [fst snd processed filed results List.length] in *.
      destruct Hf as (F1 & F2 & F3 & F4).
      split.
      { intros [Hnone|(u & Hu & Hoff)]; [discriminate|].
        injection Hu as <-. congruence. }
      split; [lia|]. split; [lia|]. split; [lia|]. split; [exact F1|].
      intros Hnd c Hin Hwhy. apply F4; [exact Hin|].
      intros claim Hclaim. apply filter_In in Hclaim. destruct Hclaim as [Hcin Hsel].
      destruct (cardOf db (c_creditCardId claim)) as [card|] eqn:Hcard;
        [|right; now left].
      destruct (cc_autoClaimEnabled card) eqn:Hcen;
        [|right; right; now exists card].
      left. intros Hid.
      assert (Heq : c = claim) by exact (NoDup_map_inj c_id _ c claim Hnd Hin Hcin Hid).
      subst claim.
      destruct Hwhy as [Hu|[Hw|[Hn|(card0 & Hc0 & Hoff)]]].
      * apply andb_true_iff in Hsel. destruct Hsel as [Hsel _].
        apply andb_true_iff in Hsel. destruct Hsel as [Hsel _].
        apply Nat.eqb_eq in Hsel. contradiction.
      * congruence.
      * congruence.
      * congruence.
    + split; [reflexivity | exact Hzero].
  - split; [reflexivity | exact Hzero].
Qed.

End ProcessAutoClaims.
(* ------------------------------------------------------------------------- *)
(** ** Creating claims and purchases: what is left open above *)

Section PostRoute.
Import Store Filing ClaimActions Notions.
Local Open Scope Q_scope.



End PostRoute.

Section RuleBasedExtraction.
Import Store EmailParser Notions.
Local Open Scope Q_scope.

Lemma insertDesc_head x l y rest :
  insertDesc x l = y :: rest ->
  x <= y /\ (forall h tl, l = h :: tl -> h <= y) /\ (y = x \/ exists tl, l = y :: tl).
Proof.
  destruct l as [|h tl]; cbn [insertDesc].
  - intros [= <- <-]. split; [apply Qle_refl|]. split; [discriminate | now left].
  - destruct (Js.ltb x h) eqn:E.
    + intros [= <- <-]. apply Js_ltb_lt in E.
      split; [now apply Qlt_le_weak|]. split.
      * intros h' tl' [= <- <-]. apply Qle_refl.
      * right. now exists tl.
    + intros [= <- <-]. apply Js_ltb_ge in E.
      split; [apply Qle_refl|]. split.
      * intros h' tl' [= <- <-]. exact E.
      * now left.
Qed.

Lemma sortDesc_head_max l y rest :
  sortDesc l = y :: rest -> In y l /\ forall x, In x l -> x <= y.
Proof.
  revert y rest. induction l as [|a l IH]; intros y rest; cbn [sortDesc fold_right].
  - discriminate.
  - fold (sortDesc l). intros H.
    destruct (insertDesc_head a (sortDesc l) y rest H) as (Ha & Hh & Hy).
    split.
    + destruct Hy as [->|(tl & Htl)]; [now left|].
      right. exact (proj1 (IH y tl Htl)).
    + intros x [<-|Hx]; [exact Ha|].
      destruct (sortDesc l) as [|h tl] eqn:Hs.
      * exfalso. clear - Hs Hx.
        assert (Hlen : forall l0, sortDesc l0 = [] -> l0 = []).
        { intros l0. destruct l0 as [|b l0]; [reflexivity|].
          cbn [sortDesc fold_right]. fold (sortDesc l0).
          destruct (sortDesc l0) as [|h0 t0]; cbn [insertDesc]; [discriminate|].
          destruct (Js.ltb b h0); discriminate. }
        rewrite (Hlen l Hs) in Hx. destruct Hx.
      * apply Qle_trans with h.
        -- exact (proj2 (IH h tl eq_refl) x Hx).
        -- exact (Hh h tl eq_refl).
Qed.

(** X23.  The rule-based strategy takes the largest amount of the message
    as the purchase price: when it creates a purchase, the price is one of
    the amounts matched in the body, lies strictly between 0 and 10000, and
    no matched amount in that range exceeds it; the purchase is seeded with
    that price as current and lowest price.  A message with no amount in that
    range, or from no known retailer, creates nothing. *)
Theorem extractPurchaseFromEmail_takes_largest_amount
        (defaults : SchemaDefaults) (db : DB) (now : instant)
        (facts : EmailFacts) (userId : id) (emailId : string) :
  let answer := extractPurchaseFromEmail defaults db now facts userId emailId in
  (forall p, snd answer = Some p ->
     In (p_purchasePrice p) (ef_prices facts)
     /\ 0 < p_purchasePrice p /\ p_purchasePrice p < 10000
     /\ (forall q, In q (ef_prices facts) -> 0 < q -> q < 10000 ->
                   q <= p_purchasePrice p)
     /\ p_currentPrice p = Some (p_purchasePrice p)
     /\ p_lowestPrice p = Some (p_purchasePrice p)
     /\ p_status p = PurchaseStatus.MONITORING)
  /\ ((forall q, In q (ef_prices facts) -> ~ (0 < q /\ q < 10000)) ->
      answer = (db, None))
  /\ (Js.truthyString (ef_retailer facts) = None -> answer = (db, None)).
Proof.
  intros answer. unfold answer, extractPurchaseFromEmail.
  destruct (Js.truthyString (ef_retailer facts)) as [retailer|];
    [|split; [discriminate | split; reflexivity]].
  destruct (findPurchaseBySourceEmail db userId emailId);
    [split; [discriminate | split; [reflexivity | discriminate]]|].
  destruct (candidatePrices (ef_prices facts)) as [|price0 rest] eqn:Hc.
  - split; [discriminate | split; [reflexivity | discriminate]].
  - unfold candidatePrices in Hc.
    destruct (sortDesc_head_max _ _ _ Hc) as [Hin Hmax].
    apply filter_In in Hin. destruct Hin as [Hin Hrange].
    apply andb_true_iff in Hrange. destruct Hrange as [Hpos Hlt].
    apply Js_gtb_gt in Hpos. apply Js_ltb_lt in Hlt.
    destruct (matchCardToUser defaults db userId (ef_cardLast4 facts)
                              (ef_detectedNetwork facts)) as [db1 matchedCard].
    unfold createPurchase. cbn [fst snd].
    split; [|split; [|discriminate]].
    + intros p [= <-]. cbn.
      repeat split; try assumption.
      intros q Hq Hq0 Hq1. apply Hmax. apply filter_In. split; [exact Hq|].
      apply andb_true_iff. split; [now apply Js_gtb_gt | now apply Js_ltb_lt].
    + intros Hnone. exfalso. apply (Hnone price0 Hin). now split.
Qed.

(** X24.  The card matcher is idempotent.  When the user has a card with
    the given last four digits it answers that card and changes nothing;
    otherwise it creates one card and one notification, and asking again for
    the same digits, whatever network is detected then, answers the card
    just created and changes nothing.  Without last four digits it answers no
    card and changes nothing. *)
Theorem matchCardToUser_is_idempotent
        (defaults : SchemaDefaults) (db : DB) (userId : id)
        (cardLast4 detectedNetwork detectedLater : option string) :
  let first := matchCardToUser defaults db userId cardLast4 detectedNetwork in
  matchCardToUser defaults (fst first) userId cardLast4 detectedLater = first
  /\ (forall card last4,
         Js.truthyString cardLast4 = Some last4 ->
         In card (creditCards db) -> cc_userId card = userId ->
         cc_lastFour card = last4 ->
         fst first = db
         /\ exists found, snd first = Some found
                          /\ In found (creditCards db)
                          /\ cc_userId found = userId /\ cc_lastFour found = last4)
  /\ (Js.truthyString cardLast4 = None -> first = (db, None))
  /\ (List.length (creditCards (fst first)) <= S (List.length (creditCards db)))%nat.
Proof.
  intros first. unfold first, matchCardToUser.
  destruct (Js.truthyString cardLast4) as [last4|] eqn:Hl4.
  2:{ cbn [fst]. rewrite ?Hl4. split; [reflexivity|]. split; [discriminate|].
      split; [reflexivity | lia]. }
  destruct (find (fun card => String.eqb (cc_lastFour card) last4)
                 (cardsOfUser db userId)) as [matching|] eqn:Hfind.
  - cbn [fst snd]. rewrite ?Hl4, ?Hfind.
    split; [reflexivity|]. split; [|split; [discriminate | lia]].
    intros card l4 [= <-] Hin Hu Hlast. split; [reflexivity|].
    exists matching. split; [reflexivity|].
    apply find_some in Hfind. destruct Hfind as [Hm Heq].
    unfold cardsOfUser in Hm. apply filter_In in Hm. destruct Hm as [Hm Hmu].
    apply Nat.eqb_eq in Hmu. apply String.eqb_eq in Heq. now repeat split.
  - unfold createCreditCard, createNotification. cbn [fst snd].
    split; [|split; [|split]].
    + rewrite ?Hl4. unfold cardsOfUser.
      cbn [creditCards withNotifications withNextId withCreditCards].
      rewrite filter_app, find_app_l.
      unfold cardsOfUser in Hfind. rewrite Hfind.
      cbn [filter cc_userId autoCreatedCardData cd_userId].
      rewrite Nat.eqb_refl. cbn [find cc_lastFour cd_lastFour].
      rewrite String.eqb_refl. reflexivity.
    + intros card l4 [= <-] Hin Hu Hlast. exfalso.
      assert (Hc : In card (cardsOfUser db userId)).
      { unfold cardsOfUser. apply filter_In. split; [exact Hin|].
        now apply Nat.eqb_eq. }
      pose proof (find_none _ _ Hfind card Hc) as Hn. cbv beta in Hn.
      rewrite Hlast, String.eqb_refl in Hn. discriminate.
    + discriminate.
    + cbn [creditCards withNotifications withNextId withCreditCards].
      rewrite length_app. cbn. lia.
Qed.

End RuleBasedExtraction.
(* ------------------------------------------------------------------------- *)
(** ** The filers: effects, history and the portal steps *)

Section FilerEffects.
Import Store Filing Notions.

Lemma findClaim_ext db1 db2 cid :
  claims db1 = claims db2 -> findClaim db1 cid = findClaim db2 cid.
Proof. unfold findClaim. now intros ->. Qed.

Lemma findClaim_after db db' cid claim f :
  claims db' = claims (updateClaim db cid f) ->
  (forall c, c_id (f c) = c_id c) ->
  findClaim db cid = Some claim ->
  findClaim db' cid = Some (f claim).
Proof.
  intros Hc Hid Hfind. rewrite (findClaim_ext db' (updateClaim db cid f) cid Hc).
  rewrite findClaim_updateClaim by exact Hid. now rewrite Hfind.
Qed.

(** X25.  What a run of the e-mail filer leaves behind.  On success the
    claim has one EMAIL_SENT entry appended to its status history, is marked
    automatically filed at the instant of the run with the address written
    to, its purchase becomes CLAIM_FILED and one notification is created.  On
    failure one ERROR entry is appended, no notification is created and no
    purchase is touched, and a proof document the claim already had is not
    lost.  In both cases the earlier entries of the history are kept; the
    portal filer, when the portal run succeeds, replaces the history by a
    single FILED entry. *)
Theorem filer_effects_and_history :
  (forall db now env toEmail cid claim card,
      findClaim db cid = Some claim ->
      cardOf db (c_creditCardId claim) = Some card ->
      let run := MailFiler.autoFileClaim db now env toEmail cid in
      exists outcome entry claim',
        value run = Ok outcome
        /\ findClaim (store run) cid = Some claim'
        /\ c_statusHistory claim' = (c_statusHistory claim ++ [entry])%list
        /\ h_timestamp entry = now
        /\ h_status entry
           = (if success outcome then "EMAIL_SENT" else "ERROR")%string
        /\ (success outcome = true ->
            c_autoFiled claim' = true
            /\ c_filedAt claim' = Some now
            /\ c_claimEmailTo claim' = Some toEmail
            /\ findPurchase (store run) (c_purchaseId claim)
               = option_map (Set_.purchaseStatus PurchaseStatus.CLAIM_FILED)
                            (findPurchase db (c_purchaseId claim))
            /\ exists n, notifications (store run) = (notifications db ++ [n])%list
                         /\ n_type n = CLAIM_FILED_NOTICE
                         /\ n_claimId n = Some cid)
        /\ (success outcome = false ->
            purchases (store run) = purchases db
            /\ notifications (store run) = notifications db
            /\ c_filedAt claim' = c_filedAt claim
            /\ c_autoFiled claim' = c_autoFiled claim
            /\ (c_proofDocumentUrl claim <> None ->
                c_proofDocumentUrl claim' <> None)))
  /\ (forall db now penv env hasEmail cid claim,
         findClaim db cid = Some claim ->
         PortalFiler.portalReportsSuccess db penv cid = true ->
         let run := PortalFiler.autoFileClaim db now penv env hasEmail cid in
         exists entry claim',
           findClaim (store run) cid = Some claim'
           /\ c_statusHistory claim' = [entry]
           /\ h_status entry = "FILED"%string
           /\ c_status claim' = ClaimStatus.FILED).
Proof.
  split.
  - intros db now env toEmail cid claim card Hclaim Hcard. cbv zeta.
    unfold MailFiler.autoFileClaim. rewrite Hclaim, Hcard.
    destruct (MailFiler.prepareAndSend env (findPurchase db (c_purchaseId claim)))
      as [[[pdf shot] tried] [[messageId sendMethod]|message]]; cbn [store value].
    + eexists. eexists. eexists. split; [reflexivity|].
      split.
      { eapply findClaim_after; [reflexivity | reflexivity | exact Hclaim]. }
      cbn. split; [reflexivity|]. split; [reflexivity|]. split; [reflexivity|].
      split; [|discriminate].
      intros _. repeat (split; [reflexivity|]). split.
      * unfold findPurchase. apply find_map_update. reflexivity.
      * eexists. split; [reflexivity|]. now split.
    + eexists. eexists. eexists. split; [reflexivity|].
      split.
      { eapply findClaim_after; [reflexivity | reflexivity | exact Hclaim]. }
      cbn. split; [reflexivity|]. split; [reflexivity|]. split; [reflexivity|].
      split; [discriminate|].
      intros _. repeat (split; [reflexivity|]).
      unfold MailFiler.orElse. destruct pdf; [discriminate | trivial].
  - intros db now penv env hasEmail cid claim Hclaim Hok. cbv zeta.
    unfold PortalFiler.portalReportsSuccess in Hok.
    unfold PortalFiler.autoFileClaim. rewrite Hclaim in *.
    destruct (cardOf db (c_creditCardId claim)) as [card|]; [|discriminate].
    destruct (PortalFiler.CLAIM_PORTALS (cc_issuer card)) as [steps|];
      [|discriminate].
    destruct (PortalFiler.documentation penv) as [doc|]; [|discriminate].
    apply andb_true_iff in Hok. destruct Hok as [Hl Hs].
    rewrite Hl, Hs. cbn [negb store].
    eexists. eexists. split.
    { eapply findClaim_after; [reflexivity | reflexivity | exact Hclaim]. }
    cbn. now repeat split.
Qed.

Lemma runStep_holds flag a o :
  PortalFiler.runStep flag a o = flag && stepHolds a o.
Proof.
  unfold PortalFiler.runStep, stepHolds.
  destruct a, flag, (PortalFiler.raised o), (PortalFiler.located o); reflexivity.
Qed.

Lemma runSteps_holds steps outcomes k flag :
  PortalFiler.runSteps flag steps outcomes k = true
  <-> flag = true
      /\ forall i a, nth_error steps i = Some a -> stepHolds a (outcomes (k + i)) = true.
Proof.
  revert k flag. induction steps as [|a steps IH]; intros k flag;
    cbn [PortalFiler.runSteps].
  - split.
    + intros ->. split; [reflexivity|]. intros [|i] a0; discriminate.
    + now intros [-> _].
  - rewrite IH, runStep_holds. split.
    + intros [Hf Hrest]. apply andb_true_iff in Hf. destruct Hf as [-> Ha].
      split; [reflexivity|]. intros [|i] a0 Hn.
      * cbn in Hn. injection Hn as <-. now rewrite Nat.add_0_r.
      * cbn in Hn. rewrite <- Nat.add_succ_comm. now apply Hrest.
    + intros [-> Hall]. split.
      * cbn [andb]. specialize (Hall 0 a eq_refl). now rewrite Nat.add_0_r in Hall.
      * intros i a0 Hn. rewrite Nat.add_succ_comm. now apply (Hall (S i)).
Qed.

(** X26.  The portal step loop ends in success exactly when no navigation
    step raised and every submission step neither raised nor missed its
    button: what the click, select, fill and upload steps did plays no part.
    For each of the three portal workflows this comes down to the first step
    (the navigation) and the last (the submission): a run in which no form
    field was found still reports success when the submit button is
    found. *)
Theorem portal_steps_succeed_on_navigation_and_submission
        (outcomes : nat -> PortalFiler.StepOutcome) :
  (forall steps,
      PortalFiler.runSteps true steps outcomes 0 = true
      <-> forall i a, nth_error steps i = Some a -> stepHolds a (outcomes i) = true)
  /\ (forall issuer steps,
         PortalFiler.CLAIM_PORTALS issuer = Some steps ->
         let last := List.length steps - 1 in
         PortalFiler.runSteps true steps outcomes 0
         = negb (PortalFiler.raised (outcomes 0))
           && (negb (PortalFiler.raised (outcomes last))
               && PortalFiler.located (outcomes last))).
Proof.
  split.
  - intros steps. rewrite runSteps_holds. cbn [Nat.add]. tauto.
  - intros issuer steps. unfold PortalFiler.CLAIM_PORTALS.
    destruct (String.eqb issuer "Chase");
      [|destruct (String.eqb issuer "Citi");
        [|destruct (String.eqb issuer "Discover"); [|discriminate]]];
      intros [= <-]; cbn;
      destruct (PortalFiler.raised (outcomes 0));
      match goal with
      | |- context [PortalFiler.raised (outcomes ?n)] =>
          destruct (PortalFiler.raised (outcomes n));
          destruct (PortalFiler.located (outcomes n))
      end; reflexivity.
Qed.

End FilerEffects.
(* ------------------------------------------------------------------------- *)
(** ** Fetching a price and recording it *)

Section Fetching.
Import Store PriceMonitor Notions.
Local Open Scope Q_scope.

Lemma parsePrice_of_pos q : 0 < q -> parsePrice (Some q) = Some q.
Proof.
  intros H. unfold parsePrice.
  now rewrite (proj2 (Js_gtb_gt q 0) H).
Qed.

Lemma trySelectors_first_price pre q post price :
  forallb noPrice pre = true -> 0 < q ->
  trySelectors (pre ++ ElementText (Some q) :: post) price = Some q.
Proof.
  intros Hpre Hq. revert price. induction pre as [|l pre IH]; intros price.
  - cbn [app trySelectors]. rewrite (parsePrice_of_pos q Hq).
    now rewrite (Js_truthy_pos Hq).
  - cbn [forallb] in Hpre. apply andb_true_iff in Hpre. destruct Hpre as [Hl Hpre].
    specialize (IH Hpre). destruct l as [| |t]; cbn [app trySelectors]; try apply IH.
    cbn [noPrice] in Hl. apply negb_true_iff in Hl. rewrite Hl. apply IH.
Qed.

Lemma tryGenericSelectors_no_element n price :
  tryGenericSelectors (repeat NoElement n) price = price.
Proof. induction n as [|n IH]; cbn; [reflexivity | exact IH]. Qed.

(** X27.  A fetched price is positive, whatever path produced it.  In the
    selector loop of a known retailer the first selector whose text parses to
    a positive number decides, and the selectors after it are not consulted.
    In the generic loop the bound of 50000 only ends the search: a price of
    50000 or more is still what the loop answers when no later selector
    matches an element. *)
Theorem scrapePrice_answers_a_positive_price :
  (forall env c, scrapePrice env = Some c -> 0 < c)
  /\ (forall pre q post,
         forallb noPrice pre = true -> 0 < q ->
         trySelectors (pre ++ ElementText (Some q) :: post) None = Some q)
  /\ (forall q n,
         0 < q ->
         tryGenericSelectors (ElementText (Some q) :: repeat NoElement n) None
         = Some q).
Proof.
  split; [|split].
  - intros env c. apply scrapePrice_pos.
  - intros pre q post Hpre Hq. now apply trySelectors_first_price.
  - intros q n Hq. cbn [tryGenericSelectors].
    rewrite (parsePrice_of_pos q Hq), (Js_truthy_pos Hq). cbn [Js.toNumber andb].
    rewrite (proj2 (Js_gtb_gt q 0) Hq). cbn [andb].
    destruct (Js.ltb q 50000); [reflexivity|].
    apply tryGenericSelectors_no_element.
Qed.

(** X28.  What one price check writes.  A check that gets no price (no such
    purchase, no product URL, or nothing fetched) leaves the whole store as
    it was.  A check that gets a price appends exactly that price to the
    observations of the purchase and sets it as the current price; it keeps
    the purchase price, the product URL and the protection window of the
    row.  In both cases every other purchase keeps its row, its observations
    and its notifications, and users, cards and claims are not touched. *)
Theorem checkPrice_writes_one_observation
        (db : DB) (now : instant) (env : ScrapeEnv) (pid : id) :
  let db' := fst (checkPriceForPurchase db now env pid) in
  (fetched db env pid = None ->
     db' = db /\ exists e, snd (checkPriceForPurchase db now env pid) = CheckFailed e)
  /\ (forall purchase c,
         fetched db env pid = Some (purchase, c) ->
         Spec.observedPrices db' pid = (Spec.observedPrices db pid ++ [c])%list
         /\ 0 < c
         /\ exists row,
              findPurchase db' pid = Some row
              /\ p_currentPrice row = Some c
              /\ p_purchasePrice row = p_purchasePrice purchase
              /\ p_productUrl row = p_productUrl purchase
              /\ p_protectionEnds row = p_protectionEnds purchase)
  /\ (forall other, other <> pid ->
         findPurchase db' other = findPurchase db other
         /\ Spec.observedPrices db' other = Spec.observedPrices db other
         /\ Spec.priceDropNotices db' other = Spec.priceDropNotices db other)
  /\ users db' = users db /\ creditCards db' = creditCards db
  /\ claims db' = claims db.
Proof.
  intros db'. unfold db'. split; [|split; [|split]].
  - intros F. split; [exact (@check_failed db now env pid F)|].
    unfold fetched in F. unfold checkPriceForPurchase.
    destruct (findPurchase db pid) as [purchase|]; [|eexists; reflexivity].
    destruct (Js.truthyString (p_productUrl purchase)); [|eexists; reflexivity].
    destruct (scrapePrice env); [discriminate | eexists; reflexivity].
  - intros purchase c F.
    destruct (@fetched_inv db env pid purchase c F) as (Hp & (url & Hu) & Hs).
    split.
    { rewrite check_observedPrices, F. now rewrite Nat.eqb_refl. }
    split; [exact (@scrapePrice_pos env c Hs)|].
    exists (rowAfterCheck db now purchase c).
    split; [exact (@check_success_row db now env pid purchase url c Hp Hu Hs)|].
    destruct (rowAfterCheck_keeps db now purchase c) as (_ & _ & K3 & K4 & K5 & K6).
    now repeat split.
  - intros other Hne. split; [|split].
    + now apply check_row_other.
    + rewrite check_observedPrices.
      destruct (fetched db env pid) as [[? ?]|]; [|now rewrite app_nil_r].
      destruct (Nat.eqb_spec pid other); [congruence | now rewrite app_nil_r].
    + now apply check_notices_other.
  - apply check_frame.
Qed.

End Fetching.

(* ------------------------------------------------------------------------- *)
(** ** A failed filing can be resumed *)

Section Resuming.
Import Store Filing ClaimActions Notions.

(** X29.  A filing that failed can be resumed by hand, and one that
    succeeded cannot be repeated.  After the e-mail filer, the portal filer
    or the claim service has answered, the claim is READY_TO_FILE when the
    answer reports a failure, which is a status the routes that file a claim
    accept, and EMAIL_SENT or FILED when it reports a success, which they
    refuse. *)
Theorem failed_filing_can_be_resumed :
  (forall db now env toEmail cid claim card,
      findClaim db cid = Some claim ->
      cardOf db (c_creditCardId claim) = Some card ->
      let run := MailFiler.autoFileClaim db now env toEmail cid in
      exists outcome status,
        value run = Ok outcome
        /\ Spec.statusOf (store run) cid = Some status
        /\ status = (if success outcome then ClaimStatus.EMAIL_SENT
                     else ClaimStatus.READY_TO_FILE)
        /\ fileable status = negb (success outcome))
  /\ (forall db now penv env hasEmail cid claim card outcome,
         findClaim db cid = Some claim ->
         cardOf db (c_creditCardId claim) = Some card ->
         let run := PortalFiler.autoFileClaim db now penv env hasEmail cid in
         value run = Ok outcome ->
         success outcome = false ->
         Spec.statusOf (store run) cid = Some ClaimStatus.READY_TO_FILE)
  /\ (forall db now env hasEmail cid claim outcome,
         findClaim db cid = Some claim ->
         let run := ClaimService.autoFileClaim db now env hasEmail cid in
         value run = Ok outcome ->
         exists status,
           Spec.statusOf (store run) cid = Some status
           /\ status = (if success outcome then ClaimStatus.FILED
                        else ClaimStatus.READY_TO_FILE)
           /\ fileable status = negb (success outcome)).
Proof.
  split; [|split].
  - intros db now env toEmail cid claim card Hclaim Hcard. cbv zeta.
    destruct (@mailFiler_outcome_status db now env toEmail cid claim card Hclaim Hcard)
      as (o & Hv & Hs).
    exists o. eexists. split; [exact Hv|]. split; [exact Hs|].
    split; [reflexivity|]. now destruct (success o).
  - intros db now penv env hasEmail cid claim card outcome Hclaim Hcard. cbv zeta.
    intros Hv Hf.
    exact (@portalFiler_failure_status db now penv env hasEmail cid claim card
                                       outcome Hclaim Hcard Hv Hf).
  - intros db now env hasEmail cid claim outcome Hclaim. cbv zeta. intros Hv.
    pose proof (@claimService_outcome_status db now env hasEmail cid claim Hclaim)
      as H.
    rewrite Hv in H. eexists. split; [exact H|].
    split; [reflexivity|]. now destruct (success outcome).
Qed.

End Resuming.
(* ------------------------------------------------------------------------- *)
(** ** The statements above, at the sample data *)

Section FurtherExamples.
Import Store Filing PriceMonitor PriceSweep CronJobs EmailParser ClaimActions
       CardUtils CardIssuer CardsRoute Notions.
Local Open Scope Q_scope.

Lemma quickAdd_stores_only_valid_cards_witness :
  exists card,
    snd (quickAdd Samples.schema (Samples.db 500 Samples.eligible []) 1%nat
                  (list_ascii_of_string "4111 1111 1111 1111") None) = Ok card
    /\ luhnCheck (list_ascii_of_string "4111 1111 1111 1111") = true
    /\ cc_autoClaimEnabled card = false
    /\ 0 < cc_maxClaimAmount card.
Proof.
  eexists. split; [reflexivity|].
  destruct (proj1 (proj2 (quickAdd_stores_only_valid_cards
                            Samples.schema (Samples.db 500 Samples.eligible [])
                            1%nat (list_ascii_of_string "4111 1111 1111 1111") None))
                  _ eq_refl)
    as (_ & H2 & _ & _ & _ & _ & H7 & _ & H9 & _).
  split; [exact H2|]. split; [exact H7 | exact H9].
Defined.



Lemma ai_purchase_waits_for_a_card_witness :
  match Samples.extracted with
  | (db1, Ok (Some (p :: _))) =>
      (forall t, sweepWhere t p = false /\ expiryWhere t p = false)
      /\ (forall t user, exists e, ClaimsRoute.post db1 t user (p_id p) = (db1, Err e))
  | _ => False
  end.
Proof.
  destruct Samples.extracted as [db1 [[[|p rest]|]|e]] eqn:E;
    try (vm_compute in E; discriminate E).
  unfold Samples.extracted in E.
  destruct (ai_purchase_waits_for_a_card
              emptyDB 5%Z 1%Z (Samples.receipt 100) 1%nat "msg-1"%string
              db1 (p :: rest) p
              (conj (Forall_nil _) (Forall_nil _)) E (or_introl eq_refl))
    as (H1 & _ & H3).
  split; [exact H1 | exact H3].
Defined.


Lemma extractPurchaseFromEmail_takes_largest_amount_witness :
  exists p,
    snd (extractPurchaseFromEmail Samples.schema emptyDB 6%Z Samples.confirmation
                                  1%nat "msg-2"%string) = Some p
    /\ In (p_purchasePrice p) (ef_prices Samples.confirmation)
    /\ 0 < p_purchasePrice p.
Proof.
  eexists. split; [reflexivity|].
  destruct (proj1 (extractPurchaseFromEmail_takes_largest_amount
                     Samples.schema emptyDB 6%Z Samples.confirmation
                     1%nat "msg-2"%string) _ eq_refl)
    as (H1 & H2 & _).
  split; [exact H1 | exact H2].
Defined.

Lemma filer_effects_and_history_witness :
  let run := MailFiler.autoFileClaim Samples.withDraft 10%Z Samples.gmailDown
                                     "claims@acmebank.example" 4%nat in
  exists outcome entry claim',
    value run = Ok outcome
    /\ findClaim (store run) 4%nat = Some claim'
    /\ c_statusHistory claim'
       = (c_statusHistory Samples.draftClaim ++ [entry])%list
    /\ h_timestamp entry = 10%Z.
Proof.
  cbv zeta.
  destruct (proj1 filer_effects_and_history
                  Samples.withDraft 10%Z Samples.gmailDown
                  "claims@acmebank.example"%string 4%nat
                  Samples.draftClaim (Samples.card 500) eq_refl eq_refl)
    as (outcome & entry & claim' & H1 & H2 & H3 & H4 & _).
  exists outcome, entry, claim'. now repeat split.
Defined.

Lemma portal_steps_succeed_on_navigation_and_submission_witness :
  PortalFiler.runSteps
    true
    [PortalFiler.Navigate; PortalFiler.Click; PortalFiler.Select; PortalFiler.Fill;
     PortalFiler.Fill; PortalFiler.Fill; PortalFiler.Fill; PortalFiler.Fill;
     PortalFiler.Fill; PortalFiler.Upload; PortalFiler.Submit]
    (fun k => {| PortalFiler.raised := false;
                 PortalFiler.located := (k =? 10)%nat |}) 0
  = true.
Proof.
  exact (proj2 (portal_steps_succeed_on_navigation_and_submission
                  (fun k => {| PortalFiler.raised := false;
                               PortalFiler.located := (k =? 10)%nat |}))
               "Chase"%string _ eq_refl).
Defined.

Lemma scrapePrice_answers_a_positive_price_witness :
  tryGenericSelectors [ElementText (Some 60000); NoElement; NoElement] None
  = Some 60000.
Proof.
  exact (proj2 (proj2 scrapePrice_answers_a_positive_price) 60000 2%nat eq_refl).
Defined.

Lemma failed_filing_can_be_resumed_witness :
  let run := MailFiler.autoFileClaim Samples.withDraft 10%Z Samples.mailDown
                                     "claims@acmebank.example" 4%nat in
  exists outcome status,
    value run = Ok outcome
    /\ Spec.statusOf (store run) 4%nat = Some status
    /\ status = (if success outcome then ClaimStatus.EMAIL_SENT
                 else ClaimStatus.READY_TO_FILE)
    /\ fileable status = negb (success outcome).
Proof.
  exact (proj1 failed_filing_can_be_resumed
               Samples.withDraft 10%Z Samples.mailDown
               "claims@acmebank.example"%string 4%nat
               Samples.draftClaim (Samples.card 500) eq_refl eq_refl).
Defined.

End FurtherExamples.
